(** * sqllogictest: the directive parser and the verification engine

    A shallow embedding of [parser/record.go], [parser/parser.go] and
    [go/logictest/runner.go].  Go strings are byte strings ([string]), Go
    [int] is [Z], slices are lists; the Go standard-library routines the
    code calls ([strings], [strconv], [regexp] on the three fixed patterns,
    [crypto/md5]) are given executable definitions in [Module Go], and
    [sort] is modelled next to its callers in [Module parser]. *)

From Stdlib Require Import String Ascii List ZArith NArith Bool Lia Arith.
From Stdlib Require Import Permutation Sorted DecimalString DecimalNat.
Import ListNotations.
Open Scope string_scope.

(* ================================================================== *)
(** ** The Go library routines used by the repository *)

Module Go.

(** A runtime panic value. *)
Inductive PanicValue :=
| PanicString (msg : string)
| IndexOutOfRange (index len : nat)
| DivideByZero.

(** [strings.HasPrefix]. *)
Definition HasPrefix (s pre : string) : bool := String.prefix pre s.

Definition byteIs (c : ascii) (n : N) : bool := N.eqb (N_of_ascii c) n.

Definition byteIn (c : ascii) (lo hi : N) : bool :=
  N.leb lo (N_of_ascii c) && N.leb (N_of_ascii c) hi.

(** The six ASCII white-space bytes: tab, LF, VT, FF, CR, space. *)
Definition asciiSpace (c : ascii) : bool := byteIn c 9 13 || byteIs c 32.

(** Width in bytes of the white-space rune ([unicode.IsSpace]) that starts
    [s], or 0 when [s] does not start with one.  Besides the ASCII bytes
    these are U+0085, U+00A0, U+1680, U+2000..U+200A, U+2028, U+2029,
    U+202F, U+205F and U+3000 in their UTF-8 encodings; a byte that is not
    part of a well-formed encoding decodes to U+FFFD, which is no space. *)
Definition spaceWidth (s : string) : nat :=
  match s with
  | EmptyString => 0
  | String c s1 =>
      if asciiSpace c then 1
      else match s1 with
           | String d s2 =>
               if byteIs c 194 && (byteIs d 133 || byteIs d 160) then 2
               else match s2 with
                    | String e _ =>
                        if byteIs c 225 && byteIs d 154 && byteIs e 128 then 3
                        else if byteIs c 226 && byteIs d 128 &&
                                (byteIn e 128 138 || byteIs e 168 ||
                                 byteIs e 169 || byteIs e 175) then 3
                        else if byteIs c 226 && byteIs d 129 && byteIs e 159 then 3
                        else if byteIs c 227 && byteIs d 128 && byteIs e 128 then 3
                        else 0
                    | EmptyString => 0
                    end
           | EmptyString => 0
           end
  end.

(** Bytes still to pass of the white-space rune the scan is in ([skip]),
    or the width of the one that starts here. *)
Definition spaceHere (skip : nat) (s : string) : nat :=
  match skip with
  | S _ => skip
  | O => spaceWidth s
  end.

Fixpoint trimLeftSpace (skip : nat) (s : string) : string :=
  match s with
  | EmptyString => EmptyString
  | String c s' =>
      match spaceHere skip s with
      | O => s
      | S k => trimLeftSpace k s'
      end
  end.

Fixpoint trimRightSpace (skip : nat) (s : string) : string :=
  match s with
  | EmptyString => EmptyString
  | String c s' =>
      match spaceHere skip s with
      | O => String c (trimRightSpace 0 s')
      | S k => match trimRightSpace k s' with
               | EmptyString => EmptyString
               | t => String c t
               end
      end
  end.

(** [strings.TrimSpace]. *)
Definition TrimSpace (s : string) : string :=
  trimRightSpace 0 (trimLeftSpace 0 s).

Definition flushField (cur : string) : list string :=
  match cur with
  | EmptyString => []
  | _ => [cur]
  end.

Fixpoint fieldsFrom (skip : nat) (cur : string) (s : string) : list string :=
  match s with
  | EmptyString => flushField cur
  | String c s' =>
      match spaceHere skip s with
      | O => fieldsFrom 0 (cur ++ String c EmptyString) s'
      | S k => flushField cur ++ fieldsFrom k EmptyString s'
      end
  end.

(** [strings.Fields]: the maximal runs of non-space runes. *)
Definition Fields (s : string) : list string := fieldsFrom 0 EmptyString s.

(** Go's [<] on strings: byte-wise lexicographic order. *)
Definition stringLess (a b : string) : bool := String.ltb a b.

Definition isDigit (c : ascii) : bool := byteIn c 48 57.

(** The class [[0-9a-f]]. *)
Definition isHexLower (c : ascii) : bool := byteIn c 48 57 || byteIn c 97 102.

(** Longest prefix of bytes satisfying [p], and what follows it. *)
Fixpoint span (p : ascii -> bool) (s : string) : string * string :=
  match s with
  | EmptyString => (EmptyString, EmptyString)
  | String c s' =>
      if p c then let (a, b) := span p s' in (String c a, b)
      else (EmptyString, s)
  end.

Fixpoint dropPrefix (pre s : string) : option string :=
  match pre with
  | EmptyString => Some s
  | String a pre' =>
      match s with
      | EmptyString => None
      | String b s' => if Ascii.eqb a b then dropPrefix pre' s' else None
      end
  end.

Definition maxInt : Z := 9223372036854775807.
Definition minInt : Z := -9223372036854775808.

Fixpoint digitsValue (acc : Z) (s : string) : option Z :=
  match s with
  | EmptyString => Some acc
  | String c s' =>
      if isDigit c
      then digitsValue (10 * acc + (Z.of_N (N_of_ascii c) - 48)) s'
      else None
  end.

Definition unsignedValue (s : string) : option Z :=
  match s with
  | EmptyString => None
  | _ => digitsValue 0 s
  end.

Definition signedValue (s : string) : option Z :=
  match s with
  | String "+" s' => unsignedValue s'
  | String "-" s' => option_map Z.opp (unsignedValue s')
  | _ => unsignedValue s
  end.

(** [strconv.Atoi] on a 64-bit platform: the value and whether an error
    came with it.  A syntax error gives 0, a range error the nearest bound. *)
Definition Atoi (s : string) : Z * bool :=
  match signedValue s with
  | None => (0%Z, true)
  | Some v =>
      if (maxInt <? v)%Z then (maxInt, true)
      else if (v <? minInt)%Z then (minInt, true)
      else (v, false)
  end.

(** The three regular expressions of the repository, each with the
    [regexp] method the code calls on it. *)

(** [commentRegex.ReplaceAllString(s, "$1")].  The pattern is a group of
    any number of bytes other than [#], an optional [#], and the rest of
    the line: every match keeps its text up to the first [#] and loses the
    rest of that line (the dot does not match a newline). *)
Fixpoint commentRegex_ReplaceAll (inComment : bool) (s : string) : string :=
  match s with
  | EmptyString => EmptyString
  | String c s' =>
      if inComment
      then if byteIs c 10
           then String c (commentRegex_ReplaceAll false s')
           else commentRegex_ReplaceAll true s'
      else if byteIs c 35
           then commentRegex_ReplaceAll true s'
           else String c (commentRegex_ReplaceAll false s')
  end.

(** A match of "(\d+) values hashing to ([0-9a-f]+)" anchored at the start
    of [s]: both groups and the length of the match.  Both repetitions are
    greedy, and neither can give a byte back: the byte after the digits must
    be a space, and the second group ends the pattern. *)
Definition hashRegex_matchAt (s : string) : option (string * string * nat) :=
  let (digits, r1) := span isDigit s in
  match digits with
  | EmptyString => None
  | _ =>
      match dropPrefix " values hashing to " r1 with
      | None => None
      | Some r2 =>
          let (hex, _) := span isHexLower r2 in
          match hex with
          | EmptyString => None
          | _ => Some (digits, hex,
                       String.length digits + 19 + String.length hex)
          end
      end
  end.

(** [hashRegex.MatchString]: a match somewhere in [s]. *)
Fixpoint hashRegex_MatchString (s : string) : bool :=
  match s with
  | EmptyString => false
  | String _ s' =>
      match hashRegex_matchAt s with
      | Some _ => true
      | None => hashRegex_MatchString s'
      end
  end.

(** [hashRegex.ReplaceAllString(s, "$1")] ([group = 1]) and
    [ReplaceAllString(s, "$2")] ([group = 2]): every leftmost match, left
    to right, is replaced by its group; text outside the matches stays. *)
Fixpoint hashRegex_ReplaceAll (group : nat) (skip : nat) (s : string) : string :=
  match s with
  | EmptyString => EmptyString
  | String c s' =>
      match skip with
      | S k => hashRegex_ReplaceAll group k s'
      | O =>
          match hashRegex_matchAt s with
          | Some (digits, hex, len) =>
              (if Nat.eqb group 1 then digits else hex)
                ++ hashRegex_ReplaceAll group (Nat.pred len) s'
          | None => String c (hashRegex_ReplaceAll group 0 s')
          end
      end
  end.

Fixpoint allBytes (p : ascii -> bool) (s : string) : bool :=
  match s with
  | EmptyString => true
  | String c s' => p c && allBytes p s'
  end.

Definition nonEmpty (s : string) : bool :=
  match s with
  | EmptyString => false
  | _ => true
  end.

(** [allIs.MatchString] for "^I+$". *)
Definition allIs_MatchString (s : string) : bool :=
  nonEmpty s && allBytes (fun c => byteIs c 73) s.

(** [isAndRs.MatchString] for "^[IR]+$". *)
Definition isAndRs_MatchString (s : string) : bool :=
  nonEmpty s && allBytes (fun c => byteIs c 73 || byteIs c 82) s.

(** [crypto/md5] (RFC 1321) on a list of bytes, each a [Z] below 256. *)
Module md5.

Definition mask32 : Z := 4294967295.
Definition add32 (x y : Z) : Z := Z.land (x + y) mask32.
Definition not32 (x : Z) : Z := Z.lxor x mask32.
Definition rotl32 (x : Z) (c : Z) : Z :=
  Z.land (Z.lor (Z.shiftl x c) (Z.shiftr x (32 - c))) mask32.

Definition shifts : list Z :=
  [7; 12; 17; 22; 7; 12; 17; 22; 7; 12; 17; 22; 7; 12; 17; 22;
   5; 9; 14; 20; 5; 9; 14; 20; 5; 9; 14; 20; 5; 9; 14; 20;
   4; 11; 16; 23; 4; 11; 16; 23; 4; 11; 16; 23; 4; 11; 16; 23;
   6; 10; 15; 21; 6; 10; 15; 21; 6; 10; 15; 21; 6; 10; 15; 21]%Z.

(** [floor(2^32 * abs(sin(i + 1)))] for [i] from 0 to 63. *)
Definition sines : list Z :=
  [3614090360; 3905402710; 606105819; 3250441966;
   4118548399; 1200080426; 2821735955; 4249261313;
   1770035416; 2336552879; 4294925233; 2304563134;
   1804603682; 4254626195; 2792965006; 1236535329;
   4129170786; 3225465664; 643717713; 3921069994;
   3593408605; 38016083; 3634488961; 3889429448;
   568446438; 3275163606; 4107603335; 1163531501;
   2850285829; 4243563512; 1735328473; 2368359562;
   4294588738; 2272392833; 1839030562; 4259657740;
   2763975236; 1272893353; 4139469664; 3200236656;
   681279174; 3936430074; 3572445317; 76029189;
   3654602809; 3873151461; 530742520; 3299628645;
   4096336452; 1126891415; 2878612391; 4237533241;
   1700485571; 2399980690; 4293915773; 2240044497;
   1873313359; 4264355552; 2734768916; 1309151649;
   4149444226; 3174756917; 718787259; 3951481745]%Z.

(** The 64-bit value [v] as [n] little-endian bytes. *)
Fixpoint leBytes (n : nat) (v : Z) : list Z :=
  match n with
  | O => []
  | S n' => Z.land v 255 :: leBytes n' (Z.shiftr v 8)
  end.

Fixpoint leWord (bs : list Z) : Z :=
  match bs with
  | [] => 0%Z
  | b :: bs' => (b + 256 * leWord bs')%Z
  end.

(** The message, a 1 bit, zero bits up to 56 modulo 64 bytes, and the
    length in bits. *)
Definition pad (msg : list Z) : list Z :=
  let n := List.length msg in
  let zeros := Nat.modulo (119 - Nat.modulo n 64) 64 in
  msg ++ [128%Z] ++ repeat 0%Z zeros ++ leBytes 8 (Z.of_nat n * 8).

(** The sixteen 32-bit words of a 64-byte block. *)
Fixpoint wordsOf (n : nat) (bs : list Z) : list Z :=
  match n with
  | O => []
  | S n' => leWord (firstn 4 bs) :: wordsOf n' (skipn 4 bs)
  end.

Definition round (M : list Z) (i : nat) (st : Z * Z * Z * Z) : Z * Z * Z * Z :=
  let '(A, B, C, D) := st in
  let '(F, g) :=
    if Nat.ltb i 16 then (Z.lor (Z.land B C) (Z.land (not32 B) D), i)
    else if Nat.ltb i 32 then
      (Z.lor (Z.land D B) (Z.land (not32 D) C), Nat.modulo (5 * i + 1) 16)
    else if Nat.ltb i 48 then
      (Z.lxor B (Z.lxor C D), Nat.modulo (3 * i + 5) 16)
    else (Z.lxor C (Z.lor B (not32 D)), Nat.modulo (7 * i) 16) in
  let F' := add32 (add32 (add32 F A) (nth i sines 0%Z)) (nth g M 0%Z) in
  (D, add32 B (rotl32 F' (nth i shifts 0%Z)), B, C).

Definition block (st : Z * Z * Z * Z) (bs : list Z) : Z * Z * Z * Z :=
  let M := wordsOf 16 bs in
  let '(a0, b0, c0, d0) := st in
  let '(A, B, C, D) := fold_left (fun acc i => round M i acc) (seq 0 64) st in
  (add32 a0 A, add32 b0 B, add32 c0 C, add32 d0 D).

Fixpoint blocks (n : nat) (st : Z * Z * Z * Z) (bs : list Z) : Z * Z * Z * Z :=
  match n with
  | O => st
  | S n' => blocks n' (block st (firstn 64 bs)) (skipn 64 bs)
  end.

(** [h.Sum(nil)]: the 16 bytes of the digest. *)
Definition Sum (msg : list Z) : list Z :=
  let padded := pad msg in
  let '(a, b, c, d) :=
    blocks (Nat.div (List.length padded) 64)
      (1732584193, 4023233417, 2562383102, 271733878)%Z padded in
  leBytes 4 a ++ leBytes 4 b ++ leBytes 4 c ++ leBytes 4 d.

End md5.

Definition bytesOf (s : string) : list Z :=
  map (fun c => Z.of_N (N_of_ascii c)) (list_ascii_of_string s).

Definition hexDigit (v : Z) : ascii :=
  ascii_of_N (Z.to_N (if (v <? 10)%Z then 48 + v else 87 + v)).

(** [fmt.Sprintf("%x", bytes)]: two lower-case hexadecimal digits a byte. *)
Fixpoint hexString (bs : list Z) : string :=
  match bs with
  | [] => EmptyString
  | b :: bs' =>
      String (hexDigit (Z.shiftr b 4)) (String (hexDigit (Z.land b 15)) (hexString bs'))
  end.

End Go.

(* ================================================================== *)
(** ** parser/record.go *)

Module parser.
Import Go.

Definition SortMode := string.

Definition NoSort : SortMode := "nosort".
Definition Rowsort : SortMode := "rowsort".
Definition ValueSort : SortMode := "valuesort".

Inductive RecordType :=
| Statement   (* iota 0: also the zero value of a fresh Record *)
| Query
| Halt.

(** A condition is a directive to execute a record or not depending on the
    underlying engine being evaluated. *)
Record Condition := mkCondition {
  isOnly : bool;
  isSkip : bool;
  engine : string
}.

Record Record := mkRecord {
  recordType : RecordType;
  expectError : bool;
  conditions : list Condition;
  schema : string;
  sortMode : SortMode;
  query : string;
  lineNum : Z;
  result : list string;
  label : string;
  hashThreshold : Z
}.

Definition set_recordType (v : RecordType) (r : Record) : Record :=
  mkRecord v (expectError r) (conditions r) (schema r) (sortMode r)
           (query r) (lineNum r) (result r) (label r) (hashThreshold r).
Definition set_expectError (v : bool) (r : Record) : Record :=
  mkRecord (recordType r) v (conditions r) (schema r) (sortMode r)
           (query r) (lineNum r) (result r) (label r) (hashThreshold r).
Definition set_conditions (v : list Condition) (r : Record) : Record :=
  mkRecord (recordType r) (expectError r) v (schema r) (sortMode r)
           (query r) (lineNum r) (result r) (label r) (hashThreshold r).
Definition set_schema (v : string) (r : Record) : Record :=
  mkRecord (recordType r) (expectError r) (conditions r) v (sortMode r)
           (query r) (lineNum r) (result r) (label r) (hashThreshold r).
Definition set_sortMode (v : SortMode) (r : Record) : Record :=
  mkRecord (recordType r) (expectError r) (conditions r) (schema r) v
           (query r) (lineNum r) (result r) (label r) (hashThreshold r).
Definition set_query (v : string) (r : Record) : Record :=
  mkRecord (recordType r) (expectError r) (conditions r) (schema r)
           (sortMode r) v (lineNum r) (result r) (label r) (hashThreshold r).
Definition set_lineNum (v : Z) (r : Record) : Record :=
  mkRecord (recordType r) (expectError r) (conditions r) (schema r)
           (sortMode r) (query r) v (result r) (label r) (hashThreshold r).
Definition set_result (v : list string) (r : Record) : Record :=
  mkRecord (recordType r) (expectError r) (conditions r) (schema r)
           (sortMode r) (query r) (lineNum r) v (label r) (hashThreshold r).
Definition set_label (v : string) (r : Record) : Record :=
  mkRecord (recordType r) (expectError r) (conditions r) (schema r)
           (sortMode r) (query r) (lineNum r) (result r) v (hashThreshold r).
Definition set_hashThreshold (v : Z) (r : Record) : Record :=
  mkRecord (recordType r) (expectError r) (conditions r) (schema r)
           (sortMode r) (query r) (lineNum r) (result r) (label r) v.

Definition isQuery (r : Record) : bool :=
  match recordType r with
  | Query => true
  | _ => false
  end.

(** [IsHashResult]: whether this record has a hash result (as opposed to
    enumerating each value). *)
Definition IsHashResult (r : Record) : bool :=
  match result r with
  | [x] => hashRegex_MatchString x
  | _ => false
  end.

(** [HashResult]: [hashRegex.ReplaceAllString(r.result[0], "$2")]. *)
Definition HashResult (r : Record) : PanicValue + string :=
  match result r with
  | x :: _ => inr (hashRegex_ReplaceAll 2 0 x)
  | [] => inl (IndexOutOfRange 0 0)
  end.

(** [NumResults]: the number of results (not rows) for this record.
    Panics if the record is a statement instead of a query. *)
Definition NumResults (r : Record) : PanicValue + Z :=
  if negb (isQuery r) then inl (PanicString "Only query records have results")
  else
    match result r with
    | [x] =>
        if hashRegex_MatchString x
        then inr (fst (Atoi (hashRegex_ReplaceAll 1 0 x)))
        else inr (Z.of_nat (List.length (result r)))
    | _ => inr (Z.of_nat (List.length (result r)))
    end.

(** [NumCols]: the number of columns of this record's query.  Panics if
    the record is a statement instead of a query. *)
Definition NumCols (r : Record) : PanicValue + nat :=
  if negb (isQuery r) then inl (PanicString "Only query records have results")
  else inr (String.length (schema r)).

(** The [for _, condition := range r.conditions] loop of
    [ShouldExecuteForEngine], with its early [return false]. *)
Fixpoint noSkipFor (cs : list Condition) (eng : string) : bool :=
  match cs with
  | [] => true
  | condition :: cs' =>
      if isSkip condition && String.eqb (engine condition) eng
      then false
      else noSkipFor cs' eng
  end.

(** [ShouldExecuteForEngine]: whether this record should be executed for
    the engine with the identifier given. *)
Definition ShouldExecuteForEngine (r : Record) (eng : string) : bool :=
  match conditions r with
  | c0 :: _ =>
      if Nat.eqb (List.length (conditions r)) 1 && isOnly c0
      then String.eqb (engine c0) eng
      else noSkipFor (conditions r) eng
  | [] => noSkipFor (conditions r) eng
  end.

(** *** Sorting ([rowSorter], [SortResults])

    [sort.Sort] and [sort.Strings] leave their argument in non-decreasing
    order.  Both orders used here are total and two elements that compare
    equal are equal, so that arrangement is unique (see
    [sortBy_unique]) and any sorting routine models them. *)

Fixpoint insertBy {A} (less : A -> A -> bool) (x : A) (l : list A) : list A :=
  match l with
  | [] => [x]
  | y :: l' => if less x y then x :: l else y :: insertBy less x l'
  end.

Fixpoint sortBy {A} (less : A -> A -> bool) (l : list A) : list A :=
  match l with
  | [] => []
  | x :: l' => insertBy less x (sortBy less l')
  end.

(** [rowSorter.toRow]: [s.values[i*NumCols : (i+1)*NumCols]]. *)
Definition toRow (ncols : nat) (values : list string) (i : nat) : list string :=
  firstn ncols (skipn (i * ncols) values).

(** [rowSorter.Len]: [len(s.values) / NumCols], for [ncols] not 0. *)
Definition Len (ncols : nat) (values : list string) : nat :=
  Nat.div (List.length values) ncols.

(** [rowSorter.Less] on the two rows: the [for k := range rowI] loop. *)
Fixpoint Less (rowI rowJ : list string) : bool :=
  match rowI, rowJ with
  | a :: rowI', b :: rowJ' =>
      if stringLess a b then true
      else if stringLess b a then false
      else Less rowI' rowJ'
  | _, _ => false
  end.

(** The array after [sort.Sort(rowSorter{record, values})]: [Swap]
    exchanges two whole rows, so the [Len] rows come out in [Less] order and
    the values after the last whole row stay where they are. *)
Definition rowSort (ncols : nat) (values : list string) : list string :=
  let n := Len ncols values in
  concat (sortBy Less (map (toRow ncols values) (seq 0 n)))
    ++ skipn (n * ncols) values.

(** [SortResults] sorts the input slice (the results of this record's
    query) according to the record's specification and returns it.  The
    value is the content of the slice's array after the call: the sort is
    done in place, and the slice returned is the argument itself. *)
Definition SortResults (r : Record) (results : list string)
  : PanicValue + list string :=
  if String.eqb (sortMode r) NoSort then inr results
  else if String.eqb (sortMode r) Rowsort then
    match NumCols r with
    | inl p => inl p
    | inr O => inl DivideByZero
    | inr ncols => inr (rowSort ncols results)
    end
  else if String.eqb (sortMode r) ValueSort then
    inr (sortBy stringLess results)
  else inl (PanicString ("Uncrecognized sort mode " ++ sortMode r)).

(* ------------------------------------------------------------------ *)
(** *** parser/parser.go *)

Definition Separator := "----".
Definition halt := "halt".
(** The directive word [hashThreshold = "hash-threshold"]; the name
    [hashThreshold] itself is the record's field here. *)
Definition hashThresholdWord := "hash-threshold".
Definition skipif := "skipif".
Definition onlyif := "onlyif".
Definition defaultHashThreshold : Z := 8.
Definition hashThresholdUnset : Z := -1.

(** Modelled from the spec: the [LineScanner] type, whose declaration is not
    among the source files ("Line Source: wraps a line-by-line reader,
    exposing the current line text and a monotonically increasing 1-based
    line counter").  [pending] are the lines not yet read, [LineNum] the
    number of lines read so far, [scanErr] what [Err()] reports once the
    lines are exhausted. *)
Record LineScanner := mkLineScanner {
  pending : list string;
  LineNum : Z;
  scanErr : option string
}.

Inductive recordParseState :=
| stateStart
| stateStatement
| stateQuery
| stateResults.

Inductive ParseError :=
| UnexpectedToken (token : string)                (* "unexpected token " + fields[1] *)
| UnhandledStatement (token : string) (line : Z)  (* "Unhandled statement %s on line %d" *)
| ScannerError (e : string).

(** The message of the error. *)
Definition Error (e : ParseError) : string :=
  match e with
  | UnexpectedToken token => "unexpected token " ++ token
  | UnhandledStatement token line =>
      "Unhandled statement " ++ token ++ " on line "
        ++ NilZero.string_of_int (Z.to_int line)
  | ScannerError msg => msg
  end.

(** The local variables of [parseRecord]. *)
Record Locals := mkLocals {
  record : Record;
  state : recordParseState;
  queryBuilder : string
}.

Definition set_record (f : Record -> Record) (p : Locals) : Locals :=
  mkLocals (f (record p)) (state p) (queryBuilder p).
Definition set_state (s : recordParseState) (p : Locals) : Locals :=
  mkLocals (record p) s (queryBuilder p).
Definition WriteString (s : string) (p : Locals) : Locals :=
  mkLocals (record p) (state p) (queryBuilder p ++ s).

(** [record := &Record{hashThreshold: hashThresholdUnset}], [state :=
    stateStart], [queryBuilder := strings.Builder{}]. *)
Definition newRecord : Record :=
  mkRecord Statement false [] "" "" "" 0 [] "" hashThresholdUnset.

Definition initLocals : Locals := mkLocals newRecord stateStart "".

(** How one pass through the body of the [for scanner.Scan()] loop ends. *)
Inductive Step :=
| Continue (p : Locals)
| Return (r : Record)
| ReturnErr (e : ParseError)
| Panic (v : PanicValue).

Definition isBlankLine (line : string) : bool :=
  Nat.eqb (String.length (TrimSpace line)) 0.

(** [if record.lineNum == 0 { record.lineNum = scanner.LineNum }]. *)
Definition noteLineNum (ln : Z) (p : Locals) : Locals :=
  if Z.eqb (lineNum (record p)) 0 then set_record (set_lineNum ln) p else p.

(** [case stateStart], after the blank-line test: [switch fields[0]]. *)
Definition stepStart (ln : Z) (p : Locals) (fields : list string) : Step :=
  match fields with
  | [] => Panic (IndexOutOfRange 0 0)
  | f0 :: rest =>
      if String.eqb f0 halt then
        Return (set_lineNum ln (set_recordType Halt (record p)))
      else if String.eqb f0 skipif || String.eqb f0 onlyif then
        match rest with
        | [] => Panic (IndexOutOfRange 1 1)
        | f1 :: _ =>
            Continue (set_record
              (fun r => set_conditions
                 (conditions r ++
                    [mkCondition (String.eqb f0 onlyif) (String.eqb f0 skipif) f1]) r) p)
        end
      else if String.eqb f0 hashThresholdWord then
        match rest with
        | [] => Panic (IndexOutOfRange 1 1)
        | f1 :: _ => Continue (set_record (set_hashThreshold (fst (Atoi f1))) p)
        end
      else if String.eqb f0 "statement" then
        match rest with
        | [] => Panic (IndexOutOfRange 1 1)
        | f1 :: _ =>
            if String.eqb f1 "ok" then
              Continue (set_state stateStatement
                (set_record (fun r => set_expectError false (set_recordType Statement r)) p))
            else if String.eqb f1 "error" then
              Continue (set_state stateStatement
                (set_record (fun r => set_expectError true (set_recordType Statement r)) p))
            else ReturnErr (UnexpectedToken f1)
        end
      else if String.eqb f0 "query" then
        match rest with
        | [] => Panic (IndexOutOfRange 1 1)
        | f1 :: rest2 =>
            let r1 := set_schema f1 (set_recordType Query (record p)) in
            let r2 := match rest2 with
                      | f2 :: _ => set_sortMode f2 r1      (* len(fields) > 2 *)
                      | [] => r1
                      end in
            let r3 := match rest2 with
                      | _ :: f3 :: _ => set_label f3 r2    (* len(fields) > 3 *)
                      | _ => r2
                      end in
            Continue (set_state stateQuery (set_record (fun _ => r3) p))
        end
      else ReturnErr (UnhandledStatement f0 ln)
  end.

(** [len(fields) == 1 && fields[0] == Separator]. *)
Definition isSeparator (fields : list string) : bool :=
  match fields with
  | [f0] => String.eqb f0 Separator
  | _ => false
  end.

(** The body of the [for scanner.Scan()] loop of [parseRecord] on [line],
    with [ln] the scanner's [LineNum] after the [Scan]. *)
Definition step (ln : Z) (p : Locals) (line : string) : Step :=
  let blank := isBlankLine line in
  let commentsRemoved := commentRegex_ReplaceAll false line in
  if HasPrefix line "#" then Continue p      (* skip lines that are entirely comments *)
  else
    let fields := Fields commentsRemoved in
    match state p with
    | stateStart =>
        if blank then Continue p else stepStart ln p fields
    | stateStatement =>
        if blank then Return (set_query (queryBuilder p) (record p))
        else Continue (WriteString commentsRemoved (noteLineNum ln p))
    | stateQuery =>
        let p1 := noteLineNum ln p in
        if isSeparator fields then
          Continue (WriteString commentsRemoved
            (set_state stateResults
               (set_record (set_query (queryBuilder p1)) p1)))
        else if blank then Return (set_query (queryBuilder p1) (record p1))
        else Continue (WriteString commentsRemoved p1)
    | stateResults =>
        if blank then Return (record p)
        else Continue (set_record
               (fun r => set_result (result r ++ [commentsRemoved]) r) p)
    end.

(** How the [for scanner.Scan()] loop is left. *)
Inductive LoopExit :=
| ScanEnded (p : Locals)        (* [Scan()] returned false *)
| Returned (r : Record)
| ReturnedErr (e : ParseError)
| Panicked (v : PanicValue).

(** The [for scanner.Scan()] loop: each [Scan] takes the next pending line
    and advances [LineNum]. *)
Fixpoint scanLoop (p : Locals) (ln : Z) (lines : list string)
  : LoopExit * (Z * list string) :=
  match lines with
  | [] => (ScanEnded p, (ln, []))
  | line :: rest =>
      match step (ln + 1)%Z p line with
      | Continue p' => scanLoop p' (ln + 1)%Z rest
      | Return r => (Returned r, ((ln + 1)%Z, rest))
      | ReturnErr e => (ReturnedErr e, ((ln + 1)%Z, rest))
      | Panic v => (Panicked v, ((ln + 1)%Z, rest))
      end
  end.

(** The results of [parseRecord]: [(record, nil)], [(nil, io.EOF)],
    [(nil, err)], or a panic. *)
Inductive Parse :=
| GotRecord (r : option Record)
| EOF
| Failed (e : ParseError)
| Crashed (v : PanicValue).

(** What follows the loop in [parseRecord]. *)
Definition afterLoop (p : Locals) (err : option string) : Parse :=
  match err with
  | Some e => Failed (ScannerError e)
  | None =>
      if Z.eqb (lineNum (record p)) 0 then EOF
      else
        match state p with
        | stateStatement => GotRecord (Some (set_query (queryBuilder p) (record p)))
        | _ => GotRecord (Some (record p))
        end
  end.

(** [parseRecord]: the result, and the scanner as the call leaves it. *)
Definition parseRecord (scanner : LineScanner) : Parse * LineScanner :=
  let '(exit, (ln, rest)) := scanLoop initLocals (LineNum scanner) (pending scanner) in
  let scanner' := mkLineScanner rest ln (scanErr scanner) in
  match exit with
  | ScanEnded p => (afterLoop p (scanErr scanner), scanner')
  | Returned r => (GotRecord (Some r), scanner')
  | ReturnedErr e => (Failed e, scanner')
  | Panicked v => (Crashed v, scanner')
  end.

(** What [ParseTestFile] does to a record just parsed. *)
Definition inheritThreshold (prevRecord : option Record) (r : Record) : Record :=
  if Z.eqb (hashThreshold r) hashThresholdUnset then
    match prevRecord with
    | Some prev => set_hashThreshold (hashThreshold prev) r
    | None => set_hashThreshold defaultHashThreshold r
    end
  else r.

Inductive ParseResult :=
| Parsed (records : list Record)
| ParseFailed (e : ParseError)
| ParseCrashed (v : PanicValue).

(** The [for { ... }] loop of [ParseTestFile]; [fuel] bounds the number of
    [parseRecord] calls (one more than the number of lines pending always
    suffices, see [parseFile_parseLines]). *)
Fixpoint parseFile (fuel : nat) (scanner : LineScanner)
    (prevRecord : option Record) (records : list Record) : option ParseResult :=
  match fuel with
  | O => None
  | S fuel' =>
      match parseRecord scanner with
      | (EOF, _) => Some (Parsed records)
      | (Failed e, _) => Some (ParseFailed e)
      | (Crashed v, _) => Some (ParseCrashed v)
      | (GotRecord None, scanner') => parseFile fuel' scanner' prevRecord records
      | (GotRecord (Some r), scanner') =>
          let r' := inheritThreshold prevRecord r in
          parseFile fuel' scanner' (Some r') (records ++ [r'])
      end
  end.

(** [ParseTestFile] on an opened file whose lines are [lines] and whose
    scanner ends with [err]. *)
Definition ParseTestFile (lines : list string) (err : option string)
  : option ParseResult :=
  parseFile (S (List.length lines)) (mkLineScanner lines 0 err) None [].

End parser.

(* ================================================================== *)
(** ** go/logictest/runner.go *)

Module logictest.
Import Go parser.

(** What a call into the backend comes to: it returns, or it panics. *)
Inductive Reply (H A : Type) :=
| Replied (a : A) (h : H)
| Raised (v : PanicValue) (h : H).
Arguments Replied {H A} a h.
Arguments Raised {H A} v h.

(** Modelled from the spec: the [Harness] interface, declared in a file
    that is not among the sources ("identifier() -> string", "init() ->
    error", "executeStatement(text string) -> error", "executeQuery(text
    string) -> (schemaTags string, flatValues []string, error)").  [H] is
    the state of the backend; an error is its message. *)
Record Harness (H : Type) := mkHarness {
  EngineStr : H -> string;
  Init : H -> Reply H (option string);
  ExecuteStatement : string -> H -> Reply H (option string);
  ExecuteQuery : string -> H -> Reply H (string * list string * option string)
}.
Arguments mkHarness {H} _ _ _ _.
Arguments EngineStr {H} _ _.
Arguments Init {H} _ _.
Arguments ExecuteStatement {H} _ _ _.
Arguments ExecuteQuery {H} _ _ _.

(** The message of a [logFailure] call. *)
Inductive Failure :=
| CaughtPanic (v : PanicValue)                  (* "Caught panic: %v" *)
| ExpectedError                                 (* "Expected error but didn't get one" *)
| UnexpectedError (err : string)                (* "Unexpected error %v" *)
| IncorrectNumber (expected got : Z)            (* "Incorrect number of results. Expected %v, got %v" *)
| IncorrectResult (position : nat) (expected got : string)
                                                (* "Incorrect result at position %d. ..." *)
| HashesDiffer (expected got : string)          (* "Hash of results differ. ..." *)
| SchemasDiffer (expected got : string).        (* "Schemas differ. Expected %s, got %s" *)

Inductive Outcome :=
| Ok                   (* logSuccess: "ok" *)
| Skipped              (* logSkip: "skipped" *)
| NotOk (f : Failure). (* logFailure: "not ok: ..." *)

(** One printed line: [logMessagePrefix] gives the line number and the
    query of [currRecord] (the time stamp and the file path are left out,
    and the query is kept whole, as without SQLLOGICTEST_TRUNCATE_QUERIES). *)
Record LogLine := mkLogLine {
  atLine : Z;
  ofQuery : string;
  outcome : Outcome
}.

Inductive BackendCall :=
| CallStatement (text : string)
| CallQuery (text : string).

(** Everything the runner reads and writes.  [currRecord] is the record the
    package variable of that name points to ([None] for nil); [observed] is
    the array behind the slice the last [ExecuteQuery] returned, which
    [results] denotes in [verifyResults], [verifyRows] and [verifyHash];
    [stdout] is what has been printed; [calls] lists the [Execute...] calls
    made so far (no code reads it). *)
Record World (H : Type) := mkWorld {
  backend : H;
  currRecord : option Record;
  observed : list string;
  stdout : list LogLine;
  calls : list BackendCall
}.
Arguments mkWorld {H} _ _ _ _ _.
Arguments backend {H} _.
Arguments currRecord {H} _.
Arguments observed {H} _.
Arguments stdout {H} _.
Arguments calls {H} _.

(** A computation over the world that returns or panics. *)
Inductive Res (H A : Type) :=
| Done (a : A) (w : World H)
| Panicking (v : PanicValue) (w : World H).
Arguments Done {H A} a w.
Arguments Panicking {H A} v w.

Definition M (H A : Type) := World H -> Res H A.

Definition ret {H A} (a : A) : M H A := fun w => Done a w.

Definition bind {H A B} (c : M H A) (k : A -> M H B) : M H B :=
  fun w => match c w with
           | Done a w' => k a w'
           | Panicking v w' => Panicking v w'
           end.

Notation "x <- c ;; k" := (bind c (fun x => k))
  (at level 61, c at next level, right associativity).
Notation "c ;;; k" := (bind c (fun _ => k))
  (at level 61, right associativity).

Definition panic {H A} (v : PanicValue) : M H A := fun w => Panicking v w.

Definition orPanic {H A} (x : PanicValue + A) : M H A :=
  match x with
  | inl v => panic v
  | inr a => ret a
  end.

Definition getObserved {H} : M H (list string) := fun w => Done (observed w) w.

Definition setObserved {H} (vs : list string) : M H unit :=
  fun w => Done tt (mkWorld (backend w) (currRecord w) vs (stdout w) (calls w)).

Definition setCurrRecord {H} (r : Record) : M H unit :=
  fun w => Done tt (mkWorld (backend w) (Some r) (observed w) (stdout w) (calls w)).

Definition NilDereference : PanicValue :=
  PanicString "invalid memory address or nil pointer dereference".

(** [fmt.Println(logMessagePrefix(), ...)]. *)
Definition println {H} (o : Outcome) : M H unit :=
  fun w =>
    match currRecord w with
    | None => Panicking NilDereference w
    | Some r =>
        Done tt (mkWorld (backend w) (currRecord w) (observed w)
                   (stdout w ++ [mkLogLine (lineNum r) (query r) o]) (calls w))
    end.

Definition logFailure {H} (f : Failure) : M H unit := println (NotOk f).
Definition logSkip {H} : M H unit := println Skipped.
Definition logSuccess {H} : M H unit := println Ok.

Definition callBackend {H A} (c : BackendCall) (f : H -> Reply H A) : M H A :=
  fun w =>
    match f (backend w) with
    | Replied a h =>
        Done a (mkWorld h (currRecord w) (observed w) (stdout w) (calls w ++ [c]))
    | Raised v h =>
        Panicking v (mkWorld h (currRecord w) (observed w) (stdout w) (calls w ++ [c]))
    end.

Definition engineStr {H} (harness : Harness H) : M H string :=
  fun w => Done (EngineStr harness (backend w)) w.

(** [hashResults]: MD5 over each result followed by a newline, in hex.
    [h.Write] of an MD5 hash never fails, so there is no error to return. *)
Definition hashResults (results : list string) : string :=
  hexString (md5.Sum (concat (map (fun r => (bytesOf r ++ [10%Z])%list) results))).

(** [verifySchema]: whether the schema given matches the record's expected
    schema, logging an error if not. *)
Definition verifySchema {H} (record : Record) (schemaStr : string) : M H bool :=
  if negb (String.eqb schemaStr (schema record)) then
    special <-
      (if Nat.eqb (String.length schemaStr) (String.length (schema record)) then
         n <- orPanic (NumResults record) ;;
         ret (Z.eqb n 0 && allIs_MatchString (schema record)
                && isAndRs_MatchString schemaStr)
       else ret false) ;;
    if (special : bool) then ret true
    else logFailure (SchemasDiffer (schema record) schemaStr) ;;; ret false
  else ret true.

(** The [for i := range record.Result()] loop of [verifyRows]: [Some] of
    the failure logged at the first differing position, or a panic when
    [results] is too short. *)
Fixpoint compareRows (i : nat) (expected results : list string)
  : PanicValue + option Failure :=
  match expected with
  | [] => inr None
  | e :: expected' =>
      match results with
      | [] => inl (IndexOutOfRange i i)
      | v :: results' =>
          if negb (String.eqb e v) then inr (Some (IncorrectResult i e v))
          else compareRows (S i) expected' results'
      end
  end.

(** [results = record.SortResults(results)]: the array is sorted in place. *)
Definition sortObserved {H} (record : Record) : M H unit :=
  vs <- getObserved ;;
  sorted <- orPanic (SortResults record vs) ;;
  setObserved sorted.

Definition verifyRows {H} (record : Record) : M H unit :=
  sortObserved record ;;;
  vs <- getObserved ;;
  diff <- orPanic (compareRows 0 (result record) vs) ;;
  match diff with
  | Some f => logFailure f
  | None => logSuccess
  end.

Definition verifyHash {H} (record : Record) : M H unit :=
  sortObserved record ;;;
  vs <- getObserved ;;
  let computedHash := hashResults vs in
  expected <- orPanic (HashResult record) ;;
  if negb (String.eqb expected computedHash)
  then logFailure (HashesDiffer expected computedHash)
  else logSuccess.

Definition verifyResults {H} (record : Record) : M H unit :=
  vs <- getObserved ;;
  n <- orPanic (NumResults record) ;;
  if negb (Z.eqb (Z.of_nat (List.length vs)) n) then
    logFailure (IncorrectNumber n (Z.of_nat (List.length vs)))
  else if IsHashResult record then verifyHash record
  else verifyRows record.

(** The four results of [executeRecord]. *)
Record Executed := mkExecuted {
  schemaOut : string;
  resultsOut : list string;
  cont : bool;
  errOut : option string
}.

(** [executeRecord] up to its deferred function. *)
Definition executeBody {H} (harness : Harness H) (record : Record) : M H Executed :=
  setCurrRecord record ;;;
  eng <- engineStr harness ;;
  if negb (ShouldExecuteForEngine record eng) then
    (* Log a skip for queries and statements only, not other control records *)
    (match recordType record with
     | Query | Statement => logSkip
     | Halt => ret tt
     end) ;;;
    ret (mkExecuted "" [] false None)
  else
    match recordType record with
    | Statement =>
        err <- callBackend (CallStatement (query record))
                 (ExecuteStatement harness (query record)) ;;
        match expectError record, err with
        | true, None =>
            logFailure ExpectedError ;;; ret (mkExecuted "" [] true None)
        | false, Some e =>
            logFailure (UnexpectedError e) ;;; ret (mkExecuted "" [] true (Some e))
        | _, _ => logSuccess ;;; ret (mkExecuted "" [] true None)
        end
    | Query =>
        reply <- callBackend (CallQuery (query record))
                   (ExecuteQuery harness (query record)) ;;
        let '(schemaStr, results, err) := reply in
        match err with
        | Some e =>
            logFailure (UnexpectedError e) ;;; ret (mkExecuted "" [] true (Some e))
        | None =>
            setObserved results ;;;
            (* Only log one error per record, so if schema comparison fails
               don't bother with result comparison *)
            matches <- verifySchema record schemaStr ;;
            (if (matches : bool) then verifyResults record else ret tt) ;;;
            vs <- getObserved ;;
            ret (mkExecuted schemaStr vs true None)
        end
    | Halt => ret (mkExecuted "" [] false None)
    end.

(** [executeRecord] executes a single record and returns whether
    execution of records should continue.  The deferred function recovers
    a panic, logs it and sets [cont = true]; the other results are then
    still their zero values. *)
Definition executeRecord {H} (harness : Harness H) (record : Record) : M H Executed :=
  fun w =>
    match executeBody harness record w with
    | Done x w' => Done x w'
    | Panicking v w' =>
        (logFailure (CaughtPanic v) ;;; ret (mkExecuted "" [] true None)) w'
    end.

(** The [for _, record := range testRecords] loop of [runTestFile]. *)
Fixpoint runRecords {H} (harness : Harness H) (testRecords : list Record) : M H unit :=
  match testRecords with
  | [] => ret tt
  | record :: rest =>
      x <- executeRecord harness record ;;
      if negb (cont x) then ret tt      (* break *)
      else runRecords harness rest
  end.

(** [runTestFile] on a file with the given lines: [harness.Init()], then
    [ParseTestFile], each with [panic(err)] on an error, then the loop. *)
Definition runTestFile {H} (harness : Harness H) (lines : list string)
    (scanErr : option string) : M H unit :=
  err <- (fun w =>
            match Init harness (backend w) with
            | Replied a h =>
                Done a (mkWorld h (currRecord w) (observed w) (stdout w) (calls w))
            | Raised v h =>
                Panicking v (mkWorld h (currRecord w) (observed w) (stdout w) (calls w))
            end) ;;
  match err with
  | Some e => panic (PanicString e)
  | None =>
      match ParseTestFile lines scanErr with
      | Some (Parsed testRecords) => runRecords harness testRecords
      | Some (ParseFailed e) => panic (PanicString (Error e))
      | Some (ParseCrashed v) => panic v
      | None => panic (PanicString "unreachable")   (* see [ParseTestFile_total] *)
      end
  end.

(** *** Writing a test file again ([GenerateTestFiles])

    The [bufio.Writer] is the list of the strings handed to [writeLine],
    oldest first; the file gets each of them followed by a newline.  Its
    [WriteString] fails only when the file cannot be written, which is
    left out. *)
Definition Writer := list string.

Definition writeLine (wr : Writer) (s : string) : Writer := (wr ++ [s])%list.

(** Modelled from the spec: [Scan] of the [LineScanner] ("exposing the
    current line text and a monotonically increasing 1-based line
    counter"): the next line, which [Text()] then returns, and the scanner
    after it; [None] when no line is left. *)
Definition Scan (scanner : LineScanner) : option (string * LineScanner) :=
  match pending scanner with
  | [] => None
  | line :: rest =>
      Some (line, mkLineScanner rest (LineNum scanner + 1) (scanErr scanner))
  end.

(** The [for scanner.Scan()] loops below go through the pending lines;
    each is written as a recursion on them, with the line count and the
    writer carried along, and wrapped into a function on the scanner. *)
Fixpoint copyRestOfFile_loop (lines : list string) (ln : Z) (wr : Writer)
  : list string * Z * Writer :=
  match lines with
  | [] => ([], ln, wr)
  | line :: rest => copyRestOfFile_loop rest (ln + 1) (writeLine wr line)
  end.

Definition onScanner (loop : list string -> Z -> Writer -> list string * Z * Writer)
    (scanner : LineScanner) (wr : Writer) : LineScanner * Writer :=
  let '(rest, ln, wr') := loop (pending scanner) (LineNum scanner) wr in
  (mkLineScanner rest ln (scanErr scanner), wr').

Definition copyRestOfFile : LineScanner -> Writer -> LineScanner * Writer :=
  onScanner copyRestOfFile_loop.

(** [fmt.Sprintf("%d", n)] for a length. *)
Definition Sprintf_d (n : nat) : string := NilZero.string_of_uint (Nat.to_uint n).

(** [writeResults]: the hash of the results when there are more of them
    than the record's hash threshold, the results themselves otherwise
    ([hashResults] returns no error). *)
Definition writeResults (record : Record) (results : list string) (wr : Writer)
  : Writer :=
  if (hashThreshold record <? Z.of_nat (List.length results))%Z then
    writeLine wr (Sprintf_d (List.length results) ++ " values hashing to "
                    ++ hashResults results)
  else fold_left writeLine results wr.

Fixpoint copyUntilSeparator_loop (lines : list string) (ln : Z) (wr : Writer)
  : list string * Z * Writer :=
  match lines with
  | [] => ([], ln, wr)
  | line :: rest =>
      let wr' := writeLine wr line in
      if String.eqb (TrimSpace line) Separator then (rest, (ln + 1)%Z, wr')   (* break *)
      else copyUntilSeparator_loop rest (ln + 1) wr'
  end.

Definition copyUntilSeparator : LineScanner -> Writer -> LineScanner * Writer :=
  onScanner copyUntilSeparator_loop.

Fixpoint copyUntilEndOfRecord_loop (lines : list string) (ln : Z) (wr : Writer)
  : list string * Z * Writer :=
  match lines with
  | [] => ([], ln, wr)
  | line :: rest =>
      let wr' := writeLine wr line in
      if String.eqb (TrimSpace line) "" then (rest, (ln + 1)%Z, wr')   (* break *)
      else copyUntilEndOfRecord_loop rest (ln + 1) wr'
  end.

Definition copyUntilEndOfRecord : LineScanner -> Writer -> LineScanner * Writer :=
  onScanner copyUntilEndOfRecord_loop.

Fixpoint skipUntilEndOfRecord_loop (lines : list string) (ln : Z) (wr : Writer)
  : list string * Z * Writer :=
  match lines with
  | [] => ([], ln, wr)
  | line :: rest =>
      if String.eqb (TrimSpace line) "" then (rest, (ln + 1)%Z, writeLine wr "")  (* break *)
      else skipUntilEndOfRecord_loop rest (ln + 1) wr
  end.

Definition skipUntilEndOfRecord : LineScanner -> Writer -> LineScanner * Writer :=
  onScanner skipUntilEndOfRecord_loop.

(** [truncateQuery], with the value of [TruncateQueriesInLog] (whether
    SQLLOGICTEST_TRUNCATE_QUERIES is set in the environment). *)
Definition truncateQuery (TruncateQueriesInLog : bool) (query : string) : string :=
  if TruncateQueriesInLog && Nat.ltb 50 (String.length query)
  then substring 0 47 query ++ "..."
  else query.

(** The loop [for scanner.Scan() && scanner.LineNum < record.LineNum() - 1]
    of [generateTestFile], which writes the lines it reads.  The line it
    stops at has been read and not written; it is what [scanner.Text()]
    gives after the loop, the fourth component here (the empty string when
    no line was left to read: [Text] of a [bufio.Scanner] that has reached
    the end is empty). *)
Fixpoint copyToRecord_loop (recordLine : Z) (lines : list string) (ln : Z) (wr : Writer)
  : list string * Z * Writer * string :=
  match lines with
  | [] => ([], ln, wr, "")
  | line :: rest =>
      if (ln + 1 <? recordLine - 1)%Z
      then copyToRecord_loop recordLine rest (ln + 1) (writeLine wr line)
      else (rest, (ln + 1)%Z, wr, line)
  end.

Definition copyToRecord (record : Record) (scanner : LineScanner) (wr : Writer)
  : LineScanner * Writer * string :=
  let '(rest, ln, wr', text) :=
    copyToRecord_loop (lineNum record) (pending scanner) (LineNum scanner) wr in
  (mkLineScanner rest ln (scanErr scanner), wr', text).

Definition isSome {A} (x : option A) : bool :=
  match x with
  | Some _ => true
  | None => false
  end.

(** The [for _, record := range testRecords] loop of [generateTestFile]
    and the [copyRestOfFile] behind it; the value is what has been written
    when the function returns. *)
Fixpoint generateRecords {H} (harness : Harness H) (testRecords : list Record)
    (scanner : LineScanner) (wr : Writer) : M H Writer :=
  match testRecords with
  | [] => ret (snd (copyRestOfFile scanner wr))
  | record :: rest =>
      x <- executeRecord harness record ;;
      eng <- engineStr harness ;;
      (* If there was an error or we skipped this test, then just copy
         output until the next record. *)
      if isSome (errOut x) || negb (ShouldExecuteForEngine record eng) then
        let '(scanner', wr') := copyUntilEndOfRecord scanner wr in
        generateRecords harness rest scanner' wr'
      else
        match recordType record with
        | Halt => ret (snd (copyRestOfFile scanner wr))     (* return *)
        | Statement =>
            (* Copy statements directly *)
            let '(scanner', wr', text) := copyToRecord record scanner wr in
            generateRecords harness rest scanner' (writeLine wr' text)
        | Query =>
            (* Fill in the actual query result schema *)
            let '(scanner1, wr1, _) := copyToRecord record scanner wr in
            let labelStr :=
              if negb (String.eqb (label record) "") then " " ++ label record else "" in
            let wr2 :=
              writeLine wr1
                ("query " ++ schemaOut x ++ " " ++ sortMode record ++ labelStr) in
            let '(scanner3, wr3) := copyUntilSeparator scanner1 wr2 in
            let wr4 := writeResults record (resultsOut x) wr3 in
            let '(scanner5, wr5) := skipUntilEndOfRecord scanner3 wr4 in
            generateRecords harness rest scanner5 wr5
        end
  end.

End logictest.

(* ================================================================== *)
(** * Notions the properties are stated with *)

Import Go parser logictest.

(** The lines of [parser/testdata/select1.test]. *)
Definition select1_test : list string :=
  ["statement ok";
   "CREATE TABLE t1(a INTEGER, b INTEGER, c INTEGER, d INTEGER, e INTEGER)";
   "";
   "statement ok";
   "INSERT INTO t1(e,c,b,d,a) VALUES(103,102,100,101,104)";
   "";
   "statement error # a comment about this error";
   "INSERT INTO t1(a,c,d,e,b) VALUES(107,106,108,109,105)";
   "";
   "# you wouldn't see this in a real test file, but naked halts can be inserted for debugging";
   "halt";
   "";
   "query I nosort";
   "SELECT CASE WHEN c>(SELECT avg(c) FROM t1) THEN a*2 ELSE b*10 END";
   "  FROM t1";
   " ORDER BY 1";
   "----";
   "30 values hashing to 3c13dee48d9356ae19af2515e05e6b54";
   "";
   "hash-threshold 16";
   "";
   "# A long comment";
   "# That goes on multiple lines";
   "";
   "# Followed by another one";
   "# With a blank line in between";
   "";
   "query II nosort label-1";
   "SELECT a+b*2+c*3+d*4+e*5,";
   "       (a+b+c+d+e)/5";
   "  FROM t1";
   " ORDER BY 1,2";
   "----";
   "60 values hashing to 808146289313018fce25f1a280bd8c30";
   "";
   "onlyif mysql # tests below here won't work on mysql";
   "halt";
   "";
   "onlyif mysql # Comment";
   "query IIIII rowsort";
   "SELECT a+b*2+c*3+d*4+e*5,";
   "       CASE WHEN a<b-3 THEN 111 WHEN a<=b THEN 222";
   "        WHEN a<b+3 THEN 333 ELSE 444 END,";
   "       abs(b-c),";
   "       (a+b+c+d+e)/5,";
   "       a+b*2+c*3";
   "  FROM t1";
   " WHERE (e>c OR e<d)";
   "   AND d>e";
   "   AND EXISTS(SELECT 1 FROM t1 AS x WHERE x.b<t1.b)";
   " ORDER BY 4,2,1,3,5";
   "----";
   "1";
   "2";
   "3";
   "4";
   "5";
   "";
   "# This is a comment";
   "skipif mssql";
   "query II nosort  # This is a comment";
   "SELECT a-b,";
   "       CASE WHEN a<b-3 THEN 111 WHEN a<=b THEN 222";
   "        WHEN a<b+3 THEN 333 ELSE 444 END";
   "  FROM t1";
   " WHERE c>d";
   "   AND b>c";
   " ORDER BY 2,1";
   "----";
   "-3";
   "222";
   "-3";
   "222";
   "-1";
   "222";
   "-1";
   "222";
   "";
   "statement ok";
   "CREATE TABLE t1(";
   "  a1 INTEGER,";
   "  b1 INTEGER,";
   "  c1 INTEGER,";
   "  d1 INTEGER,";
   "  e1 INTEGER,";
   "  x1 VARCHAR(30)";
   ")";
   "";
   "query TTTT valuesort join-4-1";
   "SELECT x29,x31,x51,x55";
   "  FROM t51,t29,t31,t55";
   "  WHERE a51=b31";
   "    AND a29=6";
   "    AND a29=b51";
   "    AND b55=a31";
   "----";
   "table t29 row 6";
   "table t31 row 9";
   "table t51 row 5";
   "table t55 row 4";
   "";
   "skipif mysql # empty RHS";
   "skipif mssql # empty RHS";
   "skipif oracle # empty RHS";
   "query I nosort";
   "SELECT 1 FROM t1 WHERE 1.0 IN ()";
   "----";
   "";
   "## Trailing comment";
   "## At end of file";
   "";
   "# More trailing comments";
   "# Even more";
   "";
   "# And more"].

(** The records [TestParseFile] expects for it. *)
Definition select1_records : list Record :=
  [mkRecord Statement false [] "" ""
     "CREATE TABLE t1(a INTEGER, b INTEGER, c INTEGER, d INTEGER, e INTEGER)"
     2 [] "" 8;
   mkRecord Statement false [] "" ""
     "INSERT INTO t1(e,c,b,d,a) VALUES(103,102,100,101,104)"
     5 [] "" 8;
   mkRecord Statement true [] "" ""
     "INSERT INTO t1(a,c,d,e,b) VALUES(107,106,108,109,105)"
     8 [] "" 8;
   mkRecord Halt false [] "" ""
     ""
     11 [] "" 8;
   mkRecord Query false [] "I" "nosort"
     "SELECT CASE WHEN c>(SELECT avg(c) FROM t1) THEN a*2 ELSE b*10 END  FROM t1 ORDER BY 1"
     14 ["30 values hashing to 3c13dee48d9356ae19af2515e05e6b54"] "" 8;
   mkRecord Query false [] "II" "nosort"
     "SELECT a+b*2+c*3+d*4+e*5,       (a+b+c+d+e)/5  FROM t1 ORDER BY 1,2"
     29 ["60 values hashing to 808146289313018fce25f1a280bd8c30"] "label-1" 16;
   mkRecord Halt false [mkCondition true false "mysql"] "" ""
     ""
     37 [] "" 16;
   mkRecord Query false [mkCondition true false "mysql"] "IIIII" "rowsort"
     "SELECT a+b*2+c*3+d*4+e*5,       CASE WHEN a<b-3 THEN 111 WHEN a<=b THEN 222        WHEN a<b+3 THEN 333 ELSE 444 END,       abs(b-c),       (a+b+c+d+e)/5,       a+b*2+c*3  FROM t1 WHERE (e>c OR e<d)   AND d>e   AND EXISTS(SELECT 1 FROM t1 AS x WHERE x.b<t1.b) ORDER BY 4,2,1,3,5"
     41 ["1"; "2"; "3"; "4"; "5"] "" 16;
   mkRecord Query false [mkCondition false true "mssql"] "II" "nosort"
     "SELECT a-b,       CASE WHEN a<b-3 THEN 111 WHEN a<=b THEN 222        WHEN a<b+3 THEN 333 ELSE 444 END  FROM t1 WHERE c>d   AND b>c ORDER BY 2,1"
     62 ["-3"; "222"; "-3"; "222"; "-1"; "222"; "-1"; "222"] "" 16;
   mkRecord Statement false [] "" ""
     "CREATE TABLE t1(  a1 INTEGER,  b1 INTEGER,  c1 INTEGER,  d1 INTEGER,  e1 INTEGER,  x1 VARCHAR(30))"
     80 [] "" 16;
   mkRecord Query false [] "TTTT" "valuesort"
     "SELECT x29,x31,x51,x55  FROM t51,t29,t31,t55  WHERE a51=b31    AND a29=6    AND a29=b51    AND b55=a31"
     90 ["table t29 row 6"; "table t31 row 9"; "table t51 row 5"; "table t55 row 4"] "join-4-1" 16;
   mkRecord Query false [mkCondition false true "mysql"; mkCondition false true "mssql"; mkCondition false true "oracle"] "I" "nosort"
     "SELECT 1 FROM t1 WHERE 1.0 IN ()"
     106 [] "" 16].

(** The first byte of [line] that is not white space is [#]. *)
Definition firstNonSpaceIsHash (line : string) : bool :=
  HasPrefix (trimLeftSpace 0 line) "#".

Definition inBody (p : Locals) : bool :=
  match state p with
  | stateStart => false
  | _ => true
  end.

Definition knownSortMode (m : SortMode) : bool :=
  String.eqb m NoSort || String.eqb m Rowsort || String.eqb m ValueSort.

(** [ParseTestFile] written as a single pass over the lines: the locals of
    [parseRecord] are reset after every record returned, and [prevRecord]
    and [records] are carried along.  [parseFile_parseLines] shows that
    this is what the nested loops compute. *)
Fixpoint parseLines (p : Locals) (ln : Z) (prevRecord : option Record)
    (records : list Record) (lines : list string) (err : option string)
  : ParseResult :=
  match lines with
  | [] =>
      match afterLoop p err with
      | GotRecord (Some r) => Parsed (records ++ [inheritThreshold prevRecord r])
      | GotRecord None => Parsed records
      | EOF => Parsed records
      | Failed e => ParseFailed e
      | Crashed v => ParseCrashed v
      end
  | line :: rest =>
      match step (ln + 1) p line with
      | Continue p' => parseLines p' (ln + 1) prevRecord records rest err
      | Return r =>
          let r' := inheritThreshold prevRecord r in
          parseLines initLocals (ln + 1) (Some r') (records ++ [r']) rest err
      | ReturnErr e => ParseFailed e
      | Panic v => ParseCrashed v
      end
  end.

(** The fields of [line] when the parser, with locals [p], reads the line
    as a directive: it is at the start of a record, and the line is
    neither a comment nor blank. *)
Definition directiveFields (p : Locals) (line : string) : list string :=
  if inBody p || HasPrefix line "#" || isBlankLine line then []
  else Fields (commentRegex_ReplaceAll false line).

(** The value of the [hash-threshold] directive that [line] is. *)
Definition thresholdDirective (p : Locals) (line : string) : option Z :=
  match directiveFields p line with
  | f0 :: f1 :: _ =>
      if String.eqb f0 hashThresholdWord then Some (fst (Atoi f1)) else None
  | _ => None
  end.

(** [line] is a [statement] or [query] directive. *)
Definition recordDirective (p : Locals) (line : string) : bool :=
  match directiveFields p line with
  | f0 :: _ => String.eqb f0 "statement" || String.eqb f0 "query"
  | [] => false
  end.

(** [line] is a [halt] directive. *)
Definition haltDirective (p : Locals) (line : string) : bool :=
  match directiveFields p line with
  | f0 :: _ => String.eqb f0 halt
  | [] => false
  end.

(** The hash thresholds in force at the records of a file, in order:
    [current] is the value of the most recent [hash-threshold] directive
    (8 before the first), [previous] the threshold of the record before.
    With [sentinel] set, a directive whose value is [hashThresholdUnset]
    puts the previous record's threshold back in force instead of its own
    value. *)
Fixpoint thresholdsInForce (sentinel : bool) (current previous : Z)
    (p : Locals) (ln : Z) (lines : list string) : list Z :=
  match lines with
  | [] =>
      match afterLoop p None with
      | GotRecord (Some _) => [current]
      | _ => []
      end
  | line :: rest =>
      let current' :=
        match thresholdDirective p line with
        | Some v => if sentinel && Z.eqb v hashThresholdUnset then previous else v
        | None => current
        end in
      match step (ln + 1) p line with
      | Continue p' => thresholdsInForce sentinel current' previous p' (ln + 1) rest
      | Return _ =>
          current' :: thresholdsInForce sentinel current' current' initLocals (ln + 1) rest
      | _ => []
      end
  end.

(** The number of [statement] and [query] directives of a file; with
    [untilHalt], of those before its first [halt] directive. *)
Fixpoint recordDirectives (untilHalt : bool) (p : Locals) (ln : Z)
    (lines : list string) : nat :=
  match lines with
  | [] => 0
  | line :: rest =>
      if untilHalt && haltDirective p line then 0
      else
        (if recordDirective p line then 1 else 0) +
        match step (ln + 1) p line with
        | Continue p' => recordDirectives untilHalt p' (ln + 1) rest
        | Return _ => recordDirectives untilHalt initLocals (ln + 1) rest
        | _ => 0
        end
  end.

(** 1 when the input ends after a [statement] or [query] directive with no
    line of its body read (comments apart): that record is not returned. *)
Fixpoint droppedAtEnd (p : Locals) (ln : Z) (lines : list string) : nat :=
  match lines with
  | [] => if inBody p && Z.eqb (lineNum (record p)) 0 then 1 else 0
  | line :: rest =>
      match step (ln + 1) p line with
      | Continue p' => droppedAtEnd p' (ln + 1) rest
      | Return _ => droppedAtEnd initLocals (ln + 1) rest
      | _ => 0
      end
  end.

Definition isHalt (r : Record) : bool :=
  match recordType r with
  | Halt => true
  | _ => false
  end.

(** The number of records other than Halt records. *)
Definition nonHalt (records : list Record) : nat :=
  List.length (filter (fun r => negb (isHalt r)) records).

(** The threshold a record inherits when it sets none. *)
Definition thresholdOf (prevRecord : option Record) : Z :=
  match prevRecord with
  | Some prev => hashThreshold prev
  | None => defaultHashThreshold
  end.

(** The threshold the record under construction will end up with. *)
Definition pendingThreshold (p : Locals) (inherited : Z) : Z :=
  if Z.eqb (hashThreshold (record p)) hashThresholdUnset then inherited
  else hashThreshold (record p).

(** The values of the [hash-threshold] directives of a file, in order. *)
Fixpoint thresholdDirectives (p : Locals) (ln : Z) (lines : list string) : list Z :=
  match lines with
  | [] => []
  | line :: rest =>
      (match thresholdDirective p line with
       | Some v => [v]
       | None => []
       end ++
       match step (ln + 1) p line with
       | Continue p' => thresholdDirectives p' (ln + 1) rest
       | Return _ => thresholdDirectives initLocals (ln + 1) rest
       | _ => []
       end)%list
  end.

(** Every byte of [s] is one of [tags]. *)
Definition onlyTags (tags : list ascii) (s : string) : Prop :=
  forall c, In c (list_ascii_of_string s) -> In c tags.

(** The observed schema is the record's, or the record expects no value,
    has integer columns only, and the observed schema has as many columns,
    integer or real. *)
Definition schemaAccepted (record : Record) (schemaStr : string) : Prop :=
  schemaStr = schema record \/
  (NumResults record = inr 0%Z /\
   onlyTags ["I"%char] (schema record) /\
   onlyTags ["I"%char; "R"%char] schemaStr /\
   String.length schemaStr = String.length (schema record)).

Definition logged {H} (w : World H) (line : LogLine) : World H :=
  mkWorld (backend w) (currRecord w) (observed w) (stdout w ++ [line]) (calls w).

Definition lineOf (record : Record) (o : Outcome) : LogLine :=
  mkLogLine (lineNum record) (query record) o.

(** The test [verifySchema] makes, as a boolean. *)
Definition specialCase (record : Record) (schemaStr : string) (n : Z) : bool :=
  Z.eqb n 0 && allIs_MatchString (schema record) && isAndRs_MatchString schemaStr.

(** The world once [ExecuteQuery] has returned [values] for [record]. *)
Definition afterQuery {H} (w : World H) (record : Record) (h' : H)
    (values : list string) : World H :=
  mkWorld h' (Some record) values (stdout w) (calls w ++ [CallQuery (query record)]).

(** A backend that answers every query with the schema and the values
    given, and keeps the texts it was sent. *)
Definition fixedBackend (eng schemaStr : string) (values : list string)
  : Harness (list string) :=
  mkHarness (fun _ => eng) (fun h => Replied None h)
    (fun text h => Replied None (h ++ [text])%list)
    (fun text h => Replied (schemaStr, values, None) (h ++ [text])%list).

Definition freshWorld : World (list string) := mkWorld [] None [] [] [].

(** The world after [executeRecord] has passed over a record: the record
    is the current one, and a skip is printed for it unless it is a Halt
    record; the backend, its calls and the observed values are untouched. *)
Definition passedOver {H} (w : World H) (record : Record) : World H :=
  mkWorld (backend w) (Some record) (observed w)
    (stdout w ++ (if isHalt record then [] else [lineOf record Skipped]))
    (calls w).

Definition skipMysql (text : string) (line : Z) : Record :=
  mkRecord Statement false [mkCondition false true "mysql"] "" "" text line [] "" 8.

(** The world a computation ends in, returned or panicked. *)
Definition worldOf {H A} (r : Res H A) : World H :=
  match r with
  | Done _ w => w
  | Panicking _ w => w
  end.

(** [w'] differs from [w] in what has been printed at most. *)
Definition onlyPrinted {H} (w w' : World H) : Prop :=
  backend w' = backend w /\ currRecord w' = currRecord w /\
  observed w' = observed w /\ calls w' = calls w.

(** The world that [verifyRows] and [verifyHash] end in: the record and
    the backend as before, the observed array either untouched or sorted
    in place. *)
Definition sortedInPlace {H} (record : Record) (w w' : World H) : Prop :=
  backend w' = backend w /\ currRecord w' = currRecord w /\ calls w' = calls w /\
  (observed w' = observed w \/ SortResults record (observed w) = inr (observed w')).

(** No element of [l] is less than one before it. *)
Definition nonDecreasing {A} (less : A -> A -> bool) (l : list A) : Prop :=
  StronglySorted (fun a b => less b a = false) l.

(** The whole rows [rowSorter] sees in [values]. *)
Definition rowsOf (ncols : nat) (values : list string) : list (list string) :=
  map (toRow ncols values) (seq 0 (Len ncols values)).

(** The values after the last whole row. *)
Definition partialRow (ncols : nat) (values : list string) : list string :=
  skipn (Len ncols values * ncols) values.


(** The line of a file that a line number names; lines count from 1. *)
Definition lineAt (lines : list string) (n : Z) : option string :=
  if (n <=? 0)%Z then None else nth_error lines (Z.to_nat (n - 1)).

(** [n] is 0, or the number of a line of the file that does not start
    with [#]. *)
Definition numbersALine (lines : list string) (n : Z) : Prop :=
  n = 0%Z \/ exists line, lineAt lines n = Some line /\ HasPrefix line "#" = false.

(** The line numbers of the records, those that are 0 apart, go up. *)
Definition lineNumsAscend (records : list Record) : Prop :=
  forall i j ri rj, (i < j)%nat ->
    nth_error records i = Some ri -> nth_error records j = Some rj ->
    lineNum rj <> 0%Z -> (lineNum ri < lineNum rj)%Z.

(** The words a record may start with. *)
Definition directiveWords : list string :=
  [halt; skipif; onlyif; hashThresholdWord; "statement"; "query"].

(** What an error of [ParseTestFile] says about the file: the line an
    "Unhandled statement" error names starts with the word it names, which
    is no directive word; an "unexpected token" is the second word of a
    [statement] line; any other error is the scanner's. *)
Definition errorExplained (lines : list string) (err : option string)
    (e : ParseError) : Prop :=
  match e with
  | UnhandledStatement token n =>
      exists line rest,
        lineAt lines n = Some line /\
        Fields (commentRegex_ReplaceAll false line) = token :: rest /\
        ~ In token directiveWords
  | UnexpectedToken token =>
      exists line rest,
        In line lines /\
        Fields (commentRegex_ReplaceAll false line) = "statement" :: token :: rest /\
        token <> "ok" /\ token <> "error"
  | ScannerError msg => err = Some msg
  end.

(** The text of a line up to its first [#] ([commentsRemoved] in
    [parseRecord]). *)
Definition commentsRemoved (line : string) : string :=
  commentRegex_ReplaceAll false line.

(** A line the parser takes into the text of a statement or, when it is
    not the separator, of a query. *)
Definition bodyLine (ofQuery : bool) (line : string) : Prop :=
  HasPrefix line "#" = false /\ isBlankLine line = false /\
  (ofQuery = true -> isSeparator (Fields (commentsRemoved line)) = false).

(** The line that ends the text of a query. *)
Definition separatorLine (line : string) : Prop :=
  HasPrefix line "#" = false /\ isSeparator (Fields (commentsRemoved line)) = true.

(** A line the parser takes as an expected value. *)
Definition resultLine (line : string) : Prop :=
  HasPrefix line "#" = false /\ isBlankLine line = false.

(** What a loop that copies has done when it stops: the lines it has
    read are the lines it has written. *)
Definition copiedSoFar (scanner : LineScanner) (wr : Writer)
    (after : LineScanner * Writer) : Prop :=
  exists copied,
    pending scanner = (copied ++ pending (fst after))%list /\
    snd after = (wr ++ copied)%list /\
    LineNum (fst after) = (LineNum scanner + Z.of_nat (List.length copied))%Z /\
    scanErr (fst after) = scanErr scanner.


(** The hash line that [writeResults] writes. *)
Definition hashLine (results : list string) : string :=
  Sprintf_d (List.length results) ++ " values hashing to " ++ hashResults results.


(** The suffix that the label of a query adds to its first line. *)
Definition labelSuffix (record : Record) : string :=
  if negb (String.eqb (label record) "") then " " ++ label record else "".


(** The first line of a query record with the schema given, as
    [generateTestFile] writes it. *)
Definition queryLine (schemaStr : string) (record : Record) : string :=
  "query " ++ schemaStr ++ " " ++ sortMode record ++ labelSuffix record.

(** How a run can panic: [Init] panics or returns an error, or the file
    does not parse. *)
Definition panicsAtStart {H} (harness : Harness H) (lines : list string)
    (scanErr : option string) (w : World H) (v : PanicValue) : Prop :=
  (exists h, Init harness (backend w) = Raised v h) \/
  (exists e h, Init harness (backend w) = Replied (Some e) h /\ v = PanicString e) \/
  (exists e, ParseTestFile lines scanErr = Some (ParseFailed e) /\
             v = PanicString (Error e)) \/
  ParseTestFile lines scanErr = Some (ParseCrashed v).

(* ================================================================== *)
(** * Properties *)

(** ** The repository's own test *)

(** The model parses the repository's test file into the records
    [TestParseFile] asserts. *)
Example TestParseFile :
  ParseTestFile select1_test None = Some (Parsed select1_records).
Proof. vm_compute. reflexivity. Qed.

(** The directives of the test file, as the properties below count them:
    ten records besides the two Halt records, three of them before the
    first [halt]; the threshold 8 up to the directive [hash-threshold 16]. *)
Example select1_directives :
  nonHalt select1_records = 10%nat /\
  recordDirectives false initLocals 0 select1_test = 10%nat /\
  recordDirectives true initLocals 0 select1_test = 3%nat /\
  droppedAtEnd initLocals 0 select1_test = 0%nat /\
  thresholdDirectives initLocals 0 select1_test = [16%Z] /\
  thresholdsInForce true 8 8 initLocals 0 select1_test
    = [8; 8; 8; 8; 8; 16; 16; 16; 16; 16; 16; 16]%Z /\
  thresholdsInForce false 8 8 initLocals 0 select1_test
    = map hashThreshold select1_records.
Proof. vm_compute. repeat split. Qed.

(** [hashResults] on known MD5 digests. *)
Example hashResults_digests :
  hashResults [] = "d41d8cd98f00b204e9800998ecf8427e" /\
  hashResults ["1"; "2"] = "6ddb4095eb719e2a9f0a3f95677d24e0" /\
  hexString (md5.Sum (bytesOf "abc")) = "900150983cd24fb0d6963f7d28e17f72".
Proof. vm_compute. repeat split. Qed.


(** ** The condition evaluator *)

Lemma noSkipFor_spec (cs : list Condition) (eng : string) :
  noSkipFor cs eng = true <->
  forall c, In c cs -> ~ (isSkip c = true /\ engine c = eng).
Proof.
  induction cs as [|c cs IH]; simpl.
  - split; [intros _ c [] | reflexivity].
  - destruct (isSkip c) eqn:Hs; simpl.
    + destruct (String.eqb_spec (engine c) eng) as [He|He].
      * split; [discriminate|].
        intros Hall. exfalso. apply (Hall c); auto.
      * rewrite IH. split.
        -- intros Hall c' [<-|Hin]; [tauto | auto].
        -- intros Hall c' Hin. apply Hall. now right.
    + rewrite IH. split.
      * intros Hall c' [<-|Hin]; [rewrite Hs; intros [? _]; discriminate | auto].
      * intros Hall c' Hin. apply Hall. now right.
Qed.

(** C2.  A record whose condition list is a single only-condition is
    eligible exactly for that condition's engine; every other record (no
    condition, several conditions, a single skip-condition) is eligible
    exactly when none of its conditions is a skip-condition for the engine,
    so only-conditions among several have no effect. *)
Theorem ShouldExecuteForEngine_rule (r : Record) (eng : string) :
  (forall c, conditions r = [c] /\ isOnly c = true ->
     (ShouldExecuteForEngine r eng = true <-> engine c = eng)) /\
  ((~ exists c, conditions r = [c] /\ isOnly c = true) ->
     (ShouldExecuteForEngine r eng = true <->
      forall c, In c (conditions r) -> ~ (isSkip c = true /\ engine c = eng))).
Proof.
  unfold ShouldExecuteForEngine. split.
  - intros c [Hc Ho]. rewrite Hc. simpl. rewrite Ho.
    apply String.eqb_eq.
  - intros Hno. destruct (conditions r) as [|c0 cs] eqn:Hc.
    + apply noSkipFor_spec.
    + destruct (Nat.eqb (List.length (c0 :: cs)) 1 && isOnly c0) eqn:Hb.
      * exfalso. apply Hno. exists c0.
        apply andb_true_iff in Hb as [Hl Ho].
        apply Nat.eqb_eq in Hl. destruct cs; [auto | discriminate].
      * apply noSkipFor_spec.
Qed.

(** The cases of the spec's section 8: [only mysql], [skip mysql] and
    [only mysql, skip oracle]. *)
Example ShouldExecuteForEngine_cases :
  let only_mysql := mkCondition true false "mysql" in
  let skip_mysql := mkCondition false true "mysql" in
  let skip_oracle := mkCondition false true "oracle" in
  let rec cs := set_conditions cs newRecord in
  map (ShouldExecuteForEngine (rec [only_mysql])) ["mysql"; "oracle"] = [true; false] /\
  map (ShouldExecuteForEngine (rec [skip_mysql])) ["mysql"; "oracle"] = [false; true] /\
  map (ShouldExecuteForEngine (rec [only_mysql; skip_oracle])) ["mysql"; "oracle"; "mssql"]
    = [true; false; true].
Proof. repeat split. Qed.

(** ** The directive parser: one line at a time *)

(** Case analysis of everything [step] branches on. *)
Ltac step_cases :=
  unfold step, stepStart, noteLineNum, isSeparator, set_state, set_record,
    WriteString in *;
  repeat match goal with
         | H : context [if ?b then _ else _] |- _ => destruct b eqn:?
         | H : context [match ?x with _ => _ end] |- _ => destruct x eqn:?
         end;
  simpl in *; try discriminate.

(** A line of the body never sends the parser back to [stateStart], and
    never touches the sort mode, the conditions, the type or the hash
    threshold of the record. *)
Lemma step_inBody_Continue ln p line p' :
  inBody p = true -> step ln p line = Continue p' ->
  inBody p' = true /\
  sortMode (record p') = sortMode (record p) /\
  recordType (record p') = recordType (record p) /\
  hashThreshold (record p') = hashThreshold (record p).
Proof.
  unfold inBody. intros Hb Hs. destruct p as [r st qb]. simpl in *.
  destruct st; try discriminate; step_cases;
    inversion Hs; subst; simpl; auto.
Qed.

Lemma step_inBody_Return ln p line r :
  inBody p = true -> step ln p line = Return r ->
  sortMode r = sortMode (record p) /\
  recordType r = recordType (record p) /\
  hashThreshold r = hashThreshold (record p).
Proof.
  unfold inBody. intros Hb Hs. destruct p as [r0 st qb]. simpl in *.
  destruct st; try discriminate; step_cases;
    inversion Hs; subst; simpl; auto.
Qed.

(** C6, as amended.  A line whose first byte is [#] is skipped in every
    state of the parser: the record under construction, the state and the
    accumulated text are what they were, the loop goes on to the next line
    (no return, no error, no panic); only the line count advances. *)
Theorem comment_line_skipped (ln : Z) (p : Locals) (line : string)
    (rest : list string) :
  HasPrefix line "#" = true ->
  step ln p line = Continue p /\
  scanLoop p ln (line :: rest) = scanLoop p (ln + 1)%Z rest.
Proof.
  intros Hc.
  assert (Hs : forall n, step n p line = Continue p).
  { intros n. unfold step. now rewrite Hc. }
  split; [apply Hs|]. simpl. now rewrite Hs.
Qed.

Lemma comment_line_skipped_witness :
  HasPrefix "# A long comment" "#" = true /\
  step 22 initLocals "# A long comment" = Continue initLocals.
Proof.
  split; [reflexivity|].
  apply (comment_line_skipped 22 initLocals "# A long comment" []).
  reflexivity.
Defined.

(** C6, as stated, fails: a comment behind leading white space is a line
    like any other.  At the start of a record it has no field, and
    [fields[0]] panics; in a statement body it is appended (as the white
    space before the [#]) and sets the canonical line number. *)
Lemma indented_comment_not_skipped :
  let line := "  # note" in
  let body := mkLocals (set_recordType Statement newRecord) stateStatement "" in
  firstNonSpaceIsHash line = true /\
  step 1 initLocals line = Panic (IndexOutOfRange 0 0) /\
  step 2 body line =
    Continue (mkLocals (set_lineNum 2 (set_recordType Statement newRecord))
                stateStatement "  ") /\
  ParseTestFile [line; "statement ok"; "SELECT 1"] None
    = Some (ParseCrashed (IndexOutOfRange 0 0)).
Proof. repeat split. Qed.

(** ** End of input *)

(** What [parseRecord] returns when the input ends inside a record whose
    canonical line is set: a statement gets its accumulated text; a record
    in its results is returned as it is (its text was set at the
    separator); a query still in its body is returned as it is too, so its
    text stays empty. *)
Lemma afterLoop_body (p : Locals) :
  lineNum (record p) <> 0%Z ->
  afterLoop p None =
    GotRecord (Some (match state p with
                     | stateStatement => set_query (queryBuilder p) (record p)
                     | _ => record p
                     end)).
Proof.
  intros Hl. unfold afterLoop.
  destruct (Z.eqb_spec (lineNum (record p)) 0); [contradiction|].
  now destruct (state p).
Qed.

(** C7, at the failing input.  A query whose body runs to the end of the
    input is emitted with an empty query string: the text accumulated in
    the builder is lost.  The same query ended by a blank line, and a
    statement that runs to the end of the input, keep their text. *)
Theorem query_body_at_end_of_input :
  ParseTestFile ["query I nosort"; "SELECT 1"] None
    = Some (Parsed [mkRecord Query false [] "I" "nosort" "" 2 [] "" 8]) /\
  ParseTestFile ["query I nosort"; "SELECT 1"; ""] None
    = Some (Parsed [mkRecord Query false [] "I" "nosort" "SELECT 1" 2 [] "" 8]) /\
  ParseTestFile ["statement ok"; "SELECT 1"] None
    = Some (Parsed [mkRecord Statement false [] "" "" "SELECT 1" 2 [] "" 8]) /\
  ParseTestFile ["query I nosort"; "SELECT 1"; "----"; "7"] None
    = Some (Parsed [mkRecord Query false [] "I" "nosort" "SELECT 1" 2 ["7"] "" 8]).
Proof. repeat split. Qed.

(** ** The sort mode of a query directive *)

Lemma SortResults_no_mode (r : Record) (results : list string) :
  sortMode r = "" ->
  SortResults r results = inl (PanicString "Uncrecognized sort mode ").
Proof. intros Hm. unfold SortResults. now rewrite Hm. Qed.

(** From a body state on, whatever the loop returns carries the sort
    mode, the type and the hash threshold the record had. *)
Lemma scanLoop_inBody lines : forall p ln exit ln' rest,
  inBody p = true ->
  scanLoop p ln lines = (exit, (ln', rest)) ->
  match exit with
  | Returned r =>
      sortMode r = sortMode (record p) /\
      recordType r = recordType (record p) /\
      hashThreshold r = hashThreshold (record p)
  | ScanEnded p' =>
      inBody p' = true /\
      sortMode (record p') = sortMode (record p) /\
      recordType (record p') = recordType (record p) /\
      hashThreshold (record p') = hashThreshold (record p)
  | _ => True
  end.
Proof.
  induction lines as [|line lines IH]; intros p ln exit ln' rest Hb Hs; simpl in Hs.
  - inversion Hs; subst. auto.
  - destruct (step (ln + 1) p line) as [p1|r|e|v] eqn:Hstep.
    + destruct (step_inBody_Continue _ _ _ _ Hb Hstep) as (Hb1 & Hm & Ht & Hh).
      specialize (IH _ _ _ _ _ Hb1 Hs). rewrite <- Hm, <- Ht, <- Hh.
      destruct exit; auto.
    + inversion Hs; subst. now apply (step_inBody_Return _ _ _ _ Hb Hstep).
    + now inversion Hs.
    + now inversion Hs.
Qed.

(** C9, as amended.  A query directive without the sort-mode token (its
    fields are [query] and the schema only) leaves the record's sort mode
    empty: no default is put in.  The record then parsed, whether ended by
    a blank line or by the end of the input, carries the empty sort mode,
    which is none of [NoSort], [Rowsort], [ValueSort], and [SortResults] on
    it takes the panic branch whatever the values. *)
Theorem query_without_sortMode (p : Locals) (ln : Z) (line tags : string)
    (rest : list string) (r : Record) :
  state p = stateStart ->
  sortMode (record p) = "" ->
  HasPrefix line "#" = false ->
  isBlankLine line = false ->
  Fields (commentRegex_ReplaceAll false line) = ["query"; tags] ->
  (exists ln' rest',
      scanLoop p ln (line :: rest) = (Returned r, (ln', rest')) \/
      exists p', scanLoop p ln (line :: rest) = (ScanEnded p', (ln', rest')) /\
                 afterLoop p' None = GotRecord (Some r)) ->
  recordType r = Query /\
  sortMode r = "" /\
  knownSortMode (sortMode r) = false /\
  forall results,
    SortResults r results = inl (PanicString "Uncrecognized sort mode ").
Proof.
  intros Hst Hm Hc Hb Hf (ln' & rest' & Hrun).
  assert (Hstep : step (ln + 1) p line =
            Continue (mkLocals (set_schema tags (set_recordType Query (record p)))
                        stateQuery (queryBuilder p))).
  { unfold step. rewrite Hc, Hb, Hf, Hst. reflexivity. }
  simpl in Hrun. rewrite Hstep in Hrun.
  assert (Hr : sortMode r = "" /\ recordType r = Query).
  { destruct Hrun as [Hrun | (p' & Hrun & Hafter)];
      apply scanLoop_inBody in Hrun; try reflexivity; simpl in Hrun.
    - destruct Hrun as (H1 & H2 & _). split; congruence.
    - destruct Hrun as (_ & H1 & H2 & _). unfold afterLoop in Hafter.
      destruct (Z.eqb (lineNum (record p')) 0); [discriminate|].
      destruct (state p'); inversion Hafter; subst; simpl; split; congruence. }
  destruct Hr as [Hr Ht]. repeat split; auto.
  - now rewrite Hr.
  - intros. now apply SortResults_no_mode.
Qed.

Lemma query_without_sortMode_witness :
  let r := mkRecord Query false [] "I" "" "SELECT 1" 2 ["1"] "" hashThresholdUnset in
  scanLoop initLocals 0 ["query I"; "SELECT 1"; "----"; "1"; ""; "halt"]
    = (Returned r, (5%Z, ["halt"])) /\
  recordType r = Query /\
  sortMode r = "" /\
  knownSortMode (sortMode r) = false /\
  forall results,
    SortResults r results = inl (PanicString "Uncrecognized sort mode ").
Proof.
  split; [reflexivity|].
  apply (query_without_sortMode initLocals 0 "query I" "I"
           ["SELECT 1"; "----"; "1"; ""; "halt"]); try reflexivity.
  exists 5%Z, ["halt"]. left. reflexivity.
Defined.

(** C9, as stated, fails: the record of a query directive with no sort
    mode carries none of the three sort modes, and sorting for it panics;
    the run loop logs the panic as the record's failure. *)
Lemma query_without_sortMode_panics :
  let r := mkRecord Query false [] "I" "" "SELECT 1" 2 ["1"] "" 8 in
  let harness : Harness unit :=
    mkHarness (fun _ => "mysql") (fun h => Replied None h)
      (fun _ h => Replied None h) (fun _ h => Replied ("I", ["1"], None) h) in
  ParseTestFile ["query I"; "SELECT 1"; "----"; "1"] None = Some (Parsed [r]) /\
  knownSortMode (sortMode r) = false /\
  SortResults r ["1"] = inl (PanicString "Uncrecognized sort mode ") /\
  runRecords harness [r] (mkWorld tt None [] [] []) =
    Done tt (mkWorld tt (Some r) ["1"]
               [mkLogLine 2 "SELECT 1"
                  (NotOk (CaughtPanic (PanicString "Uncrecognized sort mode ")))]
               [CallQuery "SELECT 1"]).
Proof. repeat split. Qed.

(** ** The whole file in one pass *)

Lemma afterLoop_initLocals err :
  afterLoop initLocals err = EOF \/ exists e, afterLoop initLocals err = Failed e.
Proof. destruct err; simpl; eauto. Qed.

Lemma afterLoop_GotRecord p err r :
  afterLoop p err = GotRecord r ->
  err = None /\ lineNum (record p) <> 0%Z /\ exists r', r = Some r'.
Proof.
  unfold afterLoop. destruct err; [discriminate|].
  destruct (Z.eqb_spec (lineNum (record p)) 0); [discriminate|].
  destruct (state p); intros H; inversion H; eauto.
Qed.

(** The loop of [parseRecord] never hands back more lines than it was
    given, and fewer unless the input ended. *)
Lemma scanLoop_rest lines : forall p ln exit ln' rest,
  scanLoop p ln lines = (exit, (ln', rest)) ->
  match exit with
  | ScanEnded _ => rest = []
  | _ => (List.length rest < List.length lines)%nat
  end.
Proof.
  induction lines as [|line lines IH]; intros p ln exit ln' rest Hs; simpl in Hs.
  - now inversion Hs.
  - destruct (step (ln + 1) p line) eqn:Hstep.
    + apply IH in Hs. destruct exit; simpl; auto; lia.
    + inversion Hs; subst; simpl; lia.
    + inversion Hs; subst; simpl; lia.
    + inversion Hs; subst; simpl; lia.
Qed.

Lemma scanLoop_parseLines lines : forall p ln exit ln' rest prev records err,
  scanLoop p ln lines = (exit, (ln', rest)) ->
  parseLines p ln prev records lines err =
    match exit with
    | ScanEnded p' => parseLines p' ln' prev records [] err
    | Returned r =>
        parseLines initLocals ln' (Some (inheritThreshold prev r))
          (records ++ [inheritThreshold prev r]) rest err
    | ReturnedErr e => ParseFailed e
    | Panicked v => ParseCrashed v
    end.
Proof.
  induction lines as [|line lines IH]; intros p ln exit ln' rest prev records err Hs;
    simpl in Hs.
  - inversion Hs; subst. reflexivity.
  - simpl. destruct (step (ln + 1) p line) eqn:Hstep.
    + now apply IH.
    + inversion Hs; subst. reflexivity.
    + inversion Hs; subst. reflexivity.
    + inversion Hs; subst. reflexivity.
Qed.

(** The nested loops compute the single pass, given one unit of fuel more
    than there are lines pending. *)
Lemma parseFile_parseLines fuel : forall scanner prev records,
  (List.length (pending scanner) < fuel)%nat ->
  parseFile fuel scanner prev records =
    Some (parseLines initLocals (LineNum scanner) prev records
            (pending scanner) (scanErr scanner)).
Proof.
  induction fuel as [|fuel IH]; intros [lines ln err] prev records Hlt; [lia|].
  simpl in *. unfold parseRecord. simpl.
  destruct (scanLoop initLocals ln lines) as [exit [ln' rest]] eqn:Hs.
  pose proof (scanLoop_rest _ _ _ _ _ _ Hs) as Hrest.
  rewrite (scanLoop_parseLines _ _ _ _ _ _ prev records err Hs).
  destruct exit as [p'|r|e|v]; try reflexivity.
  - subst rest. simpl. destruct (afterLoop p' err) as [[r|]| |e|v] eqn:Ha; try reflexivity.
    + destruct (afterLoop_GotRecord _ _ _ Ha) as (-> & Hl & _).
      destruct lines as [|line lines]; [inversion Hs; subst; now elim Hl|].
      rewrite IH by (simpl in *; lia). reflexivity.
    + destruct (afterLoop_GotRecord _ _ _ Ha) as (_ & _ & r' & Hr). discriminate.
  - rewrite IH by (simpl; lia). reflexivity.
Qed.

(** [ParseTestFile] always returns: the fuel it starts with suffices. *)
Theorem ParseTestFile_total (lines : list string) (err : option string) :
  ParseTestFile lines err = Some (parseLines initLocals 0 None [] lines err).
Proof. unfold ParseTestFile. now rewrite parseFile_parseLines by (simpl; lia). Qed.

(** ** Directives, as the parser meets them *)

(** What a line read at the start of a record does to the locals. *)
Lemma step_atStart_Continue ln p line p' :
  inBody p = false -> step ln p line = Continue p' ->
  lineNum (record p') = lineNum (record p) /\
  hashThreshold (record p') =
    match thresholdDirective p line with
    | Some v => v
    | None => hashThreshold (record p)
    end /\
  (if inBody p'
   then recordDirective p line = true /\ isHalt (record p') = false
   else recordDirective p line = false).
Proof.
  unfold thresholdDirective, recordDirective, directiveFields, inBody, isHalt.
  intros Hb Hs. destruct p as [r st qb]. simpl in *.
  destruct st; try discriminate. simpl.
  unfold step in Hs. simpl in Hs.
  destruct (HasPrefix line "#"); simpl.
  { inversion Hs; subst. simpl. auto. }
  destruct (isBlankLine line); simpl.
  { inversion Hs; subst. simpl. auto. }
  unfold stepStart, set_record, set_state in Hs. simpl in Hs.
  destruct (Fields (commentRegex_ReplaceAll false line)) as [|f0 rest]; [discriminate|].
  destruct (String.eqb_spec f0 halt) as [->|_]; [discriminate|].
  destruct (String.eqb_spec f0 skipif) as [->|_]; simpl in Hs.
  { destruct rest; inversion Hs; subst; simpl; auto. }
  destruct (String.eqb_spec f0 onlyif) as [->|_]; simpl in Hs.
  { destruct rest; inversion Hs; subst; simpl; auto. }
  destruct (String.eqb_spec f0 hashThresholdWord) as [->|_].
  { destruct rest; inversion Hs; subst; simpl; auto. }
  destruct (String.eqb_spec f0 "statement") as [->|_].
  { destruct rest as [|f1 rest]; [discriminate|].
    destruct (String.eqb f1 "ok"); [inversion Hs; subst; simpl; auto|].
    destruct (String.eqb f1 "error"); inversion Hs; subst; simpl; auto. }
  destruct (String.eqb_spec f0 "query") as [->|_]; [|discriminate].
  destruct rest as [|f1 [|f2 [|f3 rest]]]; inversion Hs; subst; simpl; auto.
Qed.

Lemma step_atStart_Return ln p line r :
  inBody p = false -> step ln p line = Return r ->
  isHalt r = true /\ hashThreshold r = hashThreshold (record p) /\
  thresholdDirective p line = None /\ recordDirective p line = false /\
  haltDirective p line = true.
Proof.
  unfold thresholdDirective, recordDirective, haltDirective, directiveFields,
    inBody, isHalt.
  intros Hb Hs. destruct p as [r0 st qb]. simpl in *.
  destruct st; try discriminate. simpl.
  unfold step in Hs. simpl in Hs.
  destruct (HasPrefix line "#"); simpl; [discriminate|].
  destruct (isBlankLine line); simpl; [discriminate|].
  unfold stepStart, set_record, set_state in Hs. simpl in Hs.
  destruct (Fields (commentRegex_ReplaceAll false line)) as [|f0 rest]; [discriminate|].
  destruct (String.eqb_spec f0 halt) as [->|_].
  { inversion Hs; subst; simpl. destruct rest; auto. }
  destruct (String.eqb f0 skipif || String.eqb f0 onlyif);
    [destruct rest; discriminate|].
  destruct (String.eqb f0 hashThresholdWord); [destruct rest; discriminate|].
  destruct (String.eqb f0 "statement").
  { destruct rest as [|f1 rest]; [discriminate|].
    destruct (String.eqb f1 "ok"); [discriminate|].
    destruct (String.eqb f1 "error"); discriminate. }
  destruct (String.eqb f0 "query"); [destruct rest; discriminate | discriminate].
Qed.

Lemma inBody_directives p line :
  inBody p = true ->
  thresholdDirective p line = None /\ recordDirective p line = false /\
  haltDirective p line = false.
Proof.
  unfold thresholdDirective, recordDirective, haltDirective, directiveFields.
  now intros ->.
Qed.

Lemma inheritThreshold_fields prev r :
  recordType (inheritThreshold prev r) = recordType r /\
  hashThreshold (inheritThreshold prev r) =
    if Z.eqb (hashThreshold r) hashThresholdUnset
    then match prev with
         | Some pr => hashThreshold pr
         | None => defaultHashThreshold
         end
    else hashThreshold r.
Proof.
  unfold inheritThreshold.
  destruct (Z.eqb (hashThreshold r) hashThresholdUnset); [destruct prev|]; auto.
Qed.

(** ** Hash-threshold propagation *)

Lemma pendingThreshold_set p inherited :
  inherited <> hashThresholdUnset ->
  pendingThreshold p inherited <> hashThresholdUnset.
Proof.
  unfold pendingThreshold. intros Hi.
  now destruct (Z.eqb_spec (hashThreshold (record p)) hashThresholdUnset).
Qed.

Lemma afterLoop_hashThreshold p err r :
  afterLoop p err = GotRecord (Some r) ->
  hashThreshold r = hashThreshold (record p) /\ recordType r = recordType (record p) /\
  afterLoop p None = GotRecord (Some r).
Proof.
  intros Ha. destruct (afterLoop_GotRecord _ _ _ Ha) as (-> & Hl & _).
  split; [|split; [|exact Ha]];
    unfold afterLoop in Ha;
    destruct (Z.eqb (lineNum (record p)) 0); try discriminate;
    destruct (state p); inversion Ha; reflexivity.
Qed.

Lemma afterLoop_EOF p err :
  afterLoop p err = EOF -> afterLoop p None = EOF /\ lineNum (record p) = 0%Z.
Proof.
  unfold afterLoop. destruct err; [discriminate|].
  destruct (Z.eqb_spec (lineNum (record p)) 0); [auto|].
  destruct (state p); discriminate.
Qed.

Arguments afterLoop : simpl never.

Lemma parseLines_thresholds lines : forall p ln prev records out err,
  thresholdOf prev <> hashThresholdUnset ->
  parseLines p ln prev records lines err = Parsed out ->
  map hashThreshold out =
    (map hashThreshold records ++
     thresholdsInForce true (pendingThreshold p (thresholdOf prev)) (thresholdOf prev)
       p ln lines)%list.
Proof.
  induction lines as [|line rest IH]; intros p ln prev records out err Hprev Hp;
    simpl in Hp.
  - simpl. destruct (afterLoop p err) as [[r|]| |e|v] eqn:Ha; try discriminate.
    + destruct (afterLoop_hashThreshold _ _ _ Ha) as (Hh & _ & ->).
      inversion Hp; subst. rewrite map_app. simpl. f_equal. f_equal.
      destruct (inheritThreshold_fields prev r) as [_ ->].
      unfold pendingThreshold, thresholdOf. rewrite Hh. reflexivity.
    + destruct (afterLoop_GotRecord _ _ _ Ha) as (_ & _ & r' & Hr). discriminate.
    + destruct (afterLoop_EOF _ _ Ha) as [-> _]. inversion Hp; subst.
      now rewrite app_nil_r.
  - assert (Hret : forall r, step (ln + 1) p line = Return r ->
              thresholdDirective p line = None /\
              hashThreshold r = hashThreshold (record p)).
    { intros r Hs. destruct (inBody p) eqn:Hb.
      - destruct (inBody_directives p line Hb) as (-> & _).
        destruct (step_inBody_Return _ _ _ _ Hb Hs) as (_ & _ & ->). auto.
      - destruct (step_atStart_Return _ _ _ _ Hb Hs) as (_ & -> & -> & _). auto. }
    assert (Hcont : forall p', step (ln + 1) p line = Continue p' ->
              pendingThreshold p' (thresholdOf prev) =
              match thresholdDirective p line with
              | Some v => if Z.eqb v hashThresholdUnset
                          then thresholdOf prev else v
              | None => pendingThreshold p (thresholdOf prev)
              end).
    { intros p' Hs. unfold pendingThreshold. destruct (inBody p) eqn:Hb.
      - destruct (inBody_directives p line Hb) as (-> & _).
        destruct (step_inBody_Continue _ _ _ _ Hb Hs) as (_ & _ & _ & ->). auto.
      - destruct (step_atStart_Continue _ _ _ _ Hb Hs) as (_ & -> & _).
        destruct (thresholdDirective p line); reflexivity. }
    cbn [thresholdsInForce andb].
    destruct (step (ln + 1) p line) as [p'|r|e|v] eqn:Hs; try discriminate.
    + rewrite <- (Hcont p' eq_refl). now apply IH with (err := err).
    + destruct (Hret r eq_refl) as [-> Hh].
      set (r' := inheritThreshold prev r) in *.
      assert (Hr' : hashThreshold r' = pendingThreshold p (thresholdOf prev)).
      { subst r'. destruct (inheritThreshold_fields prev r) as [_ ->].
        unfold pendingThreshold, thresholdOf. now rewrite Hh. }
      apply IH in Hp.
      * rewrite Hp, map_app. simpl. rewrite <- app_assoc. simpl.
        rewrite Hr'. reflexivity.
      * simpl. rewrite Hr'. now apply pendingThreshold_set.
Qed.

Lemma thresholdsInForce_set lines : forall current previous p ln,
  current <> hashThresholdUnset -> previous <> hashThresholdUnset ->
  Forall (fun v => v <> hashThresholdUnset)
    (thresholdsInForce true current previous p ln lines).
Proof.
  induction lines as [|line rest IH]; intros current previous p ln Hc Hp; simpl.
  - destruct (afterLoop p None) as [[r|]| | |]; auto.
  - set (current' := match thresholdDirective p line with
                     | Some v => _
                     | None => _
                     end).
    assert (Hc' : current' <> hashThresholdUnset).
    { subst current'. destruct (thresholdDirective p line) as [v|]; auto.
      simpl. now destruct (Z.eqb_spec v hashThresholdUnset). }
    destruct (step (ln + 1) p line); auto.
Qed.

(** In a file none of whose [hash-threshold] directives has the value of
    the unset mark, the thresholds in force are those of the most recent
    directive, as C3 states them. *)
Lemma thresholdsInForce_without_unset lines : forall current previous previous' p ln,
  Forall (fun v => v <> hashThresholdUnset) (thresholdDirectives p ln lines) ->
  thresholdsInForce true current previous p ln lines =
  thresholdsInForce false current previous' p ln lines.
Proof.
  induction lines as [|line rest IH]; intros current previous previous' p ln Hall;
    [reflexivity|].
  cbn [thresholdsInForce thresholdDirectives andb] in *.
  apply Forall_app in Hall as [Hv Hrest].
  assert (Hcur : match thresholdDirective p line with
                 | Some v => if Z.eqb v hashThresholdUnset then previous else v
                 | None => current
                 end =
                 match thresholdDirective p line with
                 | Some v => v
                 | None => current
                 end).
  { destruct (thresholdDirective p line) as [v|]; [|reflexivity].
    inversion Hv; subst. now destruct (Z.eqb_spec v hashThresholdUnset). }
  rewrite Hcur.
  destruct (step (ln + 1) p line); auto.
  f_equal. auto.
Qed.

(** C3, as amended.  In a file that parses, the hash threshold of every
    record is the value of the most recent [hash-threshold] directive
    before it, or 8 when there is none, except that a directive whose
    value is -1 (the parser's mark for "unset") puts the threshold of the
    previous record (8 before the first record) back in force; no record
    carries the unset mark. *)
Theorem hashThreshold_in_force (lines : list string) (err : option string)
    (records : list Record) :
  ParseTestFile lines err = Some (Parsed records) ->
  map hashThreshold records = thresholdsInForce true 8 8 initLocals 0 lines /\
  Forall (fun r => hashThreshold r <> hashThresholdUnset) records.
Proof.
  rewrite ParseTestFile_total. intros Hp. inversion Hp as [Hp'].
  apply parseLines_thresholds in Hp'; [|discriminate].
  simpl in Hp'. split; [exact Hp'|].
  apply Forall_map with (f := hashThreshold) (P := fun v => v <> hashThresholdUnset).
  rewrite Hp'. apply thresholdsInForce_set; discriminate.
Qed.

(** In a file none of whose [hash-threshold] directives has the value -1,
    every record carries the value of the most recent directive before it,
    or 8. *)
Corollary hashThreshold_most_recent_directive (lines : list string)
    (err : option string) (records : list Record) :
  ParseTestFile lines err = Some (Parsed records) ->
  Forall (fun v => v <> hashThresholdUnset) (thresholdDirectives initLocals 0 lines) ->
  map hashThreshold records = thresholdsInForce false 8 8 initLocals 0 lines.
Proof.
  rewrite ParseTestFile_total. intros Hp Hall. inversion Hp as [Hp'].
  apply parseLines_thresholds in Hp'; [|discriminate].
  simpl in Hp'. rewrite Hp'.
  now apply thresholdsInForce_without_unset.
Qed.

Lemma hashThreshold_in_force_witness :
  let lines := ["statement ok"; "CREATE TABLE t1(a INTEGER)"; "";
                "hash-threshold 16"; "";
                "query I nosort"; "SELECT a FROM t1"; "----"; ""; "halt"] in
  let records :=
    [mkRecord Statement false [] "" "" "CREATE TABLE t1(a INTEGER)" 2 [] "" 8;
     mkRecord Query false [] "I" "nosort" "SELECT a FROM t1" 7 [] "" 16;
     mkRecord Halt false [] "" "" "" 10 [] "" 16] in
  ParseTestFile lines None = Some (Parsed records) /\
  map hashThreshold records = thresholdsInForce true 8 8 initLocals 0 lines /\
  Forall (fun r => hashThreshold r <> hashThresholdUnset) records.
Proof.
  split; [reflexivity|].
  apply (hashThreshold_in_force
           ["statement ok"; "CREATE TABLE t1(a INTEGER)"; "";
            "hash-threshold 16"; "";
            "query I nosort"; "SELECT a FROM t1"; "----"; ""; "halt"] None).
  reflexivity.
Defined.

(** C3, as stated, fails: the directive [hash-threshold -1] before the
    second record leaves that record with the threshold of the first, 5,
    not with the directive's value. *)
Lemma unset_directive_not_in_force :
  let lines := ["hash-threshold 5"; "statement ok"; "SELECT 1"; "";
                "hash-threshold -1"; "statement ok"; "SELECT 2"] in
  ParseTestFile lines None =
    Some (Parsed [mkRecord Statement false [] "" "" "SELECT 1" 3 [] "" 5;
                  mkRecord Statement false [] "" "" "SELECT 2" 7 [] "" 5]) /\
  thresholdsInForce false 8 8 initLocals 0 lines = [5; -1]%Z.
Proof. split; reflexivity. Qed.

(** ** Records and directives *)







(** ** The schema check *)

Lemma byteIs_eq c n : byteIs c n = true <-> c = ascii_of_N n /\ (n < 256)%N.
Proof.
  unfold byteIs. rewrite N.eqb_eq. split.
  - intros <-. split; [now rewrite ascii_N_embedding | apply N_ascii_bounded].
  - intros [-> Hn]. now apply N_ascii_embedding.
Qed.

Lemma allBytes_spec p s :
  allBytes p s = true <-> forall c, In c (list_ascii_of_string s) -> p c = true.
Proof.
  induction s as [|a s IH]; simpl.
  - split; [intros _ c [] | reflexivity].
  - rewrite andb_true_iff, IH. split.
    + intros [Ha Hs] c [<-|Hc]; auto.
    + intros Hall. split; [apply Hall; now left | intros c Hc; apply Hall; now right].
Qed.

Lemma allBytes_I s : allBytes (fun c => byteIs c 73) s = true <-> onlyTags ["I"%char] s.
Proof.
  rewrite allBytes_spec. unfold onlyTags. split; intros Hall c Hc;
    specialize (Hall c Hc).
  - apply byteIs_eq in Hall as [-> _]. now left.
  - destruct Hall as [<-|[]]. reflexivity.
Qed.

Lemma allBytes_IR s :
  allBytes (fun c => byteIs c 73 || byteIs c 82) s = true <->
  onlyTags ["I"%char; "R"%char] s.
Proof.
  rewrite allBytes_spec. unfold onlyTags. split; intros Hall c Hc;
    specialize (Hall c Hc).
  - apply orb_true_iff in Hall as [Hi|Hr].
    + apply byteIs_eq in Hi as [-> _]. now left.
    + apply byteIs_eq in Hr as [-> _]. right. now left.
  - destruct Hall as [<-|[<-|[]]]; reflexivity.
Qed.

Lemma length_zero_empty s : String.length s = 0%nat -> s = "".
Proof. now destruct s. Qed.

Lemma schemaAccepted_iff record schemaStr :
  schemaAccepted record schemaStr <->
  schemaStr = schema record \/
  (String.length schemaStr = String.length (schema record) /\
   exists n, NumResults record = inr n /\ specialCase record schemaStr n = true).
Proof.
  unfold schemaAccepted, specialCase, allIs_MatchString, isAndRs_MatchString.
  split; (intros [He|Hs]; [now left|]).
  - destruct (String.string_dec schemaStr (schema record)) as [He|Hne]; [now left|].
    right. destruct Hs as (Hn & Hi & Hir & Hl). split; [exact Hl|].
    exists 0%Z. split; [exact Hn|].
    apply allBytes_I in Hi. apply allBytes_IR in Hir. rewrite Hi, Hir. simpl.
    destruct (schema record) as [|a s] eqn:Hsch.
    + apply length_zero_empty in Hl. contradiction.
    + destruct schemaStr; [discriminate | reflexivity].
  - right. destruct Hs as (Hl & n & Hn & Hb).
    repeat rewrite andb_true_iff in Hb. destruct Hb as [[Hz [_ Hi]] [_ Hir]].
    apply Z.eqb_eq in Hz. subst n.
    repeat split; auto; [now apply allBytes_I | now apply allBytes_IR].
Qed.

Lemma verifySchema_accepts {H} record schemaStr (w : World H) :
  schemaAccepted record schemaStr ->
  verifySchema record schemaStr w = Done true w.
Proof.
  rewrite schemaAccepted_iff. unfold verifySchema.
  intros [->|(Hl & n & Hn & Hb)].
  - now rewrite String.eqb_refl.
  - destruct (String.eqb schemaStr (schema record)); [reflexivity|]. simpl.
    unfold bind. rewrite Hl, Nat.eqb_refl, Hn. simpl.
    unfold specialCase in Hb. now rewrite Hb.
Qed.

Lemma verifySchema_rejects {H} record schemaStr (w : World H) current :
  ~ schemaAccepted record schemaStr ->
  recordType record = Query ->
  currRecord w = Some current ->
  verifySchema record schemaStr w =
    Done false (logged w (lineOf current (NotOk (SchemasDiffer (schema record) schemaStr)))).
Proof.
  rewrite schemaAccepted_iff. unfold verifySchema, logged, lineOf.
  intros Hno Hq Hcur.
  destruct (String.eqb_spec schemaStr (schema record)) as [He|Hne]; [tauto|]. simpl.
  unfold bind, logFailure, println, ret.
  destruct (Nat.eqb_spec (String.length schemaStr) (String.length (schema record)))
    as [Hl|Hl].
  - unfold NumResults, isQuery in *. rewrite Hq in *. simpl.
    set (n := match result record with [x] => _ | _ => _ end) in *.
    assert (Hn : exists z, n = inr z).
    { subst n. destruct (result record) as [|x [|y l]]; eauto.
      destruct (hashRegex_MatchString x); eauto. }
    destruct Hn as [z Hz]. rewrite Hz in *. simpl.
    destruct (Z.eqb z 0 && allIs_MatchString (schema record)
                && isAndRs_MatchString schemaStr) eqn:Hb.
    + exfalso. apply Hno. right. split; [exact Hl|]. exists z. split; auto.
    + now rewrite Hcur.
  - simpl. now rewrite Hcur.
Qed.


(** The schema check on the cases of the spec: an empty result set of
    integer columns accepts real columns, a non-empty one does not. *)
Example verifySchema_cases :
  let empty := mkRecord Query false [] "II" NoSort "SELECT a, b FROM t1" 2 [] "" 8 in
  let one := mkRecord Query false [] "II" NoSort "SELECT a, b FROM t1" 2 ["1"; "2"] "" 8 in
  let w := mkWorld tt (Some empty) [] [] [] in
  verifySchema empty "IR" w = Done true w /\
  verifySchema empty "IT" w =
    Done false (logged w (lineOf empty (NotOk (SchemasDiffer "II" "IT")))) /\
  verifySchema empty "IRI" w =
    Done false (logged w (lineOf empty (NotOk (SchemasDiffer "II" "IRI")))) /\
  verifySchema one "IR" w =
    Done false (logged w (lineOf empty (NotOk (SchemasDiffer "II" "IR")))).
Proof. repeat split. Qed.

(** ** Executing a record *)

Lemma executeBody_query {H} (harness : Harness H) record (w : World H)
    schemaStr values h' :
  recordType record = Query ->
  ShouldExecuteForEngine record (EngineStr harness (backend w)) = true ->
  ExecuteQuery harness (query record) (backend w) = Replied (schemaStr, values, None) h' ->
  executeBody harness record w =
    match verifySchema record schemaStr (afterQuery w record h' values) with
    | Done true w2 =>
        match verifyResults record w2 with
        | Done _ w3 => Done (mkExecuted schemaStr (observed w3) true None) w3
        | Panicking v w3 => Panicking v w3
        end
    | Done false w2 => Done (mkExecuted schemaStr (observed w2) true None) w2
    | Panicking v w2 => Panicking v w2
    end.
Proof.
  intros Hq He Hr.
  unfold executeBody, bind, setCurrRecord, engineStr, callBackend, setObserved,
    getObserved, ret, afterQuery.
  simpl. rewrite He, Hq. simpl. rewrite Hr. simpl.
  destruct (verifySchema record schemaStr _) as [[|] w2|v w2]; try reflexivity;
    destruct (verifyResults record w2); reflexivity.
Qed.

(** C4, as amended.  For an eligible query record whose query the backend
    answers, the schema check comes first: an observed schema that is not
    accepted is the record's one logged failure, whatever the number of
    observed values; once the schema is accepted, a number of observed
    values other than the expected count is logged as the failure, and
    verification stops there, the values unsorted and uncompared. *)
Theorem schema_check_before_count_check {H} (harness : Harness H) (record : Record)
    (w : World H) (schemaStr : string) (values : list string) (h' : H) (n : Z) :
  recordType record = Query ->
  ShouldExecuteForEngine record (EngineStr harness (backend w)) = true ->
  ExecuteQuery harness (query record) (backend w) = Replied (schemaStr, values, None) h' ->
  NumResults record = inr n ->
  (~ schemaAccepted record schemaStr ->
   executeRecord harness record w =
     Done (mkExecuted schemaStr values true None)
       (logged (afterQuery w record h' values)
          (lineOf record (NotOk (SchemasDiffer (schema record) schemaStr))))) /\
  (schemaAccepted record schemaStr ->
   Z.of_nat (List.length values) <> n ->
   executeRecord harness record w =
     Done (mkExecuted schemaStr values true None)
       (logged (afterQuery w record h' values)
          (lineOf record (NotOk (IncorrectNumber n (Z.of_nat (List.length values))))))).
Proof.
  intros Hq He Hr Hn. unfold executeRecord.
  rewrite (executeBody_query harness record w schemaStr values h' Hq He Hr).
  split.
  - intros Hno.
    rewrite (verifySchema_rejects record schemaStr (afterQuery w record h' values)
               record Hno Hq eq_refl).
    reflexivity.
  - intros Hyes Hlen. rewrite (verifySchema_accepts record schemaStr _ Hyes).
    unfold verifyResults, bind, getObserved, orPanic, ret. simpl.
    rewrite Hn. simpl.
    destruct (Z.eqb_spec (Z.of_nat (List.length values)) n) as [Heq|_]; [contradiction|].
    reflexivity.
Qed.

Lemma schema_check_before_count_check_witness :
  let record := mkRecord Query false [] "I" NoSort "SELECT a FROM t1" 2 ["1"; "2"] "" 8 in
  let line := mkLogLine 2 "SELECT a FROM t1" in
  executeRecord (fixedBackend "mysql" "T" ["1"]) record freshWorld =
    Done (mkExecuted "T" ["1"] true None)
      (mkWorld ["SELECT a FROM t1"] (Some record) ["1"]
         [line (NotOk (SchemasDiffer "I" "T"))] [CallQuery "SELECT a FROM t1"]) /\
  executeRecord (fixedBackend "mysql" "I" ["2"]) record freshWorld =
    Done (mkExecuted "I" ["2"] true None)
      (mkWorld ["SELECT a FROM t1"] (Some record) ["2"]
         [line (NotOk (IncorrectNumber 2 1))] [CallQuery "SELECT a FROM t1"]).
Proof.
  split.
  - apply (schema_check_before_count_check (fixedBackend "mysql" "T" ["1"])
             (mkRecord Query false [] "I" NoSort "SELECT a FROM t1" 2 ["1"; "2"] "" 8)
             freshWorld "T" ["1"] ["SELECT a FROM t1"] 2); try reflexivity.
    unfold schemaAccepted. intros [He|(Hn & _)]; [discriminate He|].
    vm_compute in Hn. discriminate Hn.
  - apply (schema_check_before_count_check (fixedBackend "mysql" "I" ["2"])
             (mkRecord Query false [] "I" NoSort "SELECT a FROM t1" 2 ["1"; "2"] "" 8)
             freshWorld "I" ["2"] ["SELECT a FROM t1"] 2); try reflexivity.
    + now left.
    + discriminate.
Defined.

(** C4, as stated, fails: the record expects two values of schema [I] and
    the backend returns one value of schema [T]; the failure logged is the
    schema's, not the count's. *)
Lemma count_mismatch_logged_as_schema_mismatch :
  let record := mkRecord Query false [] "I" NoSort "SELECT a FROM t1" 2 ["1"; "2"] "" 8 in
  NumResults record = inr 2%Z /\
  executeRecord (fixedBackend "mysql" "T" ["1"]) record freshWorld =
    Done (mkExecuted "T" ["1"] true None)
      (mkWorld ["SELECT a FROM t1"] (Some record) ["1"]
         [mkLogLine 2 "SELECT a FROM t1" (NotOk (SchemasDiffer "I" "T"))]
         [CallQuery "SELECT a FROM t1"]).
Proof. split; reflexivity. Qed.

(** ** Records that are not eligible *)

(** A record that is not eligible for the backend's engine never reaches
    the backend and gets no pass or fail line; a skip is logged for it when
    it is a statement or a query, and nothing at all when it is a Halt
    record. *)
Lemma ineligible_record_passed_over {H} (harness : Harness H) (record : Record)
    (w : World H) :
  ShouldExecuteForEngine record (EngineStr harness (backend w)) = false ->
  executeRecord harness record w = Done (mkExecuted "" [] false None) (passedOver w record).
Proof.
  intros He.
  unfold executeRecord, executeBody, bind, setCurrRecord, engineStr, logSkip,
    println, ret, passedOver, lineOf, isHalt.
  simpl. rewrite He. simpl.
  destruct (recordType record); simpl; try reflexivity.
  now rewrite app_nil_r.
Qed.

(** For a Halt record under [onlyif mysql], run for another engine, no
    skip is logged ("Log a skip for queries and statements only, not other
    control records"), and the run ends there as at every Halt record. *)
Lemma ineligible_halt_logs_no_skip :
  let halt := mkRecord Halt false [mkCondition true false "mysql"] "" "" "" 1 [] "" 8 in
  let next := mkRecord Statement false [] "" "" "SELECT 1" 4 [] "" 8 in
  ShouldExecuteForEngine halt "postgres" = false /\
  runRecords (fixedBackend "postgres" "I" []) [halt; next] freshWorld =
    Done tt (mkWorld [] (Some halt) [] [] []).
Proof. split; reflexivity. Qed.

(** C1, the slip.  For a statement or a query that is not eligible for
    the backend's engine, [executeRecord] logs the skip and does not call
    the backend, but it returns [cont = false]: the loop of [runTestFile]
    breaks there, and none of the records after the skipped one is
    executed or logged, whatever they are.  The world the run ends in is
    the one the skipped record left: one more line, the skip, and the same
    calls. *)
Theorem skipped_record_ends_the_run {H} (harness : Harness H) (record : Record)
    (rest : list Record) (w : World H) :
  ShouldExecuteForEngine record (EngineStr harness (backend w)) = false ->
  isHalt record = false ->
  executeRecord harness record w =
    Done (mkExecuted "" [] false None) (passedOver w record) /\
  cont (mkExecuted "" [] false None) = false /\
  runRecords harness (record :: rest) w = Done tt (passedOver w record) /\
  stdout (passedOver w record) = (stdout w ++ [lineOf record Skipped])%list /\
  calls (passedOver w record) = calls w /\
  backend (passedOver w record) = backend w.
Proof.
  intros He Hh.
  pose proof (ineligible_record_passed_over harness record w He) as Hx.
  split; [exact Hx|]. split; [reflexivity|]. split.
  - cbn [runRecords]. unfold bind. rewrite Hx. reflexivity.
  - unfold passedOver. rewrite Hh. repeat split.
Qed.

(** The failing input of C1: a statement under [skipif mysql] and a
    statement after it, run for the engine [mysql].  The file parses into
    the two records, and the run of the file logs the skip and ends: the
    second statement is neither executed nor logged. *)
Lemma skipped_record_ends_the_run_witness :
  let lines := ["skipif mysql"; "statement ok"; "INSERT INTO t1 VALUES(1)"; "";
                "statement ok"; "SELECT 1"] in
  let skipped := skipMysql "INSERT INTO t1 VALUES(1)" 3 in
  let next := mkRecord Statement false [] "" "" "SELECT 1" 6 [] "" 8 in
  let harness := fixedBackend "mysql" "I" [] in
  let w' := mkWorld [] (Some skipped) [] [mkLogLine 3 "INSERT INTO t1 VALUES(1)" Skipped] [] in
  ParseTestFile lines None = Some (Parsed [skipped; next]) /\
  ShouldExecuteForEngine next "mysql" = true /\
  runTestFile harness lines None freshWorld = Done tt w' /\
  (executeRecord harness skipped freshWorld =
     Done (mkExecuted "" [] false None) (passedOver freshWorld skipped) /\
   cont (mkExecuted "" [] false None) = false /\
   runRecords harness [skipped; next] freshWorld = Done tt (passedOver freshWorld skipped) /\
   stdout (passedOver freshWorld skipped) =
     (stdout freshWorld ++ [lineOf skipped Skipped])%list /\
   calls (passedOver freshWorld skipped) = calls freshWorld /\
   backend (passedOver freshWorld skipped) = backend freshWorld).
Proof.
  split; [vm_compute; reflexivity|]. split; [reflexivity|].
  split; [vm_compute; reflexivity|].
  apply (skipped_record_ends_the_run (fixedBackend "mysql" "I" [])
           (skipMysql "INSERT INTO t1 VALUES(1)" 3)
           [mkRecord Statement false [] "" "" "SELECT 1" 6 [] "" 8] freshWorld);
    reflexivity.
Defined.

(** The same two records elsewhere: for another engine the run executes
    both statements, and for [mysql] the loop of [generateTestFile], which
    has a [continue] where [runTestFile] breaks, goes on to the second
    statement after the skip. *)
Lemma records_after_a_skip_elsewhere :
  let skipped := skipMysql "INSERT INTO t1 VALUES(1)" 3 in
  let next := mkRecord Statement false [] "" "" "SELECT 1" 6 [] "" 8 in
  let lines := ["skipif mysql"; "statement ok"; "INSERT INTO t1 VALUES(1)"; "";
                "statement ok"; "SELECT 1"] in
  runRecords (fixedBackend "postgresql" "I" []) [skipped; next] freshWorld =
    Done tt (mkWorld ["INSERT INTO t1 VALUES(1)"; "SELECT 1"] (Some next) []
               [mkLogLine 3 "INSERT INTO t1 VALUES(1)" Ok; mkLogLine 6 "SELECT 1" Ok]
               [CallStatement "INSERT INTO t1 VALUES(1)"; CallStatement "SELECT 1"]) /\
  generateRecords (fixedBackend "mysql" "I" []) [skipped; next]
    (mkLineScanner lines 0 None) [] freshWorld =
    Done lines
      (mkWorld ["SELECT 1"] (Some next) []
         [mkLogLine 3 "INSERT INTO t1 VALUES(1)" Skipped; mkLogLine 6 "SELECT 1" Ok]
         [CallStatement "SELECT 1"]).
Proof. split; reflexivity. Qed.

(** The run loop stops at a skipped statement: [executeRecord] returns
    [cont = false] for it, so the statement after it is never executed. *)
Lemma skip_ends_the_run :
  let next := mkRecord Statement false [] "" "" "SELECT 1" 6 [] "" 8 in
  runRecords (fixedBackend "mysql" "I" [])
    [skipMysql "INSERT INTO t1 VALUES(1)" 3; next] freshWorld =
    Done tt (mkWorld [] (Some (skipMysql "INSERT INTO t1 VALUES(1)" 3)) []
               [mkLogLine 3 "INSERT INTO t1 VALUES(1)" Skipped] []).
Proof. reflexivity. Qed.

(** ** Sorting is done in place *)

Lemma insertBy_perm {A} (less : A -> A -> bool) x l :
  Permutation (insertBy less x l) (x :: l).
Proof.
  induction l as [|y l IH]; simpl; [reflexivity|].
  destruct (less x y); [reflexivity|].
  rewrite IH. apply perm_swap.
Qed.

Lemma sortBy_perm {A} (less : A -> A -> bool) l : Permutation (sortBy less l) l.
Proof.
  induction l as [|x l IH]; simpl; [reflexivity|].
  rewrite insertBy_perm. now constructor.
Qed.

Lemma firstn_plus {A} (a b : nat) : forall l : list A,
  firstn (a + b) l = (firstn a l ++ firstn b (skipn a l))%list.
Proof.
  induction a as [|a IH]; intros l; simpl; [reflexivity|].
  destruct l as [|x l]; simpl.
  - now rewrite firstn_nil.
  - now rewrite IH.
Qed.

(** The rows of [rowSorter], one after the other, are the values in whole
    rows. *)
Lemma rows_concat ncols values n :
  concat (map (toRow ncols values) (seq 0 n)) = firstn (n * ncols) values.
Proof.
  induction n as [|n IH]; [reflexivity|].
  rewrite seq_S, map_app, concat_app, IH. simpl.
  rewrite app_nil_r. unfold toRow.
  rewrite <- firstn_plus. f_equal. lia.
Qed.

Lemma concat_perm {A} (l l' : list (list A)) :
  Permutation l l' -> Permutation (concat l) (concat l').
Proof.
  intros Hp. rewrite <- (map_id l), <- (map_id l'), <- !flat_map_concat_map.
  now apply Permutation_flat_map.
Qed.

Lemma rowSort_perm ncols values : Permutation (rowSort ncols values) values.
Proof.
  unfold rowSort.
  rewrite (concat_perm _ _ (sortBy_perm Less _)), rows_concat.
  now rewrite firstn_skipn.
Qed.

(** ** Sorting: the sorted arrangement is unique *)

Section SortedArrangement.
Context {A : Type} (less : A -> A -> bool) (dom : A -> Prop).
Hypothesis less_asym : forall a b, dom a -> dom b -> less a b = true -> less b a = false.
Hypothesis less_trans : forall a b c, dom a -> dom b -> dom c ->
  less a b = true -> less b c = true -> less a c = true.
Hypothesis less_eq : forall a b, dom a -> dom b ->
  less a b = false -> less b a = false -> a = b.

Lemma insertBy_In x l y : In y (insertBy less x l) <-> y = x \/ In y l.
Proof.
  induction l as [|z l IH]; simpl.
  - split; [intros [<-|[]]; auto | intros [->|[]]; auto].
  - destruct (less x z); simpl; [intuition congruence|].
    rewrite IH. intuition congruence.
Qed.

Lemma insertBy_nonDecreasing x l :
  dom x -> Forall dom l -> nonDecreasing less l -> nonDecreasing less (insertBy less x l).
Proof.
  intros Hx Hd Hs. induction Hs as [|y l Hs IH Hy]; simpl.
  - repeat constructor.
  - inversion Hd as [|? ? Hdy Hdl]; subst.
    destruct (less x y) eqn:Hxy.
    + constructor; [now constructor|].
      constructor; [now apply less_asym|].
      rewrite Forall_forall in *. intros z Hz.
      destruct (less z x) eqn:Hzx; [|reflexivity].
      rewrite <- (Hy z Hz). symmetry. apply (less_trans z x y); auto.
    + constructor; [now apply IH|].
      rewrite Forall_forall in *. intros z Hz.
      apply insertBy_In in Hz as [->|Hz]; auto.
Qed.

Lemma sortBy_nonDecreasing l : Forall dom l -> nonDecreasing less (sortBy less l).
Proof.
  induction l as [|x l IH]; intros Hd; simpl; [constructor|].
  inversion Hd; subst. apply insertBy_nonDecreasing; auto.
  rewrite Forall_forall in *. intros y Hy.
  apply (Permutation_in _ (sortBy_perm less l)) in Hy. auto.
Qed.

Lemma nonDecreasing_unique l1 : forall l2,
  Forall dom l1 -> Permutation l1 l2 ->
  nonDecreasing less l1 -> nonDecreasing less l2 -> l1 = l2.
Proof.
  induction l1 as [|a l1 IH]; intros l2 Hd Hp H1 H2.
  - now apply Permutation_nil in Hp.
  - destruct l2 as [|b l2]; [now apply Permutation_sym, Permutation_nil in Hp|].
    inversion H1 as [|? ? H1' Ha]; inversion H2 as [|? ? H2' Hb]; subst.
    inversion Hd as [|? ? Hda Hdl]; subst.
    assert (Hdb : dom b).
    { assert (Hin : In b (a :: l1))
        by (apply (Permutation_in _ (Permutation_sym Hp)); now left).
      destruct Hin as [<-|Hin]; [auto | rewrite Forall_forall in Hdl; auto]. }
    assert (Hab : a = b).
    { assert (Hin1 : In a (b :: l2)) by (apply (Permutation_in _ Hp); now left).
      assert (Hin2 : In b (a :: l1))
        by (apply (Permutation_in _ (Permutation_sym Hp)); now left).
      destruct Hin1 as [->|Hin1]; [reflexivity|].
      destruct Hin2 as [->|Hin2]; [reflexivity|].
      rewrite Forall_forall in Ha, Hb.
      apply less_eq; auto. }
    subst b. f_equal. apply IH; auto.
    now apply Permutation_cons_inv in Hp.
Qed.

(** Whatever routine sorts [l], if it returns the elements of [l] in
    non-decreasing order, it returns [sortBy less l]. *)
Theorem sortBy_unique l l' :
  Forall dom l -> Permutation l l' -> nonDecreasing less l' -> l' = sortBy less l.
Proof.
  intros Hd Hp Hs. symmetry. apply nonDecreasing_unique; auto.
  - rewrite Forall_forall in *. intros y Hy.
    apply (Permutation_in _ (sortBy_perm less l)) in Hy. auto.
  - now rewrite sortBy_perm.
  - now apply sortBy_nonDecreasing.
Qed.
End SortedArrangement.

Lemma string_compare_trans a : forall b c,
  String.compare a b = Lt -> String.compare b c = Lt -> String.compare a c = Lt.
Proof.
  induction a as [|x a IH]; intros [|y b] [|z c]; simpl; try discriminate; auto.
  destruct (Ascii.compare x y) eqn:Hxy; try discriminate;
    destruct (Ascii.compare y z) eqn:Hyz; try discriminate; intros H1 H2.
  - apply Ascii.compare_eq_iff in Hxy, Hyz. subst.
    rewrite (proj2 (N.compare_eq_iff _ _) eq_refl : Ascii.compare z z = Eq).
    now apply (IH b).
  - apply Ascii.compare_eq_iff in Hxy. subst. now rewrite Hyz.
  - apply Ascii.compare_eq_iff in Hyz. subst. now rewrite Hxy.
  - assert (Hxz : Ascii.compare x z = Lt).
    { unfold Ascii.compare in *. rewrite N.compare_lt_iff in *. lia. }
    now rewrite Hxz.
Qed.

Lemma stringLess_asym a b : stringLess a b = true -> stringLess b a = false.
Proof.
  unfold stringLess, String.ltb. rewrite (String.compare_antisym b a).
  now destruct (String.compare a b).
Qed.

Lemma stringLess_trans a b c :
  stringLess a b = true -> stringLess b c = true -> stringLess a c = true.
Proof.
  unfold stringLess, String.ltb.
  destruct (String.compare a b) eqn:Hab; try discriminate.
  destruct (String.compare b c) eqn:Hbc; try discriminate.
  now rewrite (string_compare_trans a b c Hab Hbc).
Qed.

Lemma stringLess_eq a b : stringLess a b = false -> stringLess b a = false -> a = b.
Proof.
  unfold stringLess, String.ltb. rewrite (String.compare_antisym b a).
  destruct (String.compare a b) eqn:Hab; try discriminate.
  intros _ _. now apply String.compare_eq_iff.
Qed.

(** [sort.Strings]: any arrangement of the values in non-decreasing order
    is the one [SortResults] is modelled with. *)
Theorem sort_Strings_unique (results sorted : list string) :
  Permutation results sorted -> nonDecreasing stringLess sorted ->
  sorted = sortBy stringLess results.
Proof.
  apply (sortBy_unique stringLess (fun _ => True)); auto.
  - intros a b _ _. apply stringLess_asym.
  - intros a b c _ _ _. apply stringLess_trans.
  - intros a b _ _. apply stringLess_eq.
  - apply Forall_forall. auto.
Qed.

Lemma Less_asym n : forall a b,
  List.length a = n -> List.length b = n -> Less a b = true -> Less b a = false.
Proof.
  induction n as [|n IH]; intros [|x a] [|y b]; simpl; try discriminate; auto.
  intros Ha Hb. destruct (stringLess x y) eqn:Hxy.
  - intros _. now rewrite (stringLess_asym x y Hxy).
  - destruct (stringLess y x); [discriminate|]. apply IH; lia.
Qed.

Lemma Less_trans n : forall a b c,
  List.length a = n -> List.length b = n -> List.length c = n ->
  Less a b = true -> Less b c = true -> Less a c = true.
Proof.
  induction n as [|n IH]; intros [|x a] [|y b] [|z c]; simpl; try discriminate; auto.
  intros Ha Hb Hc.
  destruct (stringLess x y) eqn:Hxy.
  - intros _. destruct (stringLess y z) eqn:Hyz.
    + intros _. now rewrite (stringLess_trans x y z Hxy Hyz).
    + destruct (stringLess z y) eqn:Hzy; [discriminate|].
      rewrite (stringLess_eq y z Hyz Hzy) in Hxy. now rewrite Hxy.
  - destruct (stringLess y x) eqn:Hyx; [discriminate|].
    rewrite (stringLess_eq x y Hxy Hyx).
    destruct (stringLess y z); [auto|].
    destruct (stringLess z y); [discriminate|]. apply IH; lia.
Qed.

Lemma Less_eq n : forall a b,
  List.length a = n -> List.length b = n ->
  Less a b = false -> Less b a = false -> a = b.
Proof.
  induction n as [|n IH]; intros [|x a] [|y b]; simpl; try discriminate; auto.
  intros Ha Hb.
  destruct (stringLess x y) eqn:Hxy; [discriminate|].
  destruct (stringLess y x) eqn:Hyx; [discriminate|].
  intros H1 H2. rewrite (stringLess_eq x y Hxy Hyx). f_equal. apply IH; auto.
Qed.

(** [sort.Sort] on a [rowSorter]: any arrangement of rows of the same
    width in non-decreasing [Less] order is the one [rowSort] is modelled
    with. *)
Theorem sort_rows_unique (ncols : nat) (rows sorted : list (list string)) :
  Forall (fun row => List.length row = ncols) rows ->
  Permutation rows sorted -> nonDecreasing Less sorted ->
  sorted = sortBy Less rows.
Proof.
  apply (sortBy_unique Less (fun row => List.length row = ncols)).
  - intros a b. apply Less_asym.
  - intros a b c. apply Less_trans.
  - intros a b. apply Less_eq.
Qed.

(** The rows [rowSorter] compares all have the width of the schema. *)
Lemma rows_width (ncols : nat) (values : list string) :
  ncols <> 0%nat ->
  Forall (fun row => List.length row = ncols)
    (map (toRow ncols values) (seq 0 (Len ncols values))).
Proof.
  intros Hn. apply Forall_forall. intros row Hrow.
  apply in_map_iff in Hrow as (i & <- & Hi). apply in_seq in Hi.
  unfold toRow, Len in *. rewrite length_firstn, length_skipn.
  pose proof (Nat.Div0.mul_div_le (List.length values) ncols) as Hle.
  assert (Hi' : (ncols * S i <= ncols * (List.length values / ncols))%nat)
    by (apply Nat.mul_le_mono_l; lia).
  lia.
Qed.

(** Whatever the sort mode, [SortResults] rearranges the values it is
    given and nothing else. *)
Lemma SortResults_perm record results sorted :
  SortResults record results = inr sorted -> Permutation results sorted.
Proof.
  unfold SortResults.
  destruct (String.eqb (sortMode record) NoSort).
  { intros Hs. inversion Hs. reflexivity. }
  destruct (String.eqb (sortMode record) Rowsort).
  { destruct (NumCols record) as [v|[|ncols]]; try discriminate.
    intros Hs. inversion Hs. symmetry. apply rowSort_perm. }
  destruct (String.eqb (sortMode record) ValueSort); [|discriminate].
  intros Hs. inversion Hs. symmetry. apply sortBy_perm.
Qed.

Lemma println_onlyPrinted {H} o (w : World H) :
  onlyPrinted w (worldOf (println o w)).
Proof.
  unfold println, onlyPrinted.
  destruct (currRecord w) eqn:Hc; simpl; rewrite ?Hc; repeat split.
Qed.

(** What [results = record.SortResults(results)] comes to: a panic that
    leaves the world as it was, or the observed array sorted. *)
Lemma sortObserved_run {H} record (w : World H) :
  (exists v, SortResults record (observed w) = inl v /\
             sortObserved record w = Panicking v w) \/
  (exists sorted, SortResults record (observed w) = inr sorted /\
     sortObserved record w =
       Done tt (mkWorld (backend w) (currRecord w) sorted (stdout w) (calls w))).
Proof.
  unfold sortObserved, bind, getObserved, orPanic, setObserved, panic, ret.
  destruct (SortResults record (observed w)) as [v|sorted]; [left|right]; eauto.
Qed.

Lemma onlyPrinted_sortedInPlace {H} record (w w1 w' : World H) :
  sortedInPlace record w w1 -> onlyPrinted w1 w' -> sortedInPlace record w w'.
Proof.
  unfold sortedInPlace, onlyPrinted.
  intros (Hb & Hc & Hk & Ho) (Hb' & Hc' & Ho' & Hk').
  rewrite Hb', Hc', Hk', Ho'. auto.
Qed.

Lemma sortedInPlace_refl {H} record (w : World H) : sortedInPlace record w w.
Proof. unfold sortedInPlace. auto. Qed.

Lemma verifyRows_sortedInPlace {H} record (w : World H) :
  sortedInPlace record w (worldOf (verifyRows record w)).
Proof.
  unfold verifyRows, bind.
  destruct (sortObserved_run record w) as [(v & Hs & ->)|(sorted & Hs & ->)];
    [apply sortedInPlace_refl|].
  set (w1 := mkWorld _ _ sorted _ _).
  assert (H1 : sortedInPlace record w w1) by (unfold sortedInPlace; simpl; auto).
  unfold getObserved, orPanic. simpl.
  destruct (compareRows 0 (result record) sorted) as [v|[f|]]; simpl; auto;
    apply (onlyPrinted_sortedInPlace record w w1); auto;
    apply println_onlyPrinted.
Qed.

Lemma verifyHash_sortedInPlace {H} record (w : World H) :
  sortedInPlace record w (worldOf (verifyHash record w)).
Proof.
  unfold verifyHash, bind.
  destruct (sortObserved_run record w) as [(v & Hs & ->)|(sorted & Hs & ->)];
    [apply sortedInPlace_refl|].
  set (w1 := mkWorld _ _ sorted _ _).
  assert (H1 : sortedInPlace record w w1) by (unfold sortedInPlace; simpl; auto).
  unfold getObserved, orPanic. simpl.
  destruct (HashResult record) as [v|expected]; simpl; auto.
  destruct (negb (String.eqb expected (hashResults sorted)));
    apply (onlyPrinted_sortedInPlace record w w1); auto;
    apply println_onlyPrinted.
Qed.

(** The observed array after [verifyRows] and after [verifyHash]:
    sorted when [SortResults] returned, untouched when it panicked. *)
Lemma verifyRows_observed {H} record (w : World H) :
  observed (worldOf (verifyRows record w)) =
    match SortResults record (observed w) with
    | inr sorted => sorted
    | inl _ => observed w
    end.
Proof.
  unfold verifyRows, bind.
  destruct (sortObserved_run record w) as [(v & Hs & ->)|(sorted & Hs & ->)];
    rewrite Hs; [reflexivity|].
  set (w1 := mkWorld _ _ sorted _ _).
  unfold getObserved, orPanic. simpl.
  destruct (compareRows 0 (result record) sorted) as [v|[f|]]; simpl; auto;
    unfold logFailure, logSuccess;
    match goal with
    | |- context [println ?o ?w0] =>
        destruct (println_onlyPrinted o w0) as (_ & _ & Ho & _); exact Ho
    end.
Qed.

Lemma verifyHash_observed {H} record (w : World H) :
  observed (worldOf (verifyHash record w)) =
    match SortResults record (observed w) with
    | inr sorted => sorted
    | inl _ => observed w
    end.
Proof.
  unfold verifyHash, bind.
  destruct (sortObserved_run record w) as [(v & Hs & ->)|(sorted & Hs & ->)];
    rewrite Hs; [reflexivity|].
  set (w1 := mkWorld _ _ sorted _ _).
  unfold getObserved, orPanic. simpl.
  destruct (HashResult record) as [v|expected]; simpl; auto.
  destruct (negb (String.eqb expected (hashResults sorted)));
    unfold logFailure, logSuccess;
    match goal with
    | |- context [println ?o ?w0] =>
        destruct (println_onlyPrinted o w0) as (_ & _ & Ho & _); exact Ho
    end.
Qed.

(** The observed array after [verifyResults], in every case. *)
Lemma verifyResults_observed {H} record (w : World H) :
  observed (worldOf (verifyResults record w)) =
    match NumResults record with
    | inr n =>
        if Z.eqb (Z.of_nat (List.length (observed w))) n then
          match SortResults record (observed w) with
          | inr sorted => sorted
          | inl _ => observed w
          end
        else observed w
    | inl _ => observed w
    end.
Proof.
  unfold verifyResults, bind, getObserved, orPanic.
  destruct (NumResults record) as [v|n]; simpl; [reflexivity|].
  destruct (Z.eqb (Z.of_nat (List.length (observed w))) n); simpl.
  - destruct (IsHashResult record);
      [apply verifyHash_observed | apply verifyRows_observed].
  - unfold logFailure.
    match goal with
    | |- context [println ?o ?w0] =>
        destruct (println_onlyPrinted o w0) as (_ & _ & Ho & _); exact Ho
    end.
Qed.

(** C10, as amended.  Verification never writes to the record: after
    [verifyResults], returned or panicked, the record is what it was, its
    list of expected results included.  The observed values are sorted in
    the caller's own array, not in a copy.  When the count check has passed
    and [SortResults] returns, that array holds afterwards exactly what
    [SortResults] made of it, whatever the comparison then gave; when the
    count check has failed, or [NumResults] or [SortResults] has panicked,
    verification has stopped before any value was moved and the array is
    untouched.  In every case it holds the same values. *)
Theorem verification_keeps_record {H} (record : Record) (w : World H) :
  let w' := worldOf (verifyResults record w) in
  currRecord w' = currRecord w /\
  (forall sorted,
     NumResults record = inr (Z.of_nat (List.length (observed w))) ->
     SortResults record (observed w) = inr sorted ->
     observed w' = sorted) /\
  (NumResults record <> inr (Z.of_nat (List.length (observed w))) \/
   (exists v, SortResults record (observed w) = inl v) ->
   observed w' = observed w) /\
  Permutation (observed w) (observed w').
Proof.
  assert (Hs : sortedInPlace record w (worldOf (verifyResults record w))).
  { unfold verifyResults, bind, getObserved, orPanic.
    destruct (NumResults record) as [v|n]; simpl; [apply sortedInPlace_refl|].
    destruct (negb (Z.eqb (Z.of_nat (List.length (observed w))) n)).
    - apply (onlyPrinted_sortedInPlace record w w); [apply sortedInPlace_refl|].
      apply println_onlyPrinted.
    - destruct (IsHashResult record);
        [apply verifyHash_sortedInPlace | apply verifyRows_sortedInPlace]. }
  pose proof (verifyResults_observed record w) as Ho.
  destruct Hs as (_ & Hc & _ & Hp). cbv zeta. split; [exact Hc|]. split; [|split].
  - intros sorted Hn Hsort. rewrite Ho, Hn, Z.eqb_refl, Hsort. reflexivity.
  - intros Hstop. rewrite Ho.
    destruct (NumResults record) as [v|n]; [reflexivity|].
    destruct (Z.eqb_spec (Z.of_nat (List.length (observed w))) n) as [He|Hne];
      [|reflexivity].
    destruct Hstop as [Hn|(v & Hv)]; [subst n; now elim Hn | now rewrite Hv].
  - destruct Hp as [->|Hp]; [reflexivity | now apply SortResults_perm in Hp].
Qed.

(** C10, as amended, at work: two values in value-sort mode.  With the
    expected count 2 the array comes back sorted; with the expected count 3
    the count check fails and the array is as the backend returned it. *)
Lemma verification_keeps_record_witness :
  let record := mkRecord Query false [] "T" ValueSort "SELECT x FROM t1" 2 ["a"; "b"] "" 8 in
  let short := mkRecord Query false [] "T" ValueSort "SELECT x FROM t1" 2 ["a"; "b"; "c"] "" 8 in
  let w := mkWorld tt (Some record) ["b"; "a"] [] [] in
  observed (worldOf (verifyResults record w)) = ["a"; "b"] /\
  observed (worldOf (verifyResults short w)) = ["b"; "a"].
Proof.
  split.
  - apply (proj1 (proj2 (verification_keeps_record
             (mkRecord Query false [] "T" ValueSort "SELECT x FROM t1" 2 ["a"; "b"] "" 8)
             (mkWorld tt
                (Some (mkRecord Query false [] "T" ValueSort "SELECT x FROM t1" 2
                         ["a"; "b"] "" 8))
                ["b"; "a"] [] []))) ["a"; "b"]); reflexivity.
  - apply (proj1 (proj2 (proj2 (verification_keeps_record
             (mkRecord Query false [] "T" ValueSort "SELECT x FROM t1" 2
                ["a"; "b"; "c"] "" 8)
             (mkWorld tt
                (Some (mkRecord Query false [] "T" ValueSort "SELECT x FROM t1" 2
                         ["a"; "b"] "" 8))
                ["b"; "a"] [] []))))).
    left. vm_compute. discriminate.
Defined.

(** C10, as stated, fails: the values [b], [a] returned for a record in
    value-sort mode are in the order [a], [b] after verification, in the
    array the caller holds and in the results [executeRecord] returns; the
    record is as it was. *)
Lemma observed_values_sorted_in_place :
  let record := mkRecord Query false [] "T" ValueSort "SELECT x FROM t1" 2 ["a"; "b"] "" 8 in
  let w := mkWorld tt (Some record) ["b"; "a"] [] [] in
  verifyResults record w =
    Done tt (mkWorld tt (Some record) ["a"; "b"]
               [mkLogLine 2 "SELECT x FROM t1" Ok] []) /\
  executeRecord (fixedBackend "mysql" "T" ["b"; "a"]) record freshWorld =
    Done (mkExecuted "T" ["a"; "b"] true None)
      (mkWorld ["SELECT x FROM t1"] (Some record) ["a"; "b"]
         [mkLogLine 2 "SELECT x FROM t1" Ok] [CallQuery "SELECT x FROM t1"]).
Proof. split; reflexivity. Qed.

(* ================================================================== *)
(** * Further properties *)

(** ** One line a record, and no panic past [executeRecord] *)

(** [res] either returned with one more line printed, or panicked with
    nothing printed; the current record is [w]'s in both cases. *)
Definition oneLineOrPanic {H A} (w : World H) (res : Res H A) : Prop :=
  match res with
  | Done _ w' => currRecord w' = currRecord w /\ exists o cur,
                   currRecord w = Some cur /\ stdout w' = (stdout w ++ [lineOf cur o])%list
  | Panicking _ w' => currRecord w' = currRecord w /\ stdout w' = stdout w
  end.

Lemma println_run {H} (o : Outcome) (w : World H) cur :
  currRecord w = Some cur -> println o w = Done tt (logged w (lineOf cur o)).
Proof. intros Hc. unfold println, logged, lineOf. now rewrite Hc. Qed.

Lemma println_oneLine {H} (o : Outcome) (w w0 : World H) cur :
  currRecord w = Some cur -> currRecord w0 = currRecord w -> stdout w0 = stdout w ->
  oneLineOrPanic w0 (println o w).
Proof.
  intros Hc H0 Hs. rewrite (println_run o w cur Hc). simpl.
  rewrite H0, Hs. split; [reflexivity|]. exists o, cur. auto.
Qed.

Lemma verifyRows_oneLine {H} record (w : World H) cur :
  currRecord w = Some cur -> oneLineOrPanic w (verifyRows record w).
Proof.
  intros Hc. unfold verifyRows, bind.
  destruct (sortObserved_run record w) as [(v & Hs & ->)|(sorted & Hs & ->)];
    [simpl; auto|].
  unfold getObserved, orPanic. simpl.
  destruct (compareRows 0 (result record) sorted) as [v|[f|]]; simpl; auto;
    apply (println_oneLine _ _ w cur); auto.
Qed.

Lemma verifyHash_oneLine {H} record (w : World H) cur :
  currRecord w = Some cur -> oneLineOrPanic w (verifyHash record w).
Proof.
  intros Hc. unfold verifyHash, bind.
  destruct (sortObserved_run record w) as [(v & Hs & ->)|(sorted & Hs & ->)];
    [simpl; auto|].
  unfold getObserved, orPanic. simpl.
  destruct (HashResult record) as [v|expected]; simpl; auto.
  destruct (negb (String.eqb expected (hashResults sorted)));
    apply (println_oneLine _ _ w cur); auto.
Qed.

Lemma verifyResults_oneLine {H} record (w : World H) cur :
  currRecord w = Some cur -> oneLineOrPanic w (verifyResults record w).
Proof.
  intros Hc. unfold verifyResults, bind, getObserved, orPanic.
  destruct (NumResults record) as [v|n]; simpl; auto.
  destruct (negb (Z.eqb (Z.of_nat (List.length (observed w))) n)).
  - apply (println_oneLine _ _ w cur); auto.
  - destruct (IsHashResult record);
      [now apply verifyHash_oneLine with (cur := cur)
      | now apply verifyRows_oneLine with (cur := cur)].
Qed.

(** [verifySchema] returns true and prints nothing, returns false and
    prints one line, or panics and prints nothing. *)
Lemma verifySchema_oneLine {H} record schemaStr (w : World H) cur :
  currRecord w = Some cur ->
  verifySchema record schemaStr w = Done true w \/
  (exists f, verifySchema record schemaStr w = Done false (logged w (lineOf cur (NotOk f)))) \/
  (exists v, verifySchema record schemaStr w = Panicking v w).
Proof.
  intros Hc. unfold verifySchema.
  destruct (negb (String.eqb schemaStr (schema record))); [|now left].
  unfold bind, orPanic, logFailure.
  destruct (Nat.eqb (String.length schemaStr) (String.length (schema record))).
  - destruct (NumResults record) as [v|n]; simpl; [right; right; eauto|].
    destruct (Z.eqb n 0 && allIs_MatchString (schema record)
                && isAndRs_MatchString schemaStr); [now left|].
    right. left. rewrite (println_run _ w cur Hc). simpl. eauto.
  - simpl. right. left. rewrite (println_run _ w cur Hc). simpl. eauto.
Qed.

(** The body of [executeRecord]: a Halt record prints nothing and
    returns; any other record prints one line and returns, or panics
    before printing. *)
Lemma executeBody_oneLine {H} (harness : Harness H) record (w : World H) :
  match executeBody harness record w with
  | Done x w' =>
      currRecord w' = Some record /\
      exists printed, stdout w' = (stdout w ++ printed)%list /\
        (if isHalt record then printed = []
         else exists o, printed = [lineOf record o]) /\
        (cont x = false <->
         ShouldExecuteForEngine record (EngineStr harness (backend w)) = false \/
         isHalt record = true)
  | Panicking _ w' =>
      currRecord w' = Some record /\ stdout w' = stdout w /\ isHalt record = false /\
      ShouldExecuteForEngine record (EngineStr harness (backend w)) = true
  end.
Proof.
  unfold executeBody, bind, setCurrRecord, engineStr, isHalt. simpl.
  set (w0 := mkWorld (backend w) (Some record) (observed w) (stdout w) (calls w)).
  assert (Hc0 : currRecord w0 = Some record) by reflexivity.
  destruct (ShouldExecuteForEngine record (EngineStr harness (backend w))) eqn:He; simpl.
  - destruct (recordType record) eqn:Ht.
    + (* Statement *)
      unfold callBackend. simpl.
      destruct (ExecuteStatement harness (query record) (backend w)) as [err h|v h];
        simpl; [|auto].
      set (w1 := mkWorld h _ _ _ _).
      assert (Hc1 : currRecord w1 = Some record) by reflexivity.
      destruct (expectError record), err as [e|]; unfold logFailure, logSuccess;
        rewrite (println_run _ w1 record Hc1); simpl;
        (split; [reflexivity|]); eexists; (split; [reflexivity|]);
        (split; [eauto|]); (split; [discriminate | intros [?|?]; discriminate]).
    + (* Query *)
      unfold callBackend. simpl.
      destruct (ExecuteQuery harness (query record) (backend w))
        as [[[schemaStr results] err] h|v h]; simpl; [|auto].
      destruct err as [e|].
      * set (w1 := mkWorld h _ _ _ _).
        assert (Hc1 : currRecord w1 = Some record) by reflexivity.
        unfold logFailure. rewrite (println_run _ w1 record Hc1). simpl.
        split; [reflexivity|]. eexists. split; [reflexivity|].
        split; [eauto|]. split; [discriminate | intros [?|?]; discriminate].
      * unfold setObserved. simpl.
        set (w1 := mkWorld h (Some record) results (stdout w) _).
        assert (Hc1 : currRecord w1 = Some record) by reflexivity.
        destruct (verifySchema_oneLine record schemaStr w1 record Hc1)
          as [->|[(f & ->)|(v & ->)]]; simpl; auto.
        -- pose proof (verifyResults_oneLine record w1 record Hc1) as Hv.
           destruct (verifyResults record w1) as [[] w2|v w2]; simpl in *.
           ++ destruct Hv as (Hc2 & o & cur & Hcur & Hs). inversion Hcur; subst cur.
              unfold getObserved, ret. simpl.
              split; [congruence|]. exists [lineOf record o]. split; [exact Hs|].
              split; [eauto|]. split; [discriminate | intros [?|?]; discriminate].
           ++ destruct Hv as (Hc2 & Hs). repeat split; congruence.
        -- unfold getObserved, ret. simpl.
           split; [reflexivity|]. eexists. split; [reflexivity|].
           split; [eauto|]. split; [discriminate | intros [?|?]; discriminate].
    + (* Halt *)
      unfold ret. simpl. split; [reflexivity|]. exists []. rewrite app_nil_r.
      repeat split; auto.
  - destruct (recordType record) eqn:Ht; unfold logSkip;
      try rewrite (println_run _ w0 record Hc0); unfold ret; simpl;
      (split; [reflexivity|]).
    + eexists. split; [reflexivity|]. split; [eauto|]. split; auto.
    + eexists. split; [reflexivity|]. split; [eauto|]. split; auto.
    + exists []. rewrite app_nil_r. repeat split; auto.
Qed.

(** X1.  [executeRecord] always returns, whatever the backend does: a
    panic of the backend or of the verification is recovered.  It leaves
    the record as the current one and has printed exactly one line, about
    that record, unless the record is a Halt record, for which it prints
    nothing. *)
Theorem executeRecord_returns {H} (harness : Harness H) (record : Record) (w : World H) :
  exists x w',
    executeRecord harness record w = Done x w' /\
    currRecord w' = Some record /\
    exists printed,
      stdout w' = (stdout w ++ printed)%list /\
      if isHalt record then printed = [] else exists o, printed = [lineOf record o].
Proof.
  unfold executeRecord.
  pose proof (executeBody_oneLine harness record w) as Hb.
  destruct (executeBody harness record w) as [x w'|v w'].
  - destruct Hb as (Hc & printed & Hs & Hp & _). exists x, w'. eauto.
  - destruct Hb as (Hc & Hs & Hh & _).
    unfold bind, logFailure. rewrite (println_run _ w' record Hc). simpl.
    do 2 eexists. split; [reflexivity|]. split; [exact Hc|].
    exists [lineOf record (NotOk (CaughtPanic v))].
    simpl. rewrite Hs, Hh. eauto.
Qed.

(** X2.  [executeRecord] tells the run loop to stop ([cont = false])
    exactly for a record that is a Halt record or is not eligible for the
    backend's engine; after a recovered panic it tells it to go on. *)
Theorem executeRecord_cont {H} (harness : Harness H) (record : Record) (w : World H)
    (x : Executed) (w' : World H) :
  executeRecord harness record w = Done x w' ->
  (cont x = false <->
   ShouldExecuteForEngine record (EngineStr harness (backend w)) = false \/
   isHalt record = true).
Proof.
  unfold executeRecord.
  pose proof (executeBody_oneLine harness record w) as Hb.
  destruct (executeBody harness record w) as [x0 w0|v w0].
  - intros Hx. inversion Hx; subst. now destruct Hb as (_ & _ & _ & _ & Hcont).
  - destruct Hb as (Hc & _ & Hh & He).
    unfold bind, logFailure. rewrite (println_run _ w0 record Hc). simpl.
    intros Hx. inversion Hx; subst. simpl. rewrite He, Hh.
    split; [discriminate | intros [?|?]; discriminate].
Qed.

Lemma executeRecord_cont_witness :
  let halt := mkRecord Halt false [] "" "" "" 4 [] "" 8 in
  executeRecord (fixedBackend "mysql" "I" []) halt freshWorld
    = Done (mkExecuted "" [] false None) (mkWorld [] (Some halt) [] [] []) /\
  (cont (mkExecuted "" [] false None) = false <->
   ShouldExecuteForEngine halt "mysql" = false \/ isHalt halt = true).
Proof.
  split; [reflexivity|].
  apply (executeRecord_cont (fixedBackend "mysql" "I" [])
           (mkRecord Halt false [] "" "" "" 4 [] "" 8) freshWorld
           (mkExecuted "" [] false None) (mkWorld [] (Some (mkRecord Halt false [] "" "" "" 4 [] "" 8)) [] [] [])).
  reflexivity.
Defined.

Lemma executeRecord_Done {H} (harness : Harness H) record (w : World H) :
  exists x w', executeRecord harness record w = Done x w' /\
    (List.length (stdout w') <= List.length (stdout w) + (if isHalt record then 0 else 1))%nat /\
    (List.length (stdout w) <= List.length (stdout w'))%nat.
Proof.
  unfold executeRecord.
  pose proof (executeBody_oneLine harness record w) as Hb.
  destruct (executeBody harness record w) as [x w'|v w'].
  - destruct Hb as (Hc & printed & Hs & Hp & _). exists x, w'.
    split; [reflexivity|]. rewrite Hs, length_app.
    destruct (isHalt record); [subst printed | destruct Hp as [o ->]]; simpl; lia.
  - destruct Hb as (Hc & Hs & Hh & _).
    unfold bind, logFailure. rewrite (println_run _ w' record Hc). simpl.
    do 2 eexists. split; [reflexivity|]. simpl. rewrite length_app, Hs, Hh. simpl. lia.
Qed.

Lemma executeRecord_stops {H} (harness : Harness H) record (w : World H) x w' :
  executeRecord harness record w = Done x w' -> isHalt record = true -> cont x = false.
Proof.
  unfold executeRecord.
  pose proof (executeBody_oneLine harness record w) as Hb.
  destruct (executeBody harness record w) as [x0 w0|v w0].
  - intros Hx Hh. inversion Hx; subst. destruct Hb as (_ & _ & _ & _ & Hcont).
    apply Hcont. now right.
  - destruct Hb as (_ & _ & Hh & _). congruence.
Qed.

(** X3.  The loop of [runTestFile] never panics, and prints at most one
    line for each record that is not a Halt record. *)
Theorem runRecords_returns {H} (harness : Harness H) (testRecords : list Record)
    (w : World H) :
  exists w',
    runRecords harness testRecords w = Done tt w' /\
    (List.length (stdout w) <= List.length (stdout w')
       <= List.length (stdout w) + nonHalt testRecords)%nat.
Proof.
  revert w. induction testRecords as [|record rest IH]; intros w.
  - exists w. split; [reflexivity|]. unfold nonHalt. simpl. lia.
  - simpl. unfold bind.
    destruct (executeRecord_Done harness record w) as (x & w1 & -> & Hle & Hge).
    assert (Hn : nonHalt (record :: rest)
                 = ((if isHalt record then 0 else 1) + nonHalt rest)%nat).
    { unfold nonHalt. simpl. now destruct (isHalt record). }
    destruct (cont x); simpl.
    + destruct (IH w1) as (w' & -> & Hb). exists w'. split; [reflexivity|]. lia.
    + exists w1. split; [reflexivity|]. lia.
Qed.

(** X4.  A Halt record ends the run: the records after it are never
    executed, whatever they are. *)
Theorem runRecords_halt {H} (harness : Harness H) (before after : list Record)
    (halt : Record) (w : World H) :
  isHalt halt = true ->
  runRecords harness (before ++ halt :: after) w
  = runRecords harness (before ++ [halt]) w.
Proof.
  intros Hh. revert w. induction before as [|record before IH]; intros w; simpl.
  - unfold bind.
    destruct (executeRecord harness halt w) as [x w'|v w'] eqn:Hx; [|reflexivity].
    now rewrite (executeRecord_stops harness halt w x w' Hx Hh).
  - unfold bind. destruct (executeRecord harness record w) as [x w'|v w']; [|reflexivity].
    destruct (cont x); simpl; [apply IH | reflexivity].
Qed.

(** ** What passes *)











(** X7.  A statement the backend executes passes exactly when an error
    came back if and only if the record expects one.  The statement's text
    is sent to the backend once, one line is logged, the run goes on, and
    the error is handed back only when it was not expected. *)
Theorem statement_passes_iff {H} (harness : Harness H) (record : Record) (w : World H)
    (err : option string) (h' : H) :
  recordType record = Statement ->
  ShouldExecuteForEngine record (EngineStr harness (backend w)) = true ->
  ExecuteStatement harness (query record) (backend w) = Replied err h' ->
  exists o,
    executeRecord harness record w =
      Done (mkExecuted "" [] true (if expectError record then None else err))
        (mkWorld h' (Some record) (observed w) (stdout w ++ [lineOf record o])
           (calls w ++ [CallStatement (query record)])) /\
    (o = Ok <-> (expectError record = true <-> err <> None)).
Proof.
  intros Hs He Hx.
  unfold executeRecord, executeBody, bind, setCurrRecord, engineStr, callBackend.
  cbn [backend currRecord observed stdout calls]. rewrite He. cbn [negb].
  rewrite Hs. unfold bind, callBackend. cbn [backend currRecord observed stdout calls].
  rewrite Hx.
  destruct (expectError record), err as [e|];
    unfold logFailure, logSuccess, println, bind, ret, lineOf;
    cbn [backend currRecord observed stdout calls].
  - exists Ok. split; [reflexivity|]. split; [|reflexivity].
    intros _. split; [discriminate | reflexivity].
  - exists (NotOk ExpectedError). split; [reflexivity|]. split; [discriminate|].
    intros [Hr _]. now specialize (Hr eq_refl).
  - exists (NotOk (UnexpectedError e)). split; [reflexivity|]. split; [discriminate|].
    intros [_ Hr]. specialize (Hr ltac:(discriminate)). discriminate.
  - exists Ok. split; [reflexivity|]. split; [|reflexivity].
    intros _. split; [discriminate | congruence].
Qed.

Lemma statement_passes_iff_witness :
  let record :=
    mkRecord Statement true [] "" "" "INSERT INTO t1 VALUES(1)" 3 [] "" 8 in
  exists o,
    executeRecord (fixedBackend "mysql" "" []) record freshWorld =
      Done (mkExecuted "" [] true None)
        (mkWorld ["INSERT INTO t1 VALUES(1)"] (Some record) []
           ([] ++ [lineOf record o]) ([] ++ [CallStatement "INSERT INTO t1 VALUES(1)"])) /\
    (o = Ok <-> (true = true <-> @None string <> None)).
Proof.
  apply (statement_passes_iff (fixedBackend "mysql" "" [])
           (mkRecord Statement true [] "" "" "INSERT INTO t1 VALUES(1)" 3 [] "" 8)
           freshWorld None ["INSERT INTO t1 VALUES(1)"]); reflexivity.
Defined.

Lemma runRecords_halt_witness :
  let insert := mkRecord Statement false [] "" "" "INSERT INTO t1 VALUES(1)" 1 [] "" 8 in
  let halt := mkRecord Halt false [] "" "" "" 3 [] "" 8 in
  runRecords (fixedBackend "mysql" "" []) ([insert] ++ halt :: [insert; insert]) freshWorld
  = runRecords (fixedBackend "mysql" "" []) ([insert] ++ [halt]) freshWorld.
Proof.
  apply (runRecords_halt (fixedBackend "mysql" "" [])
           [mkRecord Statement false [] "" "" "INSERT INTO t1 VALUES(1)" 1 [] "" 8]
           [mkRecord Statement false [] "" "" "INSERT INTO t1 VALUES(1)" 1 [] "" 8;
            mkRecord Statement false [] "" "" "INSERT INTO t1 VALUES(1)" 1 [] "" 8]
           (mkRecord Halt false [] "" "" "" 3 [] "" 8) freshWorld).
  reflexivity.
Defined.

(** X8.  A panic of the backend while it executes a statement or a
    query does not end the run: [executeRecord] catches it, logs it as the
    failure of the record, and returns with [cont] set and no error, no
    schema and no results. *)
Theorem backend_panic_caught {H} (harness : Harness H) (record : Record) (w : World H)
    (v : PanicValue) (h' : H) :
  ShouldExecuteForEngine record (EngineStr harness (backend w)) = true ->
  (recordType record = Statement /\
   ExecuteStatement harness (query record) (backend w) = Raised v h') \/
  (recordType record = Query /\
   ExecuteQuery harness (query record) (backend w) = Raised v h') ->
  executeRecord harness record w =
    Done (mkExecuted "" [] true None)
      (mkWorld h' (Some record) (observed w)
         (stdout w ++ [lineOf record (NotOk (CaughtPanic v))])
         (calls w ++ [match recordType record with
                      | Query => CallQuery (query record)
                      | _ => CallStatement (query record)
                      end])).
Proof.
  intros He Hx.
  unfold executeRecord, executeBody, bind, setCurrRecord, engineStr, callBackend.
  cbn [backend currRecord observed stdout calls]. rewrite He. cbn [negb].
  destruct Hx as [(Ht & Hx)|(Ht & Hx)]; rewrite Ht;
    cbn [backend currRecord observed stdout calls]; rewrite Hx; reflexivity.
Qed.

Lemma backend_panic_caught_witness :
  let harness :=
    mkHarness (fun _ : unit => "mysql") (fun h => Replied None h)
      (fun _ h => Raised (PanicString "connection lost") h)
      (fun _ h => Raised (PanicString "connection lost") h) in
  let record := mkRecord Statement false [] "" "" "INSERT INTO t1 VALUES(1)" 3 [] "" 8 in
  executeRecord harness record (mkWorld tt None [] [] []) =
    Done (mkExecuted "" [] true None)
      (mkWorld tt (Some record) []
         ([] ++ [lineOf record (NotOk (CaughtPanic (PanicString "connection lost")))])
         ([] ++ [CallStatement "INSERT INTO t1 VALUES(1)"])).
Proof.
  apply (backend_panic_caught
           (mkHarness (fun _ : unit => "mysql") (fun h => Replied None h)
              (fun _ h => Raised (PanicString "connection lost") h)
              (fun _ h => Raised (PanicString "connection lost") h))
           (mkRecord Statement false [] "" "" "INSERT INTO t1 VALUES(1)" 3 [] "" 8)
           (mkWorld tt None [] [] []) (PanicString "connection lost") tt);
    [reflexivity | left; split; reflexivity].
Defined.

(** ** Sorting *)

Lemma toRow_shift ncols row rest i :
  List.length row = ncols ->
  toRow ncols (row ++ rest) (S i) = toRow ncols rest i.
Proof.
  intros Hl. unfold toRow. f_equal.
  replace (S i * ncols)%nat with (i * ncols + List.length row)%nat by (simpl; lia).
  rewrite <- skipn_skipn. f_equal.
  now rewrite skipn_app, skipn_all, Nat.sub_diag.
Qed.

(** Whole rows followed by anything read back as those rows. *)
Lemma rows_of_concat ncols (rows : list (list string)) rest :
  Forall (fun row => List.length row = ncols) rows ->
  map (toRow ncols (concat rows ++ rest)) (seq 0 (List.length rows)) = rows.
Proof.
  induction 1 as [|row rows Hrow Hrows IH]; [reflexivity|].
  cbn [List.length seq map concat]. f_equal.
  - unfold toRow. simpl. rewrite <- app_assoc, firstn_app, <- Hrow.
    now rewrite firstn_all, Nat.sub_diag, firstn_O, app_nil_r.
  - rewrite <- seq_shift, map_map, <- app_assoc.
    rewrite <- IH at 2. apply map_ext. intros i. now apply toRow_shift.
Qed.

Lemma concat_length_rows ncols (rows : list (list string)) :
  Forall (fun row => List.length row = ncols) rows ->
  List.length (concat rows) = (List.length rows * ncols)%nat.
Proof.
  induction 1 as [|row rows Hrow Hrows IH]; [reflexivity|].
  simpl. rewrite length_app, IH, Hrow. reflexivity.
Qed.

Lemma sortBy_length {A} (less : A -> A -> bool) l :
  List.length (sortBy less l) = List.length l.
Proof. apply Permutation_length, sortBy_perm. Qed.

Lemma sortBy_widths ncols (rows : list (list string)) :
  Forall (fun row => List.length row = ncols) rows ->
  Forall (fun row => List.length row = ncols) (sortBy Less rows).
Proof.
  intros Hw. rewrite Forall_forall in *. intros row Hin.
  apply Hw. now apply (Permutation_in _ (sortBy_perm Less rows)).
Qed.

(** What [sort.Sort] on a [rowSorter] leaves in the array, row by row. *)
Lemma rowSort_rows ncols values :
  ncols <> 0%nat ->
  Len ncols (rowSort ncols values) = Len ncols values /\
  rowsOf ncols (rowSort ncols values) = sortBy Less (rowsOf ncols values) /\
  partialRow ncols (rowSort ncols values) = partialRow ncols values.
Proof.
  intros Hn.
  assert (HL : Len ncols (rowSort ncols values) = Len ncols values).
  { unfold Len. now rewrite (Permutation_length (rowSort_perm ncols values)). }
  pose proof (sortBy_widths ncols _ (rows_width ncols values Hn)) as Hw.
  assert (Hlen : List.length (sortBy Less (map (toRow ncols values)
                                  (seq 0 (Len ncols values)))) = Len ncols values).
  { now rewrite sortBy_length, length_map, length_seq. }
  split; [exact HL|]. unfold rowsOf, partialRow. rewrite HL. split.
  - unfold rowSort.
    pose proof (rows_of_concat ncols _ (skipn (Len ncols values * ncols) values) Hw) as Hr.
    now rewrite Hlen in Hr.
  - unfold rowSort.
    rewrite skipn_app, (concat_length_rows ncols _ Hw), Hlen.
    now rewrite skipn_all2, Nat.sub_diag by (rewrite (concat_length_rows ncols _ Hw); lia).
Qed.

Lemma nonDecreasing_stringLess l : nonDecreasing stringLess (sortBy stringLess l).
Proof.
  apply (sortBy_nonDecreasing stringLess (fun _ => True)).
  - intros a b _ _. apply stringLess_asym.
  - intros a b c _ _ _. apply stringLess_trans.
  - apply Forall_forall. auto.
Qed.

Lemma nonDecreasing_Less ncols rows :
  Forall (fun row => List.length row = ncols) rows ->
  nonDecreasing Less (sortBy Less rows).
Proof.
  apply (sortBy_nonDecreasing Less (fun row => List.length row = ncols)).
  - intros a b. apply Less_asym.
  - intros a b c. apply Less_trans.
Qed.

(** X9.  In [valuesort] mode [SortResults] hands back the same values in
    ascending byte order, one by one and not row by row, whatever the
    record's type and schema. *)
Theorem SortResults_valuesort (r : Record) (results : list string) :
  sortMode r = ValueSort ->
  exists sorted, SortResults r results = inr sorted /\
    Permutation results sorted /\ nonDecreasing stringLess sorted.
Proof.
  unfold SortResults. intros ->.
  exists (sortBy stringLess results). split; [reflexivity|]. split.
  - symmetry. apply sortBy_perm.
  - apply nonDecreasing_stringLess.
Qed.

Lemma SortResults_valuesort_witness :
  let r := mkRecord Query false [] "II" ValueSort "SELECT a, b FROM t1" 2 [] "" 8 in
  SortResults r ["2"; "x"; "1"; "z"; "10"] = inr ["1"; "10"; "2"; "x"; "z"] /\
  exists sorted, SortResults r ["2"; "x"; "1"; "z"; "10"] = inr sorted /\
    Permutation ["2"; "x"; "1"; "z"; "10"] sorted /\ nonDecreasing stringLess sorted.
Proof.
  split; [reflexivity|].
  apply (SortResults_valuesort
           (mkRecord Query false [] "II" ValueSort "SELECT a, b FROM t1" 2 [] "" 8)
           ["2"; "x"; "1"; "z"; "10"]).
  reflexivity.
Defined.

(** X10.  In [rowsort] mode, for a query with [ncols] columns, the whole
    rows of the values come back in ascending order, compared column by
    column from the left; the rows are the same rows, and the values left
    over after the last whole row stay in place behind them. *)
Theorem SortResults_rowsort (r : Record) (results : list string) (ncols : nat) :
  sortMode r = Rowsort -> NumCols r = inr ncols -> ncols <> 0%nat ->
  exists sorted,
    SortResults r results = inr sorted /\
    Permutation (rowsOf ncols results) (rowsOf ncols sorted) /\
    nonDecreasing Less (rowsOf ncols sorted) /\
    partialRow ncols sorted = partialRow ncols results /\
    sorted = (concat (rowsOf ncols sorted) ++ partialRow ncols results)%list.
Proof.
  intros Hm Hc Hn. unfold SortResults. rewrite Hm, Hc. simpl.
  destruct ncols as [|k]; [contradiction|].
  exists (rowSort (S k) results). split; [reflexivity|].
  destruct (rowSort_rows (S k) results Hn) as (HL & Hrows & Hpart).
  rewrite Hrows, Hpart. repeat split.
  - symmetry. apply sortBy_perm.
  - apply (nonDecreasing_Less (S k)). now apply rows_width.
Qed.

Lemma SortResults_rowsort_witness :
  let r := mkRecord Query false [] "II" Rowsort "SELECT a, b FROM t1" 2 [] "" 8 in
  SortResults r ["2"; "x"; "1"; "z"; "1"; "y"; "0"] =
    inr ["1"; "y"; "1"; "z"; "2"; "x"; "0"] /\
  exists sorted,
    SortResults r ["2"; "x"; "1"; "z"; "1"; "y"; "0"] = inr sorted /\
    Permutation (rowsOf 2 ["2"; "x"; "1"; "z"; "1"; "y"; "0"]) (rowsOf 2 sorted) /\
    nonDecreasing Less (rowsOf 2 sorted) /\
    partialRow 2 sorted = partialRow 2 ["2"; "x"; "1"; "z"; "1"; "y"; "0"] /\
    sorted = (concat (rowsOf 2 sorted) ++ partialRow 2 ["2"; "x"; "1"; "z"; "1"; "y"; "0"])%list.
Proof.
  split; [reflexivity|].
  apply (SortResults_rowsort
           (mkRecord Query false [] "II" Rowsort "SELECT a, b FROM t1" 2 [] "" 8)
           ["2"; "x"; "1"; "z"; "1"; "y"; "0"] 2); [reflexivity | reflexivity | lia].
Defined.

Lemma sortBy_sorted_strings l : sortBy stringLess (sortBy stringLess l) = sortBy stringLess l.
Proof.
  symmetry. apply sort_Strings_unique; [reflexivity | apply nonDecreasing_stringLess].
Qed.

Lemma sortBy_sorted_rows ncols rows :
  Forall (fun row => List.length row = ncols) rows ->
  sortBy Less (sortBy Less rows) = sortBy Less rows.
Proof.
  intros Hw. symmetry. apply (sort_rows_unique ncols).
  - now apply sortBy_widths.
  - reflexivity.
  - now apply (nonDecreasing_Less ncols).
Qed.

(** X11.  Sorting is idempotent: values that [SortResults] has sorted
    come back unchanged when it sorts them again for the same record. *)
Theorem SortResults_idempotent (r : Record) (results sorted : list string) :
  SortResults r results = inr sorted -> SortResults r sorted = inr sorted.
Proof.
  unfold SortResults.
  destruct (String.eqb (sortMode r) NoSort); [auto|].
  destruct (String.eqb (sortMode r) Rowsort).
  { destruct (NumCols r) as [v|[|k]]; try discriminate.
    intros Hs. injection Hs as <-. f_equal.
    assert (Hn : S k <> 0%nat) by lia.
    destruct (rowSort_rows (S k) results Hn) as (HL & Hrows & Hpart).
    unfold rowSort at 1. fold (rowsOf (S k) (rowSort (S k) results)).
    fold (partialRow (S k) (rowSort (S k) results)).
    rewrite Hrows, Hpart, (sortBy_sorted_rows (S k)) by now apply rows_width.
    reflexivity. }
  destruct (String.eqb (sortMode r) ValueSort); [|discriminate].
  intros Hs. injection Hs as <-. f_equal. apply sortBy_sorted_strings.
Qed.

Lemma SortResults_idempotent_witness :
  let r := mkRecord Query false [] "II" Rowsort "SELECT a, b FROM t1" 2 [] "" 8 in
  SortResults r ["1"; "y"; "1"; "z"; "2"; "x"; "0"] =
    inr ["1"; "y"; "1"; "z"; "2"; "x"; "0"].
Proof.
  apply (SortResults_idempotent
           (mkRecord Query false [] "II" Rowsort "SELECT a, b FROM t1" 2 [] "" 8)
           ["2"; "x"; "1"; "z"; "1"; "y"; "0"] ["1"; "y"; "1"; "z"; "2"; "x"; "0"]).
  reflexivity.
Defined.

(** X12.  [SortResults] returns exactly for the three sort modes, and in
    [rowsort] mode only for a query record with at least one column: on a
    statement record [NumCols] panics, and with an empty schema [Len]
    divides by zero. *)
Theorem SortResults_returns_iff (r : Record) (results : list string) :
  (exists sorted, SortResults r results = inr sorted) <->
  sortMode r = NoSort \/ sortMode r = ValueSort \/
  (sortMode r = Rowsort /\ recordType r = Query /\ schema r <> "").
Proof.
  unfold SortResults, NumCols, isQuery.
  destruct (String.eqb_spec (sortMode r) NoSort) as [Hn|Hn].
  { split; eauto. }
  destruct (String.eqb_spec (sortMode r) Rowsort) as [Hr|Hr].
  { assert (Hv : sortMode r <> ValueSort) by (rewrite Hr; discriminate).
    destruct (recordType r); simpl.
    - split; [intros [s Hs]; discriminate | intros [?|[?|(_ & ? & _)]]; congruence].
    - destruct (schema r) as [|c s]; simpl.
      + split; [intros [s Hs]; discriminate | intros [?|[?|(_ & _ & ?)]]; congruence].
      + split; [|eauto]. intros _. right. right. repeat split; auto. discriminate.
    - split; [intros [s Hs]; discriminate | intros [?|[?|(_ & ? & _)]]; congruence]. }
  destruct (String.eqb_spec (sortMode r) ValueSort) as [Hv|Hv].
  { split; eauto. }
  split; [intros [s Hs]; discriminate | intros [?|[?|(? & _)]]; congruence].
Qed.

(** ** The parser: line numbers, errors, whole records *)

Lemma step_lineNum ln p line :
  match step ln p line with
  | Continue p' =>
      lineNum (record p') = lineNum (record p) \/
      (lineNum (record p) = 0%Z /\ lineNum (record p') = ln /\ HasPrefix line "#" = false)
  | Return r =>
      lineNum r = lineNum (record p) \/ (lineNum r = ln /\ HasPrefix line "#" = false)
  | _ => True
  end.
Proof.
  destruct (step ln p line) eqn:Hs; auto;
    destruct p as [r0 st qb]; simpl in *;
    destruct st; step_cases; inversion Hs; subst; simpl; auto;
    match goal with
    | H : (lineNum r0 =? 0)%Z = true |- _ => apply Z.eqb_eq in H; auto
    end.
Qed.

Lemma inheritThreshold_lineNum prev r : lineNum (inheritThreshold prev r) = lineNum r.
Proof.
  unfold inheritThreshold.
  destruct (Z.eqb (hashThreshold r) hashThresholdUnset); [destruct prev|]; reflexivity.
Qed.

Lemma afterLoop_lineNum p err r :
  afterLoop p err = GotRecord (Some r) ->
  lineNum r = lineNum (record p) /\ lineNum r <> 0%Z.
Proof.
  intros Ha. destruct (afterLoop_GotRecord _ _ _ Ha) as (-> & Hl & _).
  unfold afterLoop in Ha.
  destruct (Z.eqb (lineNum (record p)) 0); try discriminate.
  destruct (state p); inversion Ha; subst; simpl; auto.
Qed.

Lemma lineNumsAscend_app records r lo :
  lineNumsAscend records ->
  Forall (fun r0 => (lineNum r0 <= lo)%Z) records ->
  (lineNum r = 0%Z \/ (lo < lineNum r)%Z) ->
  lineNumsAscend (records ++ [r]).
Proof.
  intros Ha Hlo Hr i j ri rj Hij Hi Hj Hnz.
  destruct (Nat.lt_ge_cases j (List.length records)) as [Hjl|Hjl].
  - rewrite nth_error_app1 in Hi by lia. rewrite nth_error_app1 in Hj by lia.
    exact (Ha i j ri rj Hij Hi Hj Hnz).
  - assert (Hj0 : j = List.length records).
    { assert (Hlt : (j < List.length (records ++ [r]))%nat)
        by (apply nth_error_Some; congruence).
      rewrite length_app in Hlt. simpl in Hlt. lia. }
    subst j. rewrite nth_error_app2, Nat.sub_diag in Hj by lia.
    simpl in Hj. injection Hj as <-.
    rewrite nth_error_app1 in Hi by lia.
    rewrite Forall_forall in Hlo. apply nth_error_In in Hi. apply Hlo in Hi.
    destruct Hr; [contradiction | lia].
Qed.

Lemma lineAt_next (done rest : list string) line :
  lineAt (done ++ line :: rest) (Z.of_nat (List.length done) + 1) = Some line.
Proof.
  unfold lineAt. destruct (Z.leb_spec (Z.of_nat (List.length done) + 1) 0); [lia|].
  replace (Z.to_nat (Z.of_nat (List.length done) + 1 - 1)) with (List.length done) by lia.
  now rewrite nth_error_app2, Nat.sub_diag by lia.
Qed.

Lemma parseLines_lineNums lines : forall done p ln prev records out err lo,
  ln = Z.of_nat (List.length done) -> (lo <= ln)%Z ->
  Forall (fun r => (lineNum r <= lo)%Z) records ->
  lineNumsAscend records ->
  Forall (fun r => numbersALine (done ++ lines) (lineNum r)) records ->
  (lineNum (record p) = 0%Z \/
   ((lo < lineNum (record p) <= ln)%Z /\ numbersALine (done ++ lines) (lineNum (record p)))) ->
  parseLines p ln prev records lines err = Parsed out ->
  lineNumsAscend out /\ Forall (fun r => numbersALine (done ++ lines) (lineNum r)) out.
Proof.
  induction lines as [|line rest IH];
    intros done p ln prev records out err lo Hln Hlo Hrecs Hasc Hnum Hp Hparse;
    simpl in Hparse.
  - destruct (afterLoop p err) as [[r|]| |e|v] eqn:Ha; try discriminate;
      inversion Hparse; subst out; auto.
    destruct (afterLoop_lineNum _ _ _ Ha) as (Hl & Hnz).
    destruct Hp as [Hp|(Hp & Hn)]; [congruence|]. split.
    + apply (lineNumsAscend_app _ _ lo); auto.
      rewrite inheritThreshold_lineNum, Hl. right. lia.
    + apply Forall_app. split; [exact Hnum|].
      constructor; [|constructor]. now rewrite inheritThreshold_lineNum, Hl.
  - pose proof (step_lineNum (ln + 1) p line) as Hstep.
    assert (Hall : ((done ++ [line]) ++ rest = done ++ line :: rest)%list)
      by now rewrite <- app_assoc.
    assert (Hln' : (ln + 1 = Z.of_nat (List.length (done ++ [line])))%Z)
      by (rewrite length_app; simpl; lia).
    assert (Hhere : forall n, n = (ln + 1)%Z -> HasPrefix line "#" = false ->
                     numbersALine (done ++ line :: rest) n).
    { intros n -> Hc. right. exists line. split; [|exact Hc].
      subst ln. apply lineAt_next. }
    destruct (step (ln + 1) p line) as [p'|r| |] eqn:Hs; try discriminate.
    + rewrite <- Hall. apply (IH (done ++ [line])%list p' (ln + 1)%Z prev records out err lo);
        auto; try lia; rewrite ?Hall; auto.
      destruct Hstep as [He|(H0 & He & Hc)].
      * rewrite He. destruct Hp as [Hp|(Hp & Hn)]; [now left | right; split; [lia | exact Hn]].
      * right. split; [lia|]. now apply Hhere.
    + set (r' := inheritThreshold prev r) in *.
      assert (Hr' : lineNum r' = lineNum r) by apply inheritThreshold_lineNum.
      assert (Hrn : (lineNum r = 0%Z \/ (lo < lineNum r <= ln + 1)%Z) /\
                    numbersALine (done ++ line :: rest) (lineNum r)).
      { destruct Hstep as [He|(He & Hc)].
        - rewrite He. destruct Hp as [Hp|(Hp & Hn)].
          + split; [now left | now left].
          + split; [right; lia | exact Hn].
        - split; [right; lia | now apply Hhere]. }
      destruct Hrn as (Hrange & Hrnum).
      rewrite <- Hall.
      apply (IH (done ++ [line])%list initLocals (ln + 1)%Z (Some r') (records ++ [r'])%list
               out err (ln + 1)%Z); auto; try lia; rewrite ?Hall.
      * apply Forall_app. split.
        -- eapply Forall_impl; [|exact Hrecs]. simpl. intros; lia.
        -- constructor; [|constructor]. rewrite Hr'. destruct Hrange; lia.
      * apply (lineNumsAscend_app _ _ lo); auto. rewrite Hr'.
        destruct Hrange; [now left | right; lia].
      * apply Forall_app. split; [exact Hnum|].
        constructor; [|constructor]. now rewrite Hr'.
Qed.

(** X13.  In the records of a parsed file the line numbers go up from
    record to record, those left at 0 apart (a statement whose body is
    empty keeps 0); each one that is not 0 is the number of a line of the
    file, and that line does not start with [#]. *)
Theorem ParseTestFile_lineNums (lines : list string) (err : option string)
    (records : list Record) :
  ParseTestFile lines err = Some (Parsed records) ->
  lineNumsAscend records /\
  Forall (fun r => numbersALine lines (lineNum r)) records.
Proof.
  rewrite ParseTestFile_total. intros Hp. injection Hp as Hp.
  apply (parseLines_lineNums lines [] initLocals 0%Z None [] records err 0%Z);
    auto; try lia.
  intros i j ri rj _ Hi. now destruct i.
Qed.

Lemma ParseTestFile_lineNums_witness :
  ParseTestFile select1_test None = Some (Parsed select1_records) /\
  lineNumsAscend select1_records /\
  Forall (fun r => numbersALine select1_test (lineNum r)) select1_records.
Proof.
  split; [vm_compute; reflexivity|].
  apply (ParseTestFile_lineNums select1_test None select1_records).
  vm_compute. reflexivity.
Defined.

Lemma step_ReturnErr ln p line e :
  step ln p line = ReturnErr e ->
  match e with
  | UnhandledStatement token n =>
      n = ln /\ exists rest,
        Fields (commentRegex_ReplaceAll false line) = token :: rest /\
        ~ In token directiveWords
  | UnexpectedToken token =>
      exists rest,
        Fields (commentRegex_ReplaceAll false line) = "statement" :: token :: rest /\
        token <> "ok" /\ token <> "error"
  | ScannerError _ => False
  end.
Proof.
  intros Hs. destruct p as [r0 st qb]. simpl in *.
  destruct st; step_cases; inversion Hs; subst;
    repeat match goal with
           | H : (_ || _)%bool = false |- _ => apply orb_false_iff in H as [? ?]
           | H : String.eqb _ _ = true |- _ => apply String.eqb_eq in H
           | H : String.eqb _ _ = false |- _ => apply String.eqb_neq in H
           end;
    subst; try (split; [reflexivity|]); eexists; (split; [reflexivity|]);
    unfold directiveWords; simpl; intuition congruence.
Qed.

Lemma afterLoop_Failed p err e :
  afterLoop p err = Failed e -> exists msg, e = ScannerError msg /\ err = Some msg.
Proof.
  unfold afterLoop. destruct err as [msg|].
  - intros Hf. inversion Hf. eauto.
  - destruct (Z.eqb (lineNum (record p)) 0); [discriminate|].
    destruct (state p); discriminate.
Qed.

Lemma parseLines_errors lines : forall done p ln prev records err e,
  ln = Z.of_nat (List.length done) ->
  parseLines p ln prev records lines err = ParseFailed e ->
  errorExplained (done ++ lines) err e.
Proof.
  induction lines as [|line rest IH]; intros done p ln prev records err e Hln Hparse;
    simpl in Hparse.
  - destruct (afterLoop p err) as [[r|]| |e'|v] eqn:Ha; try discriminate.
    inversion Hparse; subst e'.
    destruct (afterLoop_Failed _ _ _ Ha) as (msg & -> & ->). reflexivity.
  - assert (Hall : ((done ++ [line]) ++ rest = done ++ line :: rest)%list)
      by now rewrite <- app_assoc.
    assert (Hln' : (ln + 1 = Z.of_nat (List.length (done ++ [line])))%Z)
      by (rewrite length_app; simpl; lia).
    destruct (step (ln + 1) p line) as [p'|r|e'|v] eqn:Hs; try discriminate.
    + rewrite <- Hall. eapply IH; eauto.
    + rewrite <- Hall. eapply IH; eauto.
    + inversion Hparse; subst e'. apply step_ReturnErr in Hs.
      destruct e as [token|token n|msg]; simpl; [| |contradiction].
      * destruct Hs as (rest' & Hf & Hok & Herr). exists line, rest'.
        repeat split; auto. apply in_or_app. right. now left.
      * destruct Hs as (-> & rest' & Hf & Hno). exists line, rest'.
        repeat split; auto. subst ln. apply lineAt_next.
Qed.

(** X14.  An error of [ParseTestFile] is explained by the file: the line
    that an "Unhandled statement" error names is a line of the file whose
    first word is the one named, and that word is no directive; an
    "unexpected token" is the word after [statement] on some line, and is
    neither [ok] nor [error]; every other error is the one the scanner
    ended with. *)
Theorem ParseTestFile_errors (lines : list string) (err : option string)
    (e : ParseError) :
  ParseTestFile lines err = Some (ParseFailed e) -> errorExplained lines err e.
Proof.
  rewrite ParseTestFile_total. intros Hp. injection Hp as Hp.
  now apply (parseLines_errors lines [] initLocals 0%Z None [] err e).
Qed.

Lemma ParseTestFile_errors_witness :
  ParseTestFile ["statement ok"; "SELECT 1"; ""; "# next"; "  select 2"] None =
    Some (ParseFailed (UnhandledStatement "select" 5)) /\
  errorExplained ["statement ok"; "SELECT 1"; ""; "# next"; "  select 2"] None
    (UnhandledStatement "select" 5).
Proof.
  split; [vm_compute; reflexivity|].
  apply (ParseTestFile_errors ["statement ok"; "SELECT 1"; ""; "# next"; "  select 2"] None
           (UnhandledStatement "select" 5)).
  vm_compute. reflexivity.
Defined.

(** X15.  The endless loop of [ParseTestFile] ends: one call of
    [parseRecord] for each line of the file and one more are enough for it
    to return its result, and the result is the same however many more
    calls are allowed. *)
Theorem ParseTestFile_terminates (lines : list string) (err : option string) :
  exists result,
    ParseTestFile lines err = Some result /\
    forall fuel, (List.length lines < fuel)%nat ->
      parseFile fuel (mkLineScanner lines 0 err) None [] = Some result.
Proof.
  exists (parseLines initLocals 0 None [] lines err). split.
  - unfold ParseTestFile. now rewrite parseFile_parseLines by (simpl; lia).
  - intros fuel Hf. now rewrite parseFile_parseLines by (simpl; lia).
Qed.

Lemma append_assoc (a b c : string) : ((a ++ b) ++ c = a ++ (b ++ c))%string.
Proof. induction a as [|x a IH]; simpl; [reflexivity | now rewrite IH]. Qed.

Lemma append_nil_r (a : string) : (a ++ "" = a)%string.
Proof. induction a as [|x a IH]; simpl; [reflexivity | now rewrite IH]. Qed.

(** A blank line does not start with [#]. *)
Lemma blank_not_comment line : isBlankLine line = true -> HasPrefix line "#" = false.
Proof.
  unfold isBlankLine, HasPrefix. destruct line as [|c line]; [reflexivity|].
  cbn [String.prefix]. destruct (ascii_dec "#"%char c) as [<-|Hc]; [|reflexivity].
  unfold TrimSpace. destruct line as [|d [|e line]]; simpl; discriminate.
Qed.

Lemma step_bodyLine ln p line :
  state p = stateStatement \/ state p = stateQuery ->
  bodyLine (match state p with stateQuery => true | _ => false end) line ->
  step ln p line = Continue (WriteString (commentsRemoved line) (noteLineNum ln p)).
Proof.
  unfold bodyLine, step, commentsRemoved. intros Hst (Hc & Hb & Hs). rewrite Hc, Hb.
  destruct Hst as [Hst|Hst]; rewrite Hst in *; [reflexivity|].
  now rewrite (Hs eq_refl).
Qed.

Lemma noteLineNum_state ln p : state (noteLineNum ln p) = state p.
Proof. unfold noteLineNum. now destruct (Z.eqb (lineNum (record p)) 0). Qed.

Lemma noteLineNum_queryBuilder ln p : queryBuilder (noteLineNum ln p) = queryBuilder p.
Proof. unfold noteLineNum. now destruct (Z.eqb (lineNum (record p)) 0). Qed.

Lemma noteLineNum_noted ln p :
  lineNum (record p) <> 0%Z -> noteLineNum ln p = p.
Proof.
  unfold noteLineNum. intros Hn.
  now destruct (Z.eqb_spec (lineNum (record p)) 0).
Qed.

(** The body of a record, read line by line: the text grows by the lines,
    comments removed, and the line number of the first one is kept. *)
Lemma scanLoop_bodyLines body : forall p ln tail,
  (0 <= ln)%Z ->
  state p = stateStatement \/ state p = stateQuery ->
  Forall (bodyLine (match state p with stateQuery => true | _ => false end)) body ->
  scanLoop p ln (body ++ tail) =
    scanLoop (mkLocals (match body with
                        | [] => record p
                        | _ => record (noteLineNum (ln + 1) p)
                        end)
                (state p)
                (queryBuilder p ++ String.concat "" (map commentsRemoved body)))
      (ln + Z.of_nat (List.length body)) tail.
Proof.
  induction body as [|line body IH]; intros p ln tail Hln Hst Hbody.
  - simpl. rewrite append_nil_r, Z.add_0_r. now destruct p.
  - inversion Hbody as [|? ? Hline Hrest]; subst.
    cbn [app scanLoop]. rewrite (step_bodyLine _ _ _ Hst Hline).
    set (p1 := WriteString (commentsRemoved line) (noteLineNum (ln + 1) p)).
    assert (Hst1 : state p1 = state p) by apply noteLineNum_state.
    assert (Hl1 : lineNum (record p1) <> 0%Z).
    { unfold p1, WriteString, noteLineNum. simpl.
      destruct (Z.eqb_spec (lineNum (record p)) 0); simpl; lia. }
    rewrite IH; [|lia|now rewrite Hst1|now rewrite Hst1]. clear IH Hbody Hrest.
    f_equal; [|cbn [List.length]; lia].
    rewrite Hst1. f_equal.
    + destruct body; [reflexivity|]. now rewrite (noteLineNum_noted _ _ Hl1).
    + unfold p1, WriteString. cbn [queryBuilder map].
      rewrite append_assoc, noteLineNum_queryBuilder. f_equal.
      destruct body as [|l2 body]; simpl; [apply append_nil_r | reflexivity].
Qed.

(** The expected values of a query, read line by line. *)
Lemma scanLoop_resultLines results : forall p ln tail,
  state p = stateResults -> Forall resultLine results ->
  scanLoop p ln (results ++ tail) =
    scanLoop (set_record (fun r => set_result (result r ++ map commentsRemoved results) r) p)
      (ln + Z.of_nat (List.length results)) tail.
Proof.
  induction results as [|line results IH]; intros p ln tail Hst Hres.
  - simpl. rewrite Z.add_0_r. destruct p as [r st qb]. unfold set_record, set_result.
    simpl. rewrite app_nil_r. now destruct r.
  - inversion Hres as [|? ? (Hc & Hb) Hrest]; subst.
    cbn [app scanLoop]. unfold step at 1. rewrite Hc, Hb, Hst.
    rewrite IH; [|exact Hst|exact Hrest].
    f_equal; [|cbn [List.length]; lia].
    unfold set_record, set_result, commentsRemoved. simpl.
    now rewrite <- app_assoc.
Qed.

Lemma step_separator ln p sep :
  state p = stateQuery -> separatorLine sep ->
  step ln p sep =
    Continue (WriteString (commentsRemoved sep)
                (set_state stateResults
                   (set_record (set_query (queryBuilder (noteLineNum ln p)))
                      (noteLineNum ln p)))).
Proof.
  unfold separatorLine, commentsRemoved, step. intros Hst (Hc & Hs).
  now rewrite Hc, Hst, Hs.
Qed.

Lemma step_blank ln p blank :
  isBlankLine blank = true ->
  step ln p blank =
    match state p with
    | stateStart => Continue p
    | stateStatement => Return (set_query (queryBuilder p) (record p))
    | stateQuery =>
        if isSeparator (Fields (commentsRemoved blank))
        then Continue (WriteString (commentsRemoved blank)
                         (set_state stateResults
                            (set_record (set_query (queryBuilder (noteLineNum ln p)))
                               (noteLineNum ln p))))
        else Return (set_query (queryBuilder (noteLineNum ln p))
                       (record (noteLineNum ln p)))
    | stateResults => Return (record p)
    end.
Proof.
  intros Hb. unfold step, commentsRemoved.
  now rewrite (blank_not_comment _ Hb), Hb.
Qed.

(** X16.  A statement record written in the usual way (the [statement]
    line, the lines of its text, a blank line) is parsed into a Statement
    record whose text is the lines joined with nothing in between, comments
    removed, whose line number is that of the first line of the text, and
    which expects an error exactly when the word after [statement] is
    [error]; the scanner is left behind the blank line. *)
Theorem parseRecord_statement (header word : string) (more body : list string)
    (blank : string) (rest : list string) (ln : Z) (err : option string) :
  (0 <= ln)%Z ->
  HasPrefix header "#" = false -> isBlankLine header = false ->
  Fields (commentsRemoved header) = "statement" :: word :: more ->
  word = "ok" \/ word = "error" ->
  Forall (bodyLine false) body ->
  isBlankLine blank = true ->
  parseRecord (mkLineScanner (header :: body ++ blank :: rest) ln err) =
    (GotRecord (Some (mkRecord Statement (String.eqb word "error") [] "" ""
                        (String.concat "" (map commentsRemoved body))
                        (match body with [] => 0 | _ => ln + 2 end)
                        [] "" hashThresholdUnset)),
     mkLineScanner rest (ln + 2 + Z.of_nat (List.length body)) err).
Proof.
  intros Hln Hc Hb Hf Hw Hbody Hblank. unfold parseRecord.
  cbn [pending LineNum scanErr scanLoop].
  assert (Hstep : step (ln + 1) initLocals header =
                  Continue (mkLocals (set_expectError (String.eqb word "error")
                                        (set_recordType Statement newRecord))
                              stateStatement "")).
  { unfold step, commentsRemoved in *. rewrite Hc, Hb. cbn [state initLocals].
    rewrite Hf. unfold stepStart. simpl. destruct Hw as [->| ->]; reflexivity. }
  rewrite Hstep.
  rewrite scanLoop_bodyLines; [|lia|now left|exact Hbody].
  cbn [scanLoop]. rewrite (step_blank _ _ _ Hblank). cbn [state queryBuilder record].
  replace (ln + 1 + Z.of_nat (List.length body) + 1)%Z
    with (ln + 2 + Z.of_nat (List.length body))%Z by lia.
  replace (ln + 1 + 1)%Z with (ln + 2)%Z by lia.
  destruct body; reflexivity.
Qed.

Lemma parseRecord_statement_witness :
  parseRecord (mkLineScanner
                 ("statement error # must fail" ::
                  ["INSERT INTO t1 "; "VALUES(1) # one row"] ++ " " :: ["halt"]) 6 None) =
    (GotRecord (Some (mkRecord Statement true [] "" ""
                        "INSERT INTO t1 VALUES(1) " 8 [] "" hashThresholdUnset)),
     mkLineScanner ["halt"] 10 None).
Proof.
  apply (parseRecord_statement "statement error # must fail" "error" []
           ["INSERT INTO t1 "; "VALUES(1) # one row"] " " ["halt"] 6 None);
    try reflexivity; [lia | now right | repeat constructor; discriminate].
Defined.

(** X17.  A query record written in the usual way (the [query] line with
    the schema and, optionally, the sort mode and a label; the lines of the
    text; the separator; the expected values; a blank line) is parsed into
    a Query record with that schema, sort mode and label, whose text is the
    lines before the separator joined with nothing in between, whose
    expected values are the lines after it, comments removed from both, and
    whose line number is that of the line after the [query] line. *)
Theorem parseRecord_query (header schemaStr : string) (more body : list string)
    (sep : string) (results : list string) (blank : string) (rest : list string)
    (ln : Z) (err : option string) :
  (0 <= ln)%Z ->
  HasPrefix header "#" = false -> isBlankLine header = false ->
  Fields (commentsRemoved header) = "query" :: schemaStr :: more ->
  Forall (bodyLine true) body ->
  separatorLine sep ->
  Forall resultLine results ->
  isBlankLine blank = true ->
  parseRecord (mkLineScanner (header :: body ++ sep :: results ++ blank :: rest) ln err) =
    (GotRecord (Some (mkRecord Query false [] schemaStr (nth 0 more "")
                        (String.concat "" (map commentsRemoved body))
                        (ln + 2)
                        (map commentsRemoved results) (nth 1 more "")
                        hashThresholdUnset)),
     mkLineScanner rest
       (ln + 3 + Z.of_nat (List.length body) + Z.of_nat (List.length results)) err).
Proof.
  intros Hln Hc Hb Hf Hbody Hsep Hres Hblank. unfold parseRecord.
  cbn [pending LineNum scanErr scanLoop].
  assert (Hstep : step (ln + 1) initLocals header =
                  Continue (mkLocals
                              (mkRecord Query false [] schemaStr (nth 0 more "") "" 0 []
                                 (nth 1 more "") hashThresholdUnset)
                              stateQuery "")).
  { unfold step, commentsRemoved in *. rewrite Hc, Hb. cbn [state initLocals].
    rewrite Hf. unfold stepStart. simpl. destruct more as [|m [|l more]]; reflexivity. }
  rewrite Hstep.
  rewrite scanLoop_bodyLines; [|lia|now right|exact Hbody].
  cbn [state queryBuilder record].
  set (p1 := mkLocals _ stateQuery _).
  cbn [scanLoop]. rewrite (step_separator _ p1 sep eq_refl Hsep).
  rewrite scanLoop_resultLines; [|reflexivity|exact Hres].
  cbn [scanLoop]. rewrite (step_blank _ _ _ Hblank).
  cbn [state set_record set_state WriteString record].
  replace (ln + 1 + Z.of_nat (List.length body) + 1 + Z.of_nat (List.length results) + 1)%Z
    with (ln + 3 + Z.of_nat (List.length body) + Z.of_nat (List.length results))%Z by lia.
  f_equal. f_equal. f_equal. subst p1.
  replace (ln + 1 + 1)%Z with (ln + 2)%Z by lia.
  destruct body as [|b0 body].
  - replace (ln + 1 + Z.of_nat (@List.length string []) + 1)%Z with (ln + 2)%Z
      by (simpl; lia).
    reflexivity.
  - unfold noteLineNum. simpl.
    destruct (Z.eqb_spec (ln + 2) 0) as [H0|H0]; [lia | reflexivity].
Qed.

Lemma parseRecord_query_witness :
  parseRecord (mkLineScanner
                 ("query II rowsort label-1" ::
                  ["SELECT a, b"; " FROM t1 # all rows"] ++ "----" ::
                  ["1"; "2 # two"] ++ "" :: ["halt"]) 0 None) =
    (GotRecord (Some (mkRecord Query false [] "II" "rowsort"
                        "SELECT a, b FROM t1 " 2 ["1"; "2 "] "label-1"
                        hashThresholdUnset)),
     mkLineScanner ["halt"] 7 None).
Proof.
  apply (parseRecord_query "query II rowsort label-1" "II" ["rowsort"; "label-1"]
           ["SELECT a, b"; " FROM t1 # all rows"] "----" ["1"; "2 # two"] "" ["halt"]
           0 None);
    try reflexivity; try lia; repeat constructor; discriminate.
Defined.

Lemma step_condition ln p line word eng more :
  state p = stateStart ->
  HasPrefix line "#" = false -> isBlankLine line = false ->
  Fields (commentsRemoved line) = word :: eng :: more ->
  word = skipif \/ word = onlyif ->
  step ln p line =
    Continue (set_record
                (fun r => set_conditions
                   (conditions r ++
                      [mkCondition (String.eqb word onlyif) (String.eqb word skipif) eng]) r)
                p).
Proof.
  unfold step, commentsRemoved. intros Hst Hc Hb Hf Hw. rewrite Hc, Hst, Hb, Hf.
  destruct Hw as [-> | ->]; reflexivity.
Qed.

Lemma step_statement_header ln p line word more :
  state p = stateStart ->
  HasPrefix line "#" = false -> isBlankLine line = false ->
  Fields (commentsRemoved line) = "statement" :: word :: more ->
  word = "ok" \/ word = "error" ->
  step ln p line =
    Continue (set_state stateStatement
                (set_record (fun r => set_expectError (String.eqb word "error")
                                        (set_recordType Statement r)) p)).
Proof.
  unfold step, commentsRemoved. intros Hst Hc Hb Hf Hw. rewrite Hc, Hst, Hb, Hf.
  destruct Hw as [-> | ->]; reflexivity.
Qed.

(** X18.  A [skipif] or [onlyif] line in front of a statement decides
    where the record runs: the record parsed from the condition line, the
    [statement] line, the text and a blank line carries that one condition,
    and it is to be executed for exactly the engine named after [onlyif],
    or for every engine but the one named after [skipif]. *)
Theorem condition_line_decides (cond word eng : string) (more : list string)
    (header word' : string) (more' body : list string) (blank : string)
    (rest : list string) (ln : Z) (err : option string) :
  (0 <= ln)%Z ->
  HasPrefix cond "#" = false -> isBlankLine cond = false ->
  Fields (commentsRemoved cond) = word :: eng :: more ->
  word = skipif \/ word = onlyif ->
  HasPrefix header "#" = false -> isBlankLine header = false ->
  Fields (commentsRemoved header) = "statement" :: word' :: more' ->
  word' = "ok" \/ word' = "error" ->
  Forall (bodyLine false) body ->
  isBlankLine blank = true ->
  exists r,
    parseRecord (mkLineScanner (cond :: header :: body ++ blank :: rest) ln err) =
      (GotRecord (Some r),
       mkLineScanner rest (ln + 3 + Z.of_nat (List.length body)) err) /\
    recordType r = Statement /\
    conditions r = [mkCondition (String.eqb word onlyif) (String.eqb word skipif) eng] /\
    forall engineId,
      ShouldExecuteForEngine r engineId =
        if String.eqb word onlyif then String.eqb eng engineId
        else negb (String.eqb eng engineId).
Proof.
  intros Hln Hc Hb Hf Hw Hc' Hb' Hf' Hw' Hbody Hblank. unfold parseRecord.
  cbn [pending LineNum scanErr scanLoop].
  rewrite (step_condition _ initLocals cond word eng more eq_refl Hc Hb Hf Hw).
  cbn [scanLoop].
  rewrite (step_statement_header _ (set_record _ initLocals) header word' more'
             eq_refl Hc' Hb' Hf' Hw').
  rewrite scanLoop_bodyLines; [|lia|now left|exact Hbody].
  cbn [scanLoop]. rewrite (step_blank _ _ _ Hblank).
  cbn [state set_state set_record queryBuilder record initLocals].
  eexists. split.
  - replace (ln + 1 + 1 + Z.of_nat (List.length body) + 1)%Z
      with (ln + 3 + Z.of_nat (List.length body))%Z by lia.
    reflexivity.
  - assert (Hfields : forall q r0,
              recordType (set_query q r0) = recordType r0 /\
              conditions (set_query q r0) = conditions r0) by (intros; split; reflexivity).
    assert (Hnote : forall n p0,
              recordType (record (noteLineNum n p0)) = recordType (record p0) /\
              conditions (record (noteLineNum n p0)) = conditions (record p0)).
    { intros n p0. unfold noteLineNum.
      destruct (Z.eqb (lineNum (record p0)) 0); split; reflexivity. }
    assert (Hr : forall r0,
              recordType r0 = Statement ->
              conditions r0 =
                [mkCondition (String.eqb word onlyif) (String.eqb word skipif) eng] ->
              recordType r0 = Statement /\
              conditions r0 =
                [mkCondition (String.eqb word onlyif) (String.eqb word skipif) eng] /\
              forall engineId,
                ShouldExecuteForEngine r0 engineId =
                  if String.eqb word onlyif then String.eqb eng engineId
                  else negb (String.eqb eng engineId)).
    { intros r0 Ht Hcs. split; [exact Ht|]. split; [exact Hcs|]. intros engineId.
      unfold ShouldExecuteForEngine. rewrite Hcs. cbn.
      destruct Hw as [-> | ->]; cbn; [|reflexivity].
      now destruct (String.eqb eng engineId). }
    apply Hr.
    + rewrite (proj1 (Hfields _ _)). destruct body; [reflexivity|].
      now rewrite (proj1 (Hnote _ _)).
    + rewrite (proj2 (Hfields _ _)). destruct body; [reflexivity|].
      now rewrite (proj2 (Hnote _ _)).
Qed.

Lemma condition_line_decides_witness :
  exists r,
    parseRecord (mkLineScanner
                   ("onlyif mysql # not elsewhere" :: "statement ok" ::
                    ["CREATE INDEX i1 ON t1(a)"] ++ "" :: ["halt"]) 0 None) =
      (GotRecord (Some r), mkLineScanner ["halt"] 4 None) /\
    recordType r = Statement /\
    conditions r = [mkCondition true false "mysql"] /\
    forall engineId,
      ShouldExecuteForEngine r engineId = String.eqb "mysql" engineId.
Proof.
  apply (condition_line_decides "onlyif mysql # not elsewhere" "onlyif" "mysql" []
           "statement ok" "ok" [] ["CREATE INDEX i1 ON t1(a)"] "" ["halt"] 0 None);
    try reflexivity; try lia; [now right | now left | repeat constructor; discriminate].
Defined.

(** ** Writing a test file again *)


Lemma copyRestOfFile_loop_all lines : forall ln wr,
  copyRestOfFile_loop lines ln wr =
    ([], (ln + Z.of_nat (List.length lines))%Z, (wr ++ lines)%list).
Proof.
  induction lines as [|line lines IH]; intros ln wr; cbn [copyRestOfFile_loop].
  - now rewrite app_nil_r, Z.add_0_r.
  - rewrite IH. unfold writeLine. rewrite <- app_assoc. repeat match goal with |- (_, _) = (_, _) => f_equal end;
      try reflexivity; cbn [List.length]; lia.
Qed.

(** The three loops that stop at a line: what they do up to a first line
    that [stop] holds of. *)
Lemma copyUntilSeparator_loop_app copied : forall sep rest ln wr,
  Forall (fun line => String.eqb (TrimSpace line) Separator = false) copied ->
  String.eqb (TrimSpace sep) Separator = true ->
  copyUntilSeparator_loop (copied ++ sep :: rest) ln wr =
    (rest, (ln + Z.of_nat (List.length copied) + 1)%Z, (wr ++ copied ++ [sep])%list).
Proof.
  induction copied as [|line copied IH]; intros sep rest ln wr Hc Hs; cbn [app copyUntilSeparator_loop].
  - rewrite Hs. unfold writeLine. repeat match goal with |- (_, _) = (_, _) => f_equal end;
      try reflexivity; cbn [List.length]; lia.
  - inversion Hc as [|? ? Hl Hrest]; subst. rewrite Hl, IH by assumption.
    unfold writeLine. rewrite <- app_assoc. repeat match goal with |- (_, _) = (_, _) => f_equal end;
      try reflexivity; cbn [List.length]; lia.
Qed.

Lemma copyUntilEndOfRecord_loop_app copied : forall blank rest ln wr,
  Forall (fun line => String.eqb (TrimSpace line) "" = false) copied ->
  String.eqb (TrimSpace blank) "" = true ->
  copyUntilEndOfRecord_loop (copied ++ blank :: rest) ln wr =
    (rest, (ln + Z.of_nat (List.length copied) + 1)%Z, (wr ++ copied ++ [blank])%list).
Proof.
  induction copied as [|line copied IH]; intros blank rest ln wr Hc Hs;
    cbn [app copyUntilEndOfRecord_loop].
  - rewrite Hs. unfold writeLine. repeat match goal with |- (_, _) = (_, _) => f_equal end;
      try reflexivity; cbn [List.length]; lia.
  - inversion Hc as [|? ? Hl Hrest]; subst. rewrite Hl, IH by assumption.
    unfold writeLine. rewrite <- app_assoc. repeat match goal with |- (_, _) = (_, _) => f_equal end;
      try reflexivity; cbn [List.length]; lia.
Qed.

Lemma skipUntilEndOfRecord_loop_app skipped : forall blank rest ln wr,
  Forall (fun line => String.eqb (TrimSpace line) "" = false) skipped ->
  String.eqb (TrimSpace blank) "" = true ->
  skipUntilEndOfRecord_loop (skipped ++ blank :: rest) ln wr =
    (rest, (ln + Z.of_nat (List.length skipped) + 1)%Z, (wr ++ [""])%list).
Proof.
  induction skipped as [|line skipped IH]; intros blank rest ln wr Hc Hs;
    cbn [app skipUntilEndOfRecord_loop].
  - rewrite Hs. unfold writeLine. repeat match goal with |- (_, _) = (_, _) => f_equal end;
      try reflexivity; cbn [List.length]; lia.
  - inversion Hc as [|? ? Hl Hrest]; subst. rewrite Hl, IH by assumption.
    repeat match goal with |- (_, _) = (_, _) => f_equal end;
      try reflexivity; cbn [List.length]; lia.
Qed.

Lemma copyUntilSeparator_loop_copied lines : forall ln wr,
  exists copied,
    let '(rest, ln', wr') := copyUntilSeparator_loop lines ln wr in
    lines = (copied ++ rest)%list /\ wr' = (wr ++ copied)%list /\
    ln' = (ln + Z.of_nat (List.length copied))%Z.
Proof.
  induction lines as [|line lines IH]; intros ln wr; simpl.
  - exists []. simpl. rewrite app_nil_r. repeat split. lia.
  - destruct (String.eqb (TrimSpace line) Separator).
    + exists [line]. repeat split.
    + destruct (IH (ln + 1)%Z (writeLine wr line)) as [copied Hc].
      exists (line :: copied).
      destruct (copyUntilSeparator_loop lines (ln + 1) (writeLine wr line))
        as [[rest ln'] wr'].
      destruct Hc as (-> & -> & ->). unfold writeLine. rewrite <- app_assoc.
      repeat split. cbn [List.length]. lia.
Qed.

Lemma copyUntilEndOfRecord_loop_copied lines : forall ln wr,
  exists copied,
    let '(rest, ln', wr') := copyUntilEndOfRecord_loop lines ln wr in
    lines = (copied ++ rest)%list /\ wr' = (wr ++ copied)%list /\
    ln' = (ln + Z.of_nat (List.length copied))%Z.
Proof.
  induction lines as [|line lines IH]; intros ln wr; simpl.
  - exists []. simpl. rewrite app_nil_r. repeat split. lia.
  - destruct (String.eqb (TrimSpace line) "").
    + exists [line]. repeat split.
    + destruct (IH (ln + 1)%Z (writeLine wr line)) as [copied Hc].
      exists (line :: copied).
      destruct (copyUntilEndOfRecord_loop lines (ln + 1) (writeLine wr line))
        as [[rest ln'] wr'].
      destruct Hc as (-> & -> & ->). unfold writeLine. rewrite <- app_assoc.
      repeat split. cbn [List.length]. lia.
Qed.

(** X19.  The helpers that copy lose no line and add none: when
    [copyUntilSeparator] or [copyUntilEndOfRecord] stops, the lines it has
    taken from the scanner are the lines it has written, in order, and the
    line count has advanced by their number; so copying the rest of the
    file afterwards writes what copying the rest of the file at once would
    have written. *)
Theorem copy_helpers_keep_lines (scanner : LineScanner) (wr : Writer) :
  copiedSoFar scanner wr (copyUntilSeparator scanner wr) /\
  copiedSoFar scanner wr (copyUntilEndOfRecord scanner wr) /\
  copiedSoFar scanner wr (copyRestOfFile scanner wr) /\
  (let '(scanner', wr') := copyUntilSeparator scanner wr in
   copyRestOfFile scanner' wr' = copyRestOfFile scanner wr) /\
  (let '(scanner', wr') := copyUntilEndOfRecord scanner wr in
   copyRestOfFile scanner' wr' = copyRestOfFile scanner wr).
Proof.
  destruct scanner as [lines ln err].
  unfold copiedSoFar, copyUntilSeparator, copyUntilEndOfRecord, copyRestOfFile, onScanner.
  cbn [pending LineNum scanErr].
  destruct (copyUntilSeparator_loop_copied lines ln wr) as [c1 H1].
  destruct (copyUntilEndOfRecord_loop_copied lines ln wr) as [c2 H2].
  destruct (copyUntilSeparator_loop lines ln wr) as [[r1 l1] w1].
  destruct (copyUntilEndOfRecord_loop lines ln wr) as [[r2 l2] w2].
  destruct H1 as (Hl1 & -> & ->). destruct H2 as (Hl2 & -> & ->).
  rewrite !copyRestOfFile_loop_all. cbn [fst snd pending LineNum scanErr].
  repeat split.
  - exists c1. auto.
  - exists c2. auto.
  - exists lines. now rewrite app_nil_r.
  - rewrite Hl1, length_app, <- app_assoc. f_equal. f_equal. lia.
  - rewrite Hl2, length_app, <- app_assoc. f_equal. f_equal. lia.
Qed.

Lemma skip_copy_loops lines : forall ln wr1 wr2,
  fst (skipUntilEndOfRecord_loop lines ln wr1) = fst (copyUntilEndOfRecord_loop lines ln wr2) /\
  (snd (skipUntilEndOfRecord_loop lines ln wr1) =
     if existsb isBlankLine lines then (wr1 ++ [""])%list else wr1).
Proof.
  induction lines as [|line lines IH]; intros ln wr1 wr2; simpl; [auto|].
  unfold isBlankLine at 1.
  destruct (String.eqb_spec (TrimSpace line) "") as [He|Hne].
  - rewrite He. simpl. auto.
  - destruct (Nat.eqb_spec (String.length (TrimSpace line)) 0) as [H0|H0];
      [now apply length_zero_empty in H0|].
    simpl. apply IH.
Qed.

(** X20.  [skipUntilEndOfRecord] leaves the scanner where
    [copyUntilEndOfRecord] would have left it, behind the first blank line
    or at the end of the input; of the lines it passes it writes none, and
    it writes one empty line exactly when it has met a blank line. *)
Theorem skipUntilEndOfRecord_stops (scanner : LineScanner) (wr wr0 : Writer) :
  fst (skipUntilEndOfRecord scanner wr) = fst (copyUntilEndOfRecord scanner wr0) /\
  snd (skipUntilEndOfRecord scanner wr) =
    if existsb isBlankLine (pending scanner) then (wr ++ [""])%list else wr.
Proof.
  destruct scanner as [lines ln err].
  unfold skipUntilEndOfRecord, copyUntilEndOfRecord, onScanner. cbn [pending LineNum scanErr].
  destruct (skip_copy_loops lines ln wr wr0) as (Hf & Hs).
  destruct (skipUntilEndOfRecord_loop lines ln wr) as [[r1 l1] w1].
  destruct (copyUntilEndOfRecord_loop lines ln wr0) as [[r2 l2] w2].
  simpl in *. inversion Hf; subst. auto.
Qed.

Lemma length_append (a b : string) :
  String.length (a ++ b) = (String.length a + String.length b)%nat.
Proof. induction a as [|x a IH]; simpl; [reflexivity | now rewrite IH]. Qed.

Lemma substring_0_split n : forall s,
  (n <= String.length s)%nat ->
  String.length (substring 0 n s) = n /\ exists tail, s = (substring 0 n s ++ tail)%string.
Proof.
  induction n as [|n IH]; intros s Hn.
  - destruct s; simpl; split; eauto.
  - destruct s as [|c s]; simpl in *; [lia|].
    destruct (IH s ltac:(lia)) as (Hl & tail & Ht).
    split; [now rewrite Hl|]. exists tail. now rewrite <- Ht.
Qed.

(** X21.  With SQLLOGICTEST_TRUNCATE_QUERIES set, the query shown in a
    log line is never longer than 50 bytes: a longer one is cut to its
    first 47 bytes followed by three dots, and one of at most 50 bytes is
    shown whole, as every query is without the setting. *)
Theorem truncateQuery_length (query : string) :
  (String.length (truncateQuery true query) <= 50)%nat /\
  ((String.length query <= 50)%nat -> truncateQuery true query = query) /\
  ((50 < String.length query)%nat ->
   exists head tail,
     query = (head ++ tail)%string /\ String.length head = 47%nat /\
     truncateQuery true query = (head ++ "...")%string) /\
  truncateQuery false query = query.
Proof.
  unfold truncateQuery. cbn [andb].
  destruct (Nat.ltb_spec 50 (String.length query)) as [Hlt|Hle].
  - destruct (substring_0_split 47 query ltac:(lia)) as (Hl & tail & Ht).
    split; [rewrite length_append, Hl; simpl; lia|].
    split; [lia|]. split; [|reflexivity].
    intros _. exists (substring 0 47 query), tail. auto.
  - split; [exact Hle|]. split; [reflexivity|]. split; [lia | reflexivity].
Qed.

(** *** What [writeResults] writes is read back *)

Lemma digitsValue_uint d : forall a,
  digitsValue (Z.of_nat a) (NilEmpty.string_of_uint d) =
    Some (Z.of_nat (Nat.of_uint_acc d a)).
Proof.
  induction d as [|d IH|d IH|d IH|d IH|d IH|d IH|d IH|d IH|d IH|d IH]; intros a;
    [reflexivity| ..];
    cbn [NilEmpty.string_of_uint digitsValue Nat.of_uint_acc];
    match goal with
    | |- context [isDigit ?c] => change (isDigit c) with true
    end;
    cbv iota; rewrite <- IH; f_equal; rewrite Nat.tail_mul_spec;
    match goal with
    | |- context [N_of_ascii ?c] =>
        let v := eval vm_compute in (N_of_ascii c) in change (N_of_ascii c) with v
    end; lia.
Qed.

Lemma Sprintf_d_digits n :
  allBytes isDigit (Sprintf_d n) = true /\ Sprintf_d n <> "" /\
  unsignedValue (Sprintf_d n) = Some (Z.of_nat n) /\
  signedValue (Sprintf_d n) = Some (Z.of_nat n).
Proof.
  unfold Sprintf_d.
  assert (Hv : digitsValue 0 (NilZero.string_of_uint (Nat.to_uint n)) = Some (Z.of_nat n)).
  { rewrite <- (DecimalNat.Unsigned.of_to n) at 2. unfold Nat.of_uint.
    destruct (Nat.to_uint n) eqn:Hd; [reflexivity| ..];
      apply (digitsValue_uint _ 0%nat). }
  assert (Hall : forall d, allBytes isDigit (NilEmpty.string_of_uint d) = true).
  { induction d; simpl; auto. }
  destruct (Nat.to_uint n) as [|d|d|d|d|d|d|d|d|d|d] eqn:Hd;
    (split; [try reflexivity; apply (Hall (_ d)) |]);
    (split; [discriminate|]); split; exact Hv.
Qed.

Lemma span_all p s : allBytes p s = true -> span p s = (s, "").
Proof.
  induction s as [|c s IH]; simpl; [reflexivity|].
  intros H. apply andb_true_iff in H as [Hc Hs]. now rewrite Hc, (IH Hs).
Qed.

Lemma span_stop p s c r :
  allBytes p s = true -> p c = false -> span p (s ++ String c r) = (s, String c r).
Proof.
  induction s as [|x s IH]; simpl; intros Hs Hc.
  - now rewrite Hc.
  - apply andb_true_iff in Hs as [Hx Hs]. now rewrite Hx, (IH Hs Hc).
Qed.

Lemma dropPrefix_app pre r : dropPrefix pre (pre ++ r) = Some r.
Proof.
  induction pre as [|a pre IH]; simpl; [reflexivity|]. now rewrite Ascii.eqb_refl.
Qed.

Lemma hashRegex_ReplaceAll_skip group s : forall k,
  (String.length s <= k)%nat -> hashRegex_ReplaceAll group k s = "".
Proof.
  induction s as [|c s IH]; intros k Hk; simpl; [reflexivity|].
  destruct k as [|k]; simpl in Hk; [lia|]. apply IH. lia.
Qed.

(** The line "<digits> values hashing to <hex>" is one match of
    [hashRegex], with the digits and the hash as its groups. *)
Lemma hashRegex_line digits hex :
  allBytes isDigit digits = true -> digits <> "" ->
  allBytes isHexLower hex = true -> hex <> "" ->
  let line := digits ++ " values hashing to " ++ hex in
  hashRegex_MatchString line = true /\
  hashRegex_ReplaceAll 1 0 line = digits /\
  hashRegex_ReplaceAll 2 0 line = hex.
Proof.
  intros Hd Hdn Hh Hhn line.
  assert (Hm : hashRegex_matchAt line =
               Some (digits, hex, (String.length digits + 19 + String.length hex)%nat)).
  { unfold hashRegex_matchAt, line.
    change (" values hashing to " ++ hex) with (String " " ("values hashing to " ++ hex)).
    rewrite (span_stop isDigit digits " " _ Hd eq_refl).
    destruct digits as [|d0 digits]; [contradiction|].
    change (String " " ("values hashing to " ++ hex)) with (" values hashing to " ++ hex).
    rewrite dropPrefix_app, (span_all _ _ Hh).
    destruct hex; [contradiction | reflexivity]. }
  assert (Hlen : String.length line = (String.length digits + 19 + String.length hex)%nat).
  { unfold line. rewrite !length_append. simpl. lia. }
  destruct line as [|c rest] eqn:Hline.
  { destruct digits; [contradiction | discriminate]. }
  cbn [hashRegex_MatchString hashRegex_ReplaceAll]. rewrite Hm.
  simpl in Hlen. split; [reflexivity|].
  rewrite !hashRegex_ReplaceAll_skip by lia. simpl. now rewrite !append_nil_r.
Qed.

Lemma hexDigit_lower v : (0 <= v < 16)%Z -> isHexLower (hexDigit v) = true.
Proof.
  intros Hv.
  assert (Hc : (v = 0 \/ v = 1 \/ v = 2 \/ v = 3 \/ v = 4 \/ v = 5 \/ v = 6 \/ v = 7 \/
               v = 8 \/ v = 9 \/ v = 10 \/ v = 11 \/ v = 12 \/ v = 13 \/ v = 14 \/
               v = 15)%Z) by lia.
  repeat (destruct Hc as [->|Hc]; [reflexivity|]). now subst.
Qed.

Lemma hexString_lower bs :
  Forall (fun b => 0 <= b < 256)%Z bs -> allBytes isHexLower (hexString bs) = true.
Proof.
  induction 1 as [|b bs Hb Hbs IH]; [reflexivity|]. cbn [hexString allBytes].
  rewrite IH, !hexDigit_lower; [reflexivity| |].
  - change 15%Z with (Z.ones 4). rewrite Z.land_ones by lia.
    apply Z.mod_pos_bound. lia.
  - rewrite Z.shiftr_div_pow2 by lia. change (2 ^ 4)%Z with 16%Z.
    split; [apply Z.div_pos; lia | apply Z.div_lt_upper_bound; lia].
Qed.

Lemma leBytes_range n : forall v, Forall (fun b => 0 <= b < 256)%Z (md5.leBytes n v).
Proof.
  induction n as [|n IH]; intros v; cbn [md5.leBytes]; constructor; [|apply IH].
  change 255%Z with (Z.ones 8). rewrite Z.land_ones by lia.
  apply Z.mod_pos_bound. lia.
Qed.

(** [hashResults] gives lower-case hexadecimal digits, and at least one. *)
Lemma hashResults_hex results :
  allBytes isHexLower (hashResults results) = true /\ hashResults results <> "".
Proof.
  unfold hashResults, md5.Sum.
  destruct (md5.blocks _ _ _) as [[[a b] c] d]. split.
  - apply hexString_lower. repeat (apply Forall_app; split); apply leBytes_range.
  - cbn [md5.leBytes app hexString]. discriminate.
Qed.

Lemma commentsRemoved_same s :
  allBytes (fun c => negb (byteIs c 35)) s = true -> commentsRemoved s = s.
Proof.
  unfold commentsRemoved. induction s as [|c s IH]; simpl; [reflexivity|].
  intros H. apply andb_true_iff in H as [Hc Hs].
  apply negb_true_iff in Hc. now rewrite Hc, (IH Hs).
Qed.

Lemma allBytes_app p a b :
  allBytes p (a ++ b) = allBytes p a && allBytes p b.
Proof. induction a as [|x a IH]; simpl; [reflexivity | now rewrite IH, andb_assoc]. Qed.

Lemma allBytes_impl (p q : ascii -> bool) s :
  (forall c, p c = true -> q c = true) -> allBytes p s = true -> allBytes q s = true.
Proof.
  intros Hpq. induction s as [|c s IH]; simpl; [reflexivity|].
  intros H. apply andb_true_iff in H as [Hc Hs]. now rewrite (Hpq c Hc), (IH Hs).
Qed.

Lemma isDigit_not_hash c : isDigit c = true -> negb (byteIs c 35) = true.
Proof.
  unfold isDigit, byteIn, byteIs. intros H. apply andb_true_iff in H as [H1 H2].
  apply N.leb_le in H1. apply negb_true_iff, N.eqb_neq. lia.
Qed.

Lemma isHexLower_not_hash c : isHexLower c = true -> negb (byteIs c 35) = true.
Proof.
  unfold isHexLower, byteIn, byteIs. intros H. apply negb_true_iff, N.eqb_neq.
  apply orb_true_iff in H as [H|H]; apply andb_true_iff in H as [H1 H2];
    apply N.leb_le in H1; lia.
Qed.

Lemma hashLine_read results :
  commentsRemoved (hashLine results) = hashLine results /\
  resultLine (hashLine results) /\
  hashRegex_MatchString (hashLine results) = true /\
  hashRegex_ReplaceAll 1 0 (hashLine results) = Sprintf_d (List.length results) /\
  hashRegex_ReplaceAll 2 0 (hashLine results) = hashResults results.
Proof.
  destruct (Sprintf_d_digits (List.length results)) as (Hd & Hdn & _ & _).
  destruct (hashResults_hex results) as (Hh & Hhn).
  destruct (hashRegex_line _ _ Hd Hdn Hh Hhn) as (Hm & H1 & H2).
  unfold hashLine. repeat split; auto.
  - apply commentsRemoved_same. rewrite !allBytes_app.
    rewrite (allBytes_impl _ _ _ isDigit_not_hash Hd).
    now rewrite (allBytes_impl _ _ _ isHexLower_not_hash Hh).
  - destruct (Sprintf_d (List.length results)) as [|c s]; [contradiction|].
    simpl in Hd. apply andb_true_iff in Hd as [Hc _].
    unfold HasPrefix. cbn [append String.prefix].
    destruct (ascii_dec "#"%char c) as [<-|Hne]; [discriminate | reflexivity].
  - destruct (Sprintf_d (List.length results)) as [|c s]; [contradiction|].
    simpl in Hd. apply andb_true_iff in Hd as [Hc _].
    unfold isBlankLine, TrimSpace. cbn [append].
    assert (Hw : forall rest, spaceWidth (String c rest) = 0%nat).
    { intros rest. unfold spaceWidth, asciiSpace, byteIn, byteIs, isDigit in *.
      apply andb_true_iff in Hc as [Hlo Hhi]. apply N.leb_le in Hlo, Hhi.
      repeat match goal with
             | |- context [N.leb ?a ?b] => destruct (N.leb_spec a b); try lia
             | |- context [N.eqb ?a ?b] => destruct (N.eqb_spec a b); try lia
             end; simpl;
      repeat match goal with
             | |- context [match ?x with EmptyString => _ | String _ _ => _ end] =>
                 destruct x
             end; reflexivity. }
    cbn [trimLeftSpace spaceHere]. rewrite Hw.
    cbn [trimRightSpace spaceHere]. now rewrite Hw.
Qed.

Lemma hexString_length bs : String.length (hexString bs) = (2 * List.length bs)%nat.
Proof. induction bs as [|b bs IH]; simpl; [reflexivity | rewrite IH; lia]. Qed.

Lemma leBytes_length n : forall v, List.length (md5.leBytes n v) = n.
Proof. induction n as [|n IH]; intros v; simpl; [reflexivity | now rewrite IH]. Qed.

(** X22.  [hashResults] always gives 32 lower-case hexadecimal digits,
    whatever the results (none included): the text that the second group of
    [hashRegex] matches whole. *)
Theorem hashResults_format (results : list string) :
  String.length (hashResults results) = 32%nat /\
  allBytes isHexLower (hashResults results) = true /\
  span isHexLower (hashResults results) = (hashResults results, "").
Proof.
  destruct (hashResults_hex results) as (Hh & _).
  split; [|split; [exact Hh | now apply span_all]].
  unfold hashResults, md5.Sum.
  destruct (md5.blocks _ _ _) as [[[a b] c] d].
  now rewrite hexString_length, !length_app, !leBytes_length.
Qed.

Lemma Atoi_Sprintf_d n :
  (Z.of_nat n <= maxInt)%Z -> Atoi (Sprintf_d n) = (Z.of_nat n, false).
Proof.
  intros Hn. unfold Atoi.
  destruct (Sprintf_d_digits n) as (_ & _ & _ & ->).
  destruct (Z.ltb_spec maxInt (Z.of_nat n)); [lia|].
  destruct (Z.ltb_spec (Z.of_nat n) minInt); [unfold minInt in *; lia | reflexivity].
Qed.

(** A query record whose only expected value is the hash line of
    [results], as the parser stores it. *)
Lemma hashLine_record record results :
  recordType record = Query ->
  result record = [commentsRemoved (hashLine results)] ->
  (Z.of_nat (List.length results) <= maxInt)%Z ->
  IsHashResult record = true /\
  NumResults record = inr (Z.of_nat (List.length results)) /\
  HashResult record = inr (hashResults results).
Proof.
  intros Hq Hr Hn.
  destruct (hashLine_read results) as (Hc & _ & Hm & H1 & H2).
  rewrite Hc in Hr.
  unfold IsHashResult, NumResults, HashResult, isQuery. rewrite Hq, Hr, Hm, H1, H2.
  simpl. now rewrite (Atoi_Sprintf_d _ Hn).
Qed.

(** X23.  When there are more results than the record's hash threshold,
    [writeResults] writes one line, "<count> values hashing to <hash>", and
    that line is read back as it was written: the parser takes it as an
    expected value and changes nothing in it, and a query record that holds
    it as its only expected value is a hash record whose count is the
    number of results and whose hash is their hash. *)
Theorem writeResults_hash_read_back (record : Record) (results : list string)
    (wr : Writer) :
  (hashThreshold record < Z.of_nat (List.length results))%Z ->
  (Z.of_nat (List.length results) <= maxInt)%Z ->
  exists line,
    writeResults record results wr = (wr ++ [line])%list /\
    resultLine line /\ commentsRemoved line = line /\
    forall record',
      recordType record' = Query -> result record' = [commentsRemoved line] ->
      IsHashResult record' = true /\
      NumResults record' = inr (Z.of_nat (List.length results)) /\
      HashResult record' = inr (hashResults results).
Proof.
  intros Ht Hn. exists (hashLine results).
  destruct (hashLine_read results) as (Hc & Hl & _).
  unfold writeResults. apply Z.ltb_lt in Ht. rewrite Ht.
  split; [reflexivity|]. split; [exact Hl|]. split; [exact Hc|].
  intros record' Hq Hr. now apply hashLine_record.
Qed.

Lemma writeResults_hash_read_back_witness :
  let record := mkRecord Query false [] "I" NoSort "SELECT a FROM t1" 2 [] "" 1 in
  exists line,
    writeResults record ["1"; "2"] [] = ([] ++ [line])%list /\
    resultLine line /\ commentsRemoved line = line /\
    forall record',
      recordType record' = Query -> result record' = [commentsRemoved line] ->
      IsHashResult record' = true /\
      NumResults record' = inr (Z.of_nat (List.length ["1"; "2"])) /\
      HashResult record' = inr (hashResults ["1"; "2"]).
Proof.
  apply (writeResults_hash_read_back
           (mkRecord Query false [] "I" NoSort "SELECT a FROM t1" 2 [] "" 1)
           ["1"; "2"] []); vm_compute; [reflexivity | discriminate].
Defined.



(** *** [generateTestFile], record by record *)

Lemma copyToRecord_loop_app recordLine before : forall header rest ln wr,
  (ln + Z.of_nat (List.length before) + 2 = recordLine)%Z ->
  copyToRecord_loop recordLine (before ++ header :: rest) ln wr =
    (rest, (ln + Z.of_nat (List.length before) + 1)%Z, (wr ++ before)%list, header).
Proof.
  induction before as [|line before IH]; intros header rest ln wr Hn;
    cbn [app copyToRecord_loop List.length] in *.
  - destruct (Z.ltb_spec (ln + 1) (recordLine - 1)); [lia|].
    rewrite app_nil_r. repeat f_equal. lia.
  - destruct (Z.ltb_spec (ln + 1) (recordLine - 1)); [|lia].
    rewrite IH by lia. unfold writeLine. rewrite <- app_assoc.
    repeat match goal with |- (_, _) = (_, _) => f_equal end; try reflexivity; lia.
Qed.

(** X25.  What [generateTestFile] does with a query it has executed
    without an error, when the scanner stands before the record and the
    record is laid out in the usual way: the lines before the record are
    copied; the line before the first line of the query text is replaced by
    "query", the schema the backend gave, the record's sort mode and label;
    the query text and the separator are copied; the results obtained take
    the place of the old expected values, as [writeResults] writes them;
    and one empty line ends the record.  The loop goes on with the lines
    after the blank line. *)
Theorem generateRecords_query {H} (harness : Harness H) (record : Record)
    (more : list Record) (w w' : World H) (x : Executed)
    (before : list string) (header : string) (body : list string) (sep : string)
    (old : list string) (blank : string) (rest : list string)
    (ln : Z) (err : option string) (wr : Writer) :
  recordType record = Query ->
  executeRecord harness record w = Done x w' ->
  errOut x = None ->
  ShouldExecuteForEngine record (EngineStr harness (backend w')) = true ->
  (ln + Z.of_nat (List.length before) + 2 = lineNum record)%Z ->
  Forall (fun line => String.eqb (TrimSpace line) Separator = false) body ->
  String.eqb (TrimSpace sep) Separator = true ->
  Forall (fun line => String.eqb (TrimSpace line) "" = false) old ->
  String.eqb (TrimSpace blank) "" = true ->
  generateRecords harness (record :: more)
    (mkLineScanner (before ++ header :: body ++ sep :: old ++ blank :: rest) ln err) wr w =
  generateRecords harness more
    (mkLineScanner rest
       (lineNum record + Z.of_nat (List.length body) + Z.of_nat (List.length old) + 1) err)
    (writeResults record (resultsOut x)
       (wr ++ before
           ++ [queryLine (schemaOut x) record]
           ++ body ++ [sep]) ++ [""])%list
    w'.
Proof.
  intros Hq Hx He Hel Hn Hbody Hsep Hold Hblank.
  cbn [generateRecords]. unfold bind at 1. rewrite Hx.
  unfold bind, engineStr. rewrite He, Hel, Hq. cbn [isSome negb orb].
  unfold copyToRecord. cbn [pending LineNum scanErr].
  rewrite (copyToRecord_loop_app _ before header _ ln wr Hn).
  unfold copyUntilSeparator, onScanner. cbn [pending LineNum scanErr].
  rewrite (copyUntilSeparator_loop_app body sep _ _ _ Hbody Hsep).
  unfold skipUntilEndOfRecord, onScanner. cbn [pending LineNum scanErr].
  rewrite (skipUntilEndOfRecord_loop_app old blank rest _ _ Hold Hblank).
  unfold writeLine, queryLine, labelSuffix. rewrite <- !app_assoc.
  replace (ln + Z.of_nat (List.length before) + 1 + Z.of_nat (List.length body) + 1
           + Z.of_nat (List.length old) + 1)%Z
    with (lineNum record + Z.of_nat (List.length body) + Z.of_nat (List.length old) + 1)%Z
    by lia.
  reflexivity.
Qed.

Lemma generateRecords_query_witness :
  let record :=
    mkRecord Query false [] "I" ValueSort "SELECT a FROM t1" 3 ["7"] "all" 8 in
  let harness := fixedBackend "mysql" "II" ["2"; "1"] in
  let w' :=
    mkWorld ["SELECT a FROM t1"] (Some record) ["2"; "1"]
      [mkLogLine 3 "SELECT a FROM t1" (NotOk (SchemasDiffer "I" "II"))]
      [CallQuery "SELECT a FROM t1"] in
  generateRecords harness [record]
    (mkLineScanner (["# first"] ++ "query I valuesort all" ::
                    ["SELECT a FROM t1"] ++ "----" :: ["7"] ++ "" :: ["# last"]) 0 None)
    [] freshWorld =
  Done ["# first"; "query II valuesort all"; "SELECT a FROM t1"; "----"; "2"; "1"; "";
        "# last"] w'.
Proof.
  cbv zeta.
  rewrite (generateRecords_query (fixedBackend "mysql" "II" ["2"; "1"])
             (mkRecord Query false [] "I" ValueSort "SELECT a FROM t1" 3 ["7"] "all" 8)
             [] freshWorld
             (mkWorld ["SELECT a FROM t1"]
                (Some (mkRecord Query false [] "I" ValueSort "SELECT a FROM t1" 3 ["7"]
                         "all" 8))
                ["2"; "1"]
                [mkLogLine 3 "SELECT a FROM t1" (NotOk (SchemasDiffer "I" "II"))]
                [CallQuery "SELECT a FROM t1"])
             (mkExecuted "II" ["2"; "1"] true None)
             ["# first"] "query I valuesort all" ["SELECT a FROM t1"] "----" ["7"] ""
             ["# last"] 0 None []);
    try reflexivity; repeat constructor.
Defined.

(** X26.  What [generateTestFile] does with a statement it has executed
    without an error to hand back, when the scanner stands before the
    record: every line up to the line before the first line of the
    statement's text, that line included, is copied as it is, and the loop
    goes on with the lines after it. *)
Theorem generateRecords_statement {H} (harness : Harness H) (record : Record)
    (more : list Record) (w w' : World H) (x : Executed)
    (before : list string) (header : string) (rest : list string)
    (ln : Z) (err : option string) (wr : Writer) :
  recordType record = Statement ->
  executeRecord harness record w = Done x w' ->
  errOut x = None ->
  ShouldExecuteForEngine record (EngineStr harness (backend w')) = true ->
  (ln + Z.of_nat (List.length before) + 2 = lineNum record)%Z ->
  generateRecords harness (record :: more)
    (mkLineScanner (before ++ header :: rest) ln err) wr w =
  generateRecords harness more
    (mkLineScanner rest (lineNum record - 1) err) (wr ++ before ++ [header])%list w'.
Proof.
  intros Hs Hx He Hel Hn.
  cbn [generateRecords]. unfold bind at 1. rewrite Hx.
  unfold bind, engineStr. rewrite He, Hel, Hs. cbn [isSome negb orb].
  unfold copyToRecord. cbn [pending LineNum scanErr].
  rewrite (copyToRecord_loop_app _ before header _ ln wr Hn).
  unfold writeLine. rewrite <- app_assoc.
  replace (ln + Z.of_nat (List.length before) + 1)%Z with (lineNum record - 1)%Z by lia.
  reflexivity.
Qed.

Lemma generateRecords_statement_witness :
  let record :=
    mkRecord Statement false [] "" "" "INSERT INTO t1 VALUES(1)" 3 [] "" 8 in
  generateRecords (fixedBackend "mysql" "" []) [record]
    (mkLineScanner (["# first"] ++ "statement ok" ::
                    ["INSERT INTO t1 VALUES(1)"; ""; "# last"]) 0 None)
    [] freshWorld =
  Done ["# first"; "statement ok"; "INSERT INTO t1 VALUES(1)"; ""; "# last"]
    (mkWorld ["INSERT INTO t1 VALUES(1)"] (Some record) []
       [mkLogLine 3 "INSERT INTO t1 VALUES(1)" Ok]
       [CallStatement "INSERT INTO t1 VALUES(1)"]).
Proof.
  cbv zeta.
  rewrite (generateRecords_statement (fixedBackend "mysql" "" [])
             (mkRecord Statement false [] "" "" "INSERT INTO t1 VALUES(1)" 3 [] "" 8)
             [] freshWorld
             (mkWorld ["INSERT INTO t1 VALUES(1)"]
                (Some (mkRecord Statement false [] "" "" "INSERT INTO t1 VALUES(1)" 3 []
                         "" 8))
                [] [mkLogLine 3 "INSERT INTO t1 VALUES(1)" Ok]
                [CallStatement "INSERT INTO t1 VALUES(1)"])
             (mkExecuted "" [] true None)
             ["# first"] "statement ok" ["INSERT INTO t1 VALUES(1)"; ""; "# last"]
             0 None []);
    reflexivity.
Defined.

(** *** Panics of a run *)

Lemma runRecords_Done {H} (harness : Harness H) testRecords : forall w : World H,
  exists w', runRecords harness testRecords w = Done tt w'.
Proof.
  induction testRecords as [|record rest IH]; intros w; simpl; [eexists; reflexivity|].
  unfold bind.
  destruct (executeRecord_Done harness record w) as (x & w1 & -> & _).
  destruct (cont x); simpl; [apply IH | eexists; reflexivity].
Qed.

(** X27.  On a test file that can be opened, [runTestFile] panics only
    before the first record is executed, because [Init] panicked or
    returned an error or because the file did not parse: nothing has been
    logged and nothing has been sent to the backend then.  Once the file
    is parsed, every panic is caught record by record. *)
Theorem run_panics_at_start {H} (harness : Harness H) (lines : list string)
    (scanErr : option string) (w w' : World H) (v : PanicValue) :
  runTestFile harness lines scanErr w = Panicking v w' ->
  panicsAtStart harness lines scanErr w v /\
  stdout w' = stdout w /\ calls w' = calls w /\ currRecord w' = currRecord w.
Proof.
  unfold runTestFile, panicsAtStart, bind, panic.
  rewrite ParseTestFile_total.
  destruct (Init harness (backend w)) as [[e|] h|v0 h] eqn:Hi.
  - intros Hp; inversion Hp; subst; simpl; split; eauto 6.
  - set (w1 := mkWorld h (currRecord w) (observed w) (stdout w) (calls w)).
    destruct (parseLines initLocals 0 None [] lines scanErr) as [records|e|v1] eqn:Hparse.
    + intros Hp.
      destruct (runRecords_Done harness records w1) as [w2 Hr]. congruence.
    + intros Hp; inversion Hp; subst; simpl; split; eauto 6.
    + intros Hp; inversion Hp; subst; simpl; split; eauto 6.
  - intros Hp; inversion Hp; subst; simpl; split; eauto 6.
Qed.

Lemma run_panics_at_start_witness :
  runTestFile (fixedBackend "mysql" "" []) ["  # x"] None freshWorld =
    Panicking (IndexOutOfRange 0 0) freshWorld /\
  panicsAtStart (fixedBackend "mysql" "" []) ["  # x"] None freshWorld (IndexOutOfRange 0 0) /\
  stdout freshWorld = stdout freshWorld /\ calls freshWorld = calls freshWorld /\
  currRecord freshWorld = currRecord freshWorld.
Proof.
  split; [reflexivity|].
  apply (run_panics_at_start (fixedBackend "mysql" "" []) ["  # x"] None
           freshWorld freshWorld (IndexOutOfRange 0 0)).
  reflexivity.
Defined.
